(** * Gaussian-process regression engine (GPR): model and verification

    Shallow embedding of [src/lib/GaussianProcess.cpp],
    [src/include/GaussianProcess.h] and [src/include/KernelFactory.h].

    Conventions of the embedding.
    - The template parameter [TScalarType] is a type [T] with the
      operations of class [Scalar]; the IEEE instances [binary32] and
      [binary64] (module [IEEE]) are the two scalar types the source
      instantiates ([float], [double]).
    - Eigen is a numeric library outside the repository: coefficient access,
      products, differences and norms are written out from the scalar
      operations in textbook order; the decompositions ([inverse] and the
      three spectral solvers) are methods of class [Eigen].
    - [Kernel.h] and [MatrixIO.h] are not part of the sources at hand: the
      kernel objects and the matrix reader and writer are taken through the
      classes [KernelLib] and [MatrixIO].
    - A C++ exception is [Throw], a failed Eigen assertion, an out-of-range
      index or a null or past-the-end dereference is [Undefined].
    - Container sizes are natural numbers; they are assumed to fit the
      [unsigned] counters of the source.
    - Diagnostic output on [std::cout] has no effect on the engine and is
      not modelled. The [omp parallel for] loops write disjoint cells and
      are run in index order. *)

From Stdlib Require Import ZArith NArith Bool Lia Ascii.
From Stdlib Require Import SpecFloat.
From stdpp Require Import base option list strings gmap.

Local Open Scope string_scope.
Local Open Scope nat_scope.
Local Open Scope list_scope.

(** ** Exceptions and outcomes *)

(** The taxonomy of failures (specification, section 7). *)
Inductive ErrorKind :=
| DimensionMismatch
| UntrainedState
| FileNotFound
| CorruptParameterFile
| UnknownKernelType
| UnimplementedCompositeKernel.

(** One constructor per [throw] statement of the sources. *)
Inductive Exception :=
| InputDimensionError (msg_prefix : string) (actual expected : nat)
| OutputDimensionError (msg_prefix : string) (actual expected : nat)
| NoInputSamples
| NoOutputLabels
| NoOutputLabelsInComputation
| SaveNotInitialized
| KernelVectorNotInitialized
| FileMissing (filename : string)
| ParameterFileCorrupt
| TokenizeFailed
| KernelNotRecognized
| KernelLoadError (k : ErrorKind).

Definition kind_of (ex : Exception) : ErrorKind :=
  match ex with
  | InputDimensionError _ _ _ | OutputDimensionError _ _ _ => DimensionMismatch
  | NoInputSamples | NoOutputLabels | NoOutputLabelsInComputation
  | SaveNotInitialized | KernelVectorNotInitialized => UntrainedState
  | FileMissing _ => FileNotFound
  | ParameterFileCorrupt => CorruptParameterFile
  | TokenizeFailed | KernelNotRecognized => UnknownKernelType
  | KernelLoadError k => k
  end.

(** Outcome of a [const] computation. *)
Inductive result (A : Type) : Type :=
| Ok (a : A)
| Throw (ex : Exception)
| Undefined.
Arguments Ok {A} a.
Arguments Throw {A} ex.
Arguments Undefined {A}.

Definition rbind {A B} (r : result A) (f : A → result B) : result B :=
  match r with
  | Ok a => f a
  | Throw ex => Throw ex
  | Undefined => Undefined
  end.

Notation "x <- r ;; k" := (rbind r (fun x => k))
  (at level 100, r at next level, right associativity, only parsing).

(** Left-to-right loop over a list of indices. *)
Fixpoint rfold {A I} (body : A → I → result A) (idx : list I) (a : A) : result A :=
  match idx with
  | [] => Ok a
  | i :: idx' => a' <- body a i;; rfold body idx' a'
  end.

(** [v[i]] on a [std::vector]: out of range is undefined. *)
Definition at_index {A} (l : list A) (i : nat) : result A :=
  match l !! i with
  | Some a => Ok a
  | None => Undefined
  end.

(** [*p] on a [std::shared_ptr]. *)
Definition deref {A} (p : option A) : result A :=
  match p with
  | Some a => Ok a
  | None => Undefined
  end.

(** ** Scalars *)

(** Result of one formatted extraction on a stream with text left to read:
    the value and the unread text, or failure with the value that is stored
    in the target. *)
Inductive extraction (A : Type) : Type :=
| Extracted (a : A) (rest : string)
| Failed (stored : A).
Arguments Extracted {A} a rest.
Arguments Failed {A} stored.

Class Scalar (T : Type) := {
  s_zero : T;
  s_two : T;
  s_one : T;
  s_add : T → T → T;
  s_sub : T → T → T;
  s_mul : T → T → T;
  s_div : T → T → T;
  s_opp : T → T;
  s_sqrt : T → T;
  s_ltb : T → T → bool;
  s_eqb : T → T → bool;
  (** [std::numeric_limits<TScalarType>::digits10] *)
  digits10 : nat;
  (** [stream << x] under [std::setprecision(p)] *)
  s_print : nat → T → string;
  (** [stream >> x] on the text that follows the leading white space, when
      there is some: the value and the text left, or failure with the value
      stored *)
  s_extract : string → extraction T;
}.

(** [std::max(a, b)] is [(a < b) ? b : a]. *)
Definition s_max `{Scalar T} (a b : T) : T := if s_ltb a b then b else a.

(** Sum of a sequence of scalars, first to last. *)
Definition s_sum `{Scalar T} (l : list T) : T :=
  match l with
  | [] => s_zero
  | x :: r => fold_left s_add r x
  end.

(** ** Dense vectors and matrices *)

(** [VectorType]: a column of scalars. *)
Abbreviation Vector T := (list T) (only parsing).

Section Matrices.
Context {T : Type}.

(** [MatrixType]: the dimensions and the rows. *)
Record Matrix := mkMatrix {
  mrows : nat;
  mcols : nat;
  mdata : list (list T);
}.

(** The rows stored agree with the dimensions. *)
Definition mat_wf (M : Matrix) : Prop :=
  length (mdata M) = mrows M ∧ Forall (λ r, length r = mcols M) (mdata M).

(** The default-constructed [MatrixType]. *)
Definition mat_empty : Matrix := mkMatrix 0 0 [].

Definition coeff (M : Matrix) (i j : nat) : option T :=
  mdata M !! i ≫= λ r, r !! j.

Definition tabulate {A} (n : nat) (f : nat → A) : list A := f <$> seq 0 n.

Definition mat_tabulate (r c : nat) (f : nat → nat → T) : Matrix :=
  mkMatrix r c (tabulate r (λ i, tabulate c (f i))).

Definition mat_fill (r c : nat) (v : T) : Matrix :=
  mkMatrix r c (replicate r (replicate c v)).

(** [M(i,j) = v] *)
Definition mat_set (i j : nat) (v : T) (M : Matrix) : Matrix :=
  mkMatrix (mrows M) (mcols M)
    (match mdata M !! i with
     | Some r => <[i := <[j := v]> r]> (mdata M)
     | None => mdata M
     end).

Definition mat_transpose (M : Matrix) : Matrix :=
  mkMatrix (mcols M) (mrows M)
    (tabulate (mcols M) (λ j, omap (λ r, r !! j) (mdata M))).

(** A [VectorType] seen as an [n×1] matrix, its adjoint as [1×n]. *)
Definition col_matrix (v : Vector T) : Matrix :=
  mkMatrix (length v) 1 ((λ x, [x]) <$> v).
Definition row_matrix (v : Vector T) : Matrix :=
  mkMatrix 1 (length v) [v].

(** [M.col(j)] *)
Definition mat_col (j : nat) (M : Matrix) : Vector T :=
  omap (λ r, r !! j) (mdata M).

(** A matrix expression assigned to a [VectorType]: it must have one
    column. *)
Definition vec_of_matrix (M : Matrix) : result (Vector T) :=
  if decide (mcols M = 1) then Ok (mat_col 0 M) else Undefined.

(** A [1×1] product read as a scalar. *)
Definition scalar_of_matrix (M : Matrix) : result T :=
  match mrows M, mcols M, mdata M with
  | 1, 1, [[x]] => Ok x
  | _, _, _ => Undefined
  end.
End Matrices.
Arguments Matrix : clear implicits.

Section MatrixArith.
Context `{Scalar T}.

Definition dot (u v : Vector T) : T :=
  s_sum (zip_with s_mul u v).

(** [A * B]; Eigen asserts [A.cols() == B.rows()]. *)
Definition mat_mul (A B : Matrix T) : result (Matrix T) :=
  if decide (mcols A = mrows B) then
    Ok (mkMatrix (mrows A) (mcols B)
          ((λ r, tabulate (mcols B) (λ j, dot r (mat_col j B))) <$> mdata A))
  else Undefined.

(** [A - B]; Eigen asserts equal dimensions. *)
Definition mat_sub (A B : Matrix T) : result (Matrix T) :=
  if decide (mrows A = mrows B ∧ mcols A = mcols B) then
    Ok (mkMatrix (mrows A) (mcols A)
          (zip_with (zip_with s_sub) (mdata A) (mdata B)))
  else Undefined.

Definition vec_sub (u v : Vector T) : result (Vector T) :=
  if decide (length u = length v) then Ok (zip_with s_sub u v) else Undefined.

(** [u.cwiseProduct(v)] *)
Definition cwiseProduct (u v : Vector T) : result (Vector T) :=
  if decide (length u = length v) then Ok (zip_with s_mul u v) else Undefined.

(** [-M] *)
Definition mat_opp (M : Matrix T) : Matrix T :=
  mkMatrix (mrows M) (mcols M) (map (map s_opp) (mdata M)).

(** [M.norm()]: the Frobenius norm. *)
Definition mat_norm (M : Matrix T) : T :=
  s_sqrt (s_sum ((λ x, s_mul x x) <$> concat (mdata M))).
Definition vec_norm (v : Vector T) : T :=
  s_sqrt (s_sum ((λ x, s_mul x x) <$> v)).

(** [v.asDiagonal()] *)
Definition asDiagonal (v : Vector T) : Matrix T :=
  mat_tabulate (length v) (length v)
    (λ i j, if decide (i = j) then default s_zero (v !! i) else s_zero).

(** [1 / v.array()] *)
Definition reciprocal (v : Vector T) : Vector T := s_div s_one <$> v.

(** [M.rowwise().reverse()] *)
Definition rowwise_reverse (M : Matrix T) : Matrix T :=
  mkMatrix (mrows M) (mcols M) (map reverse (mdata M)).
End MatrixArith.

(** ** The numeric library *)

(** The decompositions of Eigen used by the engine. [uninitialized] stands
    for the content of coefficients that [resize] has allocated and nothing
    has written yet. *)
Class Eigen (T : Type) := {
  uninitialized : T;
  (** [M.inverse()] *)
  inverse : Matrix T → Matrix T;
  (** [Eigen::JacobiSVD]: [matrixU()], [singularValues()], [matrixV()] *)
  JacobiSVD_compute : Matrix T → Matrix T * Vector T * Matrix T;
  (** [Eigen::BDCSVD]: the same three components *)
  BDCSVD_compute : Matrix T → Matrix T * Vector T * Matrix T;
  (** [Eigen::SelfAdjointEigenSolver]: [eigenvalues()], [eigenvectors()] *)
  SelfAdjointEigenSolver_compute : Matrix T → Vector T * Matrix T;
}.

(** [M.resize(r, c)]: a matrix that already has these dimensions is kept. *)
Definition resize `{Eigen T} (r c : nat) (M : Matrix T) : Matrix T :=
  if decide (mrows M = r ∧ mcols M = c) then M else mat_fill r c uninitialized.

(** [MatrixType::Zero(r, c)] and [MatrixType::Identity(r, c)] *)
Definition mat_zero `{Scalar T} (r c : nat) : Matrix T := mat_fill r c s_zero.
Definition mat_identity `{Scalar T} (r c : nat) : Matrix T :=
  mat_tabulate r c (λ i j, if decide (i = j) then s_one else s_zero).

(** ** Kernels *)

(** Modelled from the spec: the class [Kernel<TScalarType>] of [Kernel.h]
    (section 4.1): [operator()] is [k_eval], [GetParameters()] is
    [k_params], [ToString()] is [k_tag]; [k_class] names the C++ class of
    the object, which [std::dynamic_pointer_cast] inspects. *)
Record Kernel (T : Type) := mkKernel {
  k_class : string;
  k_eval : Vector T → Vector T → T;
  k_params : list T;
  k_tag : string;
}.
Arguments mkKernel {T}.
Arguments k_class {T}.
Arguments k_eval {T}.
Arguments k_params {T}.
Arguments k_tag {T}.

(** The parts of [Kernel.h] the engine calls and that are not members of one
    kernel object: the comparison [operator!=] and the static [Load]
    function of each kernel class. *)
Class KernelLib (T : Type) := {
  kernel_neq : Kernel T → Kernel T → bool;
  GaussianKernel_Load : list T → result (option (Kernel T));
  PeriodicKernel_Load : list T → result (option (Kernel T));
  SumKernel_Load : list T → result (option (Kernel T));
  ProductKernel_Load : list T → result (option (Kernel T));
}.

(** [std::dynamic_pointer_cast<C>(p)] *)
Definition dynamic_pointer_cast {T} (C : string) (p : option (Kernel T)) : option (Kernel T) :=
  match p with
  | Some k => if decide (k_class k = C) then Some k else None
  | None => None
  end.

(** ** Kernel factory ([KernelFactory.h]) *)

(** [ComponentFactoryFuncPtr] *)
Definition ComponentFactoryFuncPtr (T : Type) : Type :=
  list T → result (option (Kernel T)).

(** [MapType] is [gmap string (ComponentFactoryFuncPtr T)]. *)

(** [AddType<TKernel>(componentName)]: [std::map::insert] keeps an entry
    that is already there. *)
Definition AddType {T} (create : ComponentFactoryFuncPtr T) (componentName : string)
    (m_Map : gmap string (ComponentFactoryFuncPtr T)) : gmap string (ComponentFactoryFuncPtr T) :=
  match m_Map !! componentName with
  | Some _ => m_Map
  | None => <[componentName := create]> m_Map
  end.

(** [KernelFactory::Load]: the iterator returned by [find] is dereferenced
    without a comparison with [end()]. *)
Definition KernelFactory_Load {T} (m_Map : gmap string (ComponentFactoryFuncPtr T))
    (kernel_string : string) (parameters : list T) : result (option (Kernel T)) :=
  match m_Map !! kernel_string with
  | Some create => create parameters
  | None => Undefined
  end.

Definition RegisterKernels `{KernelLib T}
    (m_Map : gmap string (ComponentFactoryFuncPtr T)) : gmap string (ComponentFactoryFuncPtr T) :=
  AddType ProductKernel_Load "ProductKernel"
    (AddType SumKernel_Load "SumKernel"
      (AddType PeriodicKernel_Load "PeriodicKernel"
        (AddType GaussianKernel_Load "GaussianKernel" m_Map))).

(** ** Matrix files *)

(** Modelled from the spec: [WriteMatrix] and [ReadMatrix] of [MatrixIO.h]
    (section 6, the delegated matrix text format), as the text written for
    a matrix and the matrix read from a text. What the writer does on a
    path that it cannot open is not described: the results about the files
    written are stated for paths that can be opened. *)
Class MatrixIO (T : Type) := {
  WriteMatrix_text : Matrix T → string;
  ReadMatrix_text : string → Matrix T;
}.

(** What a file system holds at a path: a directory; a regular file with
    its content, which can be opened for writing or cannot; or nothing, with
    no file to be created there, because a directory on the way to the path
    is missing or cannot be written. A path that the file system does not
    list holds nothing and a file can be created there. *)
Inductive fs_node :=
| Directory
| RegularFile (content : string)
| ReadOnlyFile (content : string)
| Unreachable.

(** [fs::exists(p) && !fs::is_directory(p)] *)
Definition is_regular_file (fs : gmap string fs_node) (p : string) : option string :=
  match fs !! p with
  | Some (RegularFile c) => Some c
  | Some (ReadOnlyFile c) => Some c
  | _ => None
  end.

(** [std::ofstream::open] on the path succeeds. *)
Definition opens_for_writing (fs : gmap string fs_node) (p : string) : bool :=
  match fs !! p with
  | None | Some (RegularFile _) => true
  | Some Directory | Some (ReadOnlyFile _) | Some Unreachable => false
  end.

(** Opening a path for writing, writing [content] and closing. Nothing
    checks that the stream is open: on a path that cannot be opened the
    output is dropped and the file system stays as it is. *)
Definition write_file (p content : string) (fs : gmap string fs_node) : gmap string fs_node :=
  if opens_for_writing fs p then <[p := RegularFile content]> fs else fs.

(** ** The engine *)

(** Modelled from the spec: the inversion strategies (section 4.3); the
    [switch] of [ComputeRegressionVectors] names them, their declaration is
    not part of the header at hand. *)
Inductive InversionMethod :=
| FullPivotLU
| JacobiSVD
| BDCSVD
| SelfAdjointEigenSolver.

Record GaussianProcess (T : Type) := mkGaussianProcess {
  m_Kernel : option (Kernel T);
  m_Sigma : T;
  m_SampleVectors : list (Vector T);
  m_LabelVectors : list (Vector T);
  m_RegressionVectors : Matrix T;
  m_CoreMatrix : Matrix T;
  m_Initialized : bool;
  m_InputDimension : nat;
  m_OutputDimension : nat;
  debug : bool;
  m_InvMethod : InversionMethod;
}.
Arguments mkGaussianProcess {T}.
Arguments m_Kernel {T}.
Arguments m_Sigma {T}.
Arguments m_SampleVectors {T}.
Arguments m_LabelVectors {T}.
Arguments m_RegressionVectors {T}.
Arguments m_CoreMatrix {T}.
Arguments m_Initialized {T}.
Arguments m_InputDimension {T}.
Arguments m_OutputDimension {T}.
Arguments debug {T}.
Arguments m_InvMethod {T}.

Section Setters.
Context {T : Type}.
Implicit Type e : GaussianProcess T.

Definition set_Kernel (k : option (Kernel T)) e :=
  mkGaussianProcess k (m_Sigma e) (m_SampleVectors e) (m_LabelVectors e)
    (m_RegressionVectors e) (m_CoreMatrix e) (m_Initialized e)
    (m_InputDimension e) (m_OutputDimension e) (debug e) (m_InvMethod e).
Definition set_Sigma (s : T) e :=
  mkGaussianProcess (m_Kernel e) s (m_SampleVectors e) (m_LabelVectors e)
    (m_RegressionVectors e) (m_CoreMatrix e) (m_Initialized e)
    (m_InputDimension e) (m_OutputDimension e) (debug e) (m_InvMethod e).
Definition set_SampleVectors (l : list (Vector T)) e :=
  mkGaussianProcess (m_Kernel e) (m_Sigma e) l (m_LabelVectors e)
    (m_RegressionVectors e) (m_CoreMatrix e) (m_Initialized e)
    (m_InputDimension e) (m_OutputDimension e) (debug e) (m_InvMethod e).
Definition set_LabelVectors (l : list (Vector T)) e :=
  mkGaussianProcess (m_Kernel e) (m_Sigma e) (m_SampleVectors e) l
    (m_RegressionVectors e) (m_CoreMatrix e) (m_Initialized e)
    (m_InputDimension e) (m_OutputDimension e) (debug e) (m_InvMethod e).
Definition set_RegressionVectors (M : Matrix T) e :=
  mkGaussianProcess (m_Kernel e) (m_Sigma e) (m_SampleVectors e) (m_LabelVectors e)
    M (m_CoreMatrix e) (m_Initialized e)
    (m_InputDimension e) (m_OutputDimension e) (debug e) (m_InvMethod e).
Definition set_CoreMatrix (M : Matrix T) e :=
  mkGaussianProcess (m_Kernel e) (m_Sigma e) (m_SampleVectors e) (m_LabelVectors e)
    (m_RegressionVectors e) M (m_Initialized e)
    (m_InputDimension e) (m_OutputDimension e) (debug e) (m_InvMethod e).
Definition set_Initialized (b : bool) e :=
  mkGaussianProcess (m_Kernel e) (m_Sigma e) (m_SampleVectors e) (m_LabelVectors e)
    (m_RegressionVectors e) (m_CoreMatrix e) b
    (m_InputDimension e) (m_OutputDimension e) (debug e) (m_InvMethod e).
Definition set_InputDimension (n : nat) e :=
  mkGaussianProcess (m_Kernel e) (m_Sigma e) (m_SampleVectors e) (m_LabelVectors e)
    (m_RegressionVectors e) (m_CoreMatrix e) (m_Initialized e)
    n (m_OutputDimension e) (debug e) (m_InvMethod e).
Definition set_OutputDimension (n : nat) e :=
  mkGaussianProcess (m_Kernel e) (m_Sigma e) (m_SampleVectors e) (m_LabelVectors e)
    (m_RegressionVectors e) (m_CoreMatrix e) (m_Initialized e)
    (m_InputDimension e) n (debug e) (m_InvMethod e).
Definition set_debug (b : bool) e :=
  mkGaussianProcess (m_Kernel e) (m_Sigma e) (m_SampleVectors e) (m_LabelVectors e)
    (m_RegressionVectors e) (m_CoreMatrix e) (m_Initialized e)
    (m_InputDimension e) (m_OutputDimension e) b (m_InvMethod e).
End Setters.

(** Outcome of a member function that may write the members: the state
    reached is part of a normal return and of a thrown exception. *)
Inductive outcome (S A : Type) : Type :=
| Return (a : A) (s : S)
| Raise (ex : Exception) (s : S)
| Stuck.
Arguments Return {S A} a s.
Arguments Raise {S A} ex s.
Arguments Stuck {S A}.

Definition method (S A : Type) : Type := S → outcome S A.

Definition mret {S A} (a : A) : method S A := λ s, Return a s.

Definition mbind' {S A B} (m : method S A) (f : A → method S B) : method S B :=
  λ s, match m s with
       | Return a s' => f a s'
       | Raise ex s' => Raise ex s'
       | Stuck => Stuck
       end.

(** A [const] computation run on the current state. *)
Definition call {S A} (f : S → result A) : method S A :=
  λ s, match f s with
       | Ok a => Return a s
       | Throw ex => Raise ex s
       | Undefined => Stuck
       end.

(** An assignment to members. *)
Definition assign {S} (f : S → S) : method S unit := λ s, Return tt (f s).

(** The state that a call leaves, for chaining calls; [s0] when the call
    gets stuck. *)
Definition after {S A} (o : outcome S A) (s0 : S) : S :=
  match o with
  | Return _ s | Raise _ s => s
  | Stuck => s0
  end.

(** Whether a call returns, and the exception it throws. *)
Definition returns {S A} (o : outcome S A) : bool :=
  match o with
  | Return _ _ => true
  | _ => false
  end.

Definition thrown {S A} (o : outcome S A) : option Exception :=
  match o with
  | Raise ex _ => Some ex
  | _ => None
  end.

Notation "x <~ m ;; k" := (mbind' m (fun x => k))
  (at level 100, m at next level, right associativity, only parsing).
Notation "m ;;; k" := (mbind' m (fun _ => k))
  (at level 100, right associativity, only parsing).

(** ** Text streams *)

Definition newline : ascii := ascii_of_nat 10.

(** [std::isspace] in the C locale. *)
Definition isspace (c : ascii) : bool :=
  let n := nat_of_ascii c in
  (n =? 32)%nat || ((9 <=? n)%nat && (n <=? 13)%nat).

Fixpoint skip_ws (s : string) : string :=
  match s with
  | String c r => if isspace c then skip_ws r else s
  | EmptyString => s
  end.

(** The text up to the first [delim] and the text after it. *)
Fixpoint split_delim (delim : ascii) (s : string) : string * string :=
  match s with
  | EmptyString => (EmptyString, EmptyString)
  | String c r =>
      if decide (c = delim) then (EmptyString, r)
      else let '(t, rest) := split_delim delim r in (String c t, rest)
  end.

(** [std::getline(stream, token, delim)] on a stream whose unread text is
    [s]: it fails when nothing is left to extract. *)
Definition getline (delim : ascii) (s : string) : option (string * string) :=
  match s with
  | EmptyString => None
  | _ => Some (split_delim delim s)
  end.

(** [stream >> target]: a stream that has failed (state [None]) leaves the
    target as it is, and so does a stream with nothing but white space left
    to read: the sentry of the extraction skips the white space, meets the
    end of the input and fails before anything is stored. *)
Definition stream_get {A} (ext : string → extraction A) (st : option string) (target : A)
    : A * option string :=
  match st with
  | None => (target, None)
  | Some s =>
      match skip_ws s with
      | EmptyString => (target, None)
      | _ =>
          match ext s with
          | Extracted a rest => (a, Some rest)
          | Failed a => (a, None)
          end
      end
  end.

Fixpoint take_word (s : string) : string * string :=
  match s with
  | EmptyString => (EmptyString, EmptyString)
  | String c r =>
      if isspace c then (EmptyString, s)
      else let '(w, rest) := take_word r in (String c w, rest)
  end.

(** [stream >> std::string] *)
Definition extract_string (s : string) : extraction string :=
  match take_word (skip_ws s) with
  | (EmptyString, _) => Failed EmptyString
  | (w, rest) => Extracted w rest
  end.

Definition digit_of (c : ascii) : option N :=
  let n := N_of_ascii c in
  if (48 <=? n)%N && (n <=? 57)%N then Some (n - 48)%N else None.

(** The digits at the head of [s]: their value, their number, the rest. *)
Fixpoint read_digits (s : string) (acc : N) (count : nat) : N * nat * string :=
  match s with
  | String c r =>
      match digit_of c with
      | Some d => read_digits r (10 * acc + d)%N (S count)
      | None => (acc, count, s)
      end
  | EmptyString => (acc, count, s)
  end.

Definition read_sign (s : string) : bool * string :=
  match s with
  | String c r =>
      if decide (c = "-"%char) then (true, r)
      else if decide (c = "+"%char) then (false, r)
      else (false, s)
  | EmptyString => (false, s)
  end.

Definition UINT_MAX : N := 4294967295.

(** [stream >> unsigned]: a value that does not fit is a failure that
    stores the largest value, a negative one wraps around. *)
Definition extract_unsigned (s : string) : extraction nat :=
  let '(neg, s1) := read_sign (skip_ws s) in
  let '(v, count, rest) := read_digits s1 0 0 in
  match count with
  | O => Failed 0
  | _ =>
      if (UINT_MAX <? v)%N then Failed (N.to_nat UINT_MAX)
      else Extracted (N.to_nat (if neg then (UINT_MAX + 1 - v) mod (UINT_MAX + 1) else v)%N) rest
  end.

(** [stream >> bool] without [boolalpha]: the text is read as an integer
    that must be 0 or 1. *)
Definition extract_bool (s : string) : extraction bool :=
  let '(neg, s1) := read_sign (skip_ws s) in
  let '(v, count, rest) := read_digits s1 0 0 in
  match count with
  | O => Failed false
  | _ =>
      if (v =? 0)%N then Extracted false rest
      else if (v =? 1)%N && negb neg then Extracted true rest
      else Failed true
  end.

(** [stream >> scalar]; at the end of the input nothing is extracted. *)
Definition extract_scalar `{Scalar T} (s : string) : extraction T :=
  match skip_ws s with
  | EmptyString => Failed s_zero
  | text => s_extract text
  end.

(** Decimal text of an unsigned integer, least significant digit last. *)
Fixpoint print_digits (fuel : nat) (n : N) (acc : string) : string :=
  match fuel with
  | O => acc
  | S fuel' =>
      let acc' := String (ascii_of_N (48 + n mod 10)) acc in
      if (n <? 10)%N then acc' else print_digits fuel' (n / 10)%N acc'
  end.

Definition print_N (v : N) : string :=
  print_digits (S (N.to_nat (N.log2 v))) v EmptyString.

(** [stream << n] for an unsigned integer. *)
Definition print_unsigned (n : nat) : string := print_N (N.of_nat n).

(** [stream << b] without [boolalpha]. *)
Definition print_bool (b : bool) : string := if b then "1" else "0".

(** ** Coefficient access with Eigen's range assertions *)

Section Access.
Context `{Eigen T}.

(** [M(i,j)] read and [M(i,j) = v]. *)
Definition mat_read (i j : nat) (M : Matrix T) : result T :=
  match coeff M i j with
  | Some v => if decide (i < mrows M ∧ j < mcols M) then Ok v else Undefined
  | None => Undefined
  end.

Definition mat_write (i j : nat) (v : T) (M : Matrix T) : result (Matrix T) :=
  if decide (i < mrows M ∧ j < mcols M) then Ok (mat_set i j v M) else Undefined.

(** [M.col(j)] with its range assertion. *)
Definition mat_get_col (j : nat) (M : Matrix T) : result (Vector T) :=
  if decide (j < mcols M) then Ok (mat_col j M) else Undefined.

(** [M.block(i, j, p, q) = B]: the block must lie inside [M] and [B] must
    have its dimensions. *)
Definition mat_block_assign (i j p q : nat) (B M : Matrix T) : result (Matrix T) :=
  if decide (i + p ≤ mrows M ∧ j + q ≤ mcols M ∧ mrows B = p ∧ mcols B = q) then
    Ok (mkMatrix (mrows M) (mcols M)
          (imap (λ r row,
                   if decide (i ≤ r < i + p)
                   then take j row ++ default [] (mdata B !! (r - i)) ++ drop (j + q) row
                   else row)
                (mdata M)))
  else Undefined.

(** [v.resize(n)] and [v(i) = x] on a [VectorType]. *)
Definition vec_resize (n : nat) (v : Vector T) : Vector T :=
  if decide (length v = n) then v else replicate n uninitialized.

Definition vec_write (i : nat) (x : T) (v : Vector T) : result (Vector T) :=
  if decide (i < length v) then Ok (<[i := x]> v) else Undefined.

(** The columns of a matrix, first to last ([X.col(i)] for [i < X.cols()]). *)
Definition columns (X : Matrix T) : list (Vector T) :=
  tabulate (mcols X) (λ i, mat_col i X).
End Access.

(** ** Member functions of [GaussianProcess] *)

Section Engine.
Context `{Scalar T} `{Eigen T} `{KernelLib T} `{MatrixIO T}.
Implicit Type e : GaussianProcess T.
Implicit Types x y : Vector T.

(** The constructor. The inversion strategy starts as the default one
    (specification, section 4.3). *)
Definition construct (kernel : option (Kernel T)) : GaussianProcess T :=
  mkGaussianProcess kernel s_zero [] [] mat_empty mat_empty false 0 0 false FullPivotLU.

Definition CheckInputDimension e x (msg_prefix : string) : result unit :=
  if decide (length x ≠ m_InputDimension e)
  then Throw (InputDimensionError msg_prefix (length x) (m_InputDimension e))
  else Ok tt.

Definition CheckOutputDimension e y (msg_prefix : string) : result unit :=
  if decide (length y ≠ m_OutputDimension e)
  then Throw (OutputDimensionError msg_prefix (length y) (m_OutputDimension e))
  else Ok tt.

Definition AddSample x y : method (GaussianProcess T) unit :=
  assign (λ e, if decide (length (m_SampleVectors e) = 0)
               then set_InputDimension (length x) e else e);;;
  assign (λ e, if decide (length (m_LabelVectors e) = 0)
               then set_OutputDimension (length y) e else e);;;
  call (λ e, CheckInputDimension e x "GaussianProcess::AddSample: ");;;
  call (λ e, CheckOutputDimension e y "GaussianProcess::AddSample: ");;;
  assign (λ e, set_SampleVectors (m_SampleVectors e ++ [x]) e);;;
  assign (λ e, set_LabelVectors (m_LabelVectors e ++ [y]) e);;;
  assign (set_Initialized false).

Definition DebugOn : method (GaussianProcess T) unit := assign (set_debug true).

Definition GetNumberOfSamples e : nat := length (m_SampleVectors e).

Definition GetSigma e : T := m_Sigma e.

Definition SetSigma (sigma : T) : method (GaussianProcess T) unit :=
  assign (set_Sigma sigma);;;
  assign (set_Initialized false).

Definition GetNumberOfInputDimensions e : nat := m_InputDimension e.

(** One iteration of the inner loop of [ComputeKernelMatrix]. *)
Definition kernel_cell e (i : nat) (M : Matrix T) (j : nat) : result (Matrix T) :=
  k <- deref (m_Kernel e);;
  xi <- at_index (m_SampleVectors e) i;;
  xj <- at_index (m_SampleVectors e) j;;
  let v := k_eval k xi xj in
  M1 <- mat_write i j v M;;
  mat_write j i v M1.

Definition ComputeKernelMatrix e (M : Matrix T) : result (Matrix T) :=
  let n := length (m_SampleVectors e) in
  rfold (λ M i, rfold (kernel_cell e i) (seq i (n - i)) M) (seq 0 n) (resize n n M).

Definition ComputeLabelMatrix e (Y : Matrix T) : result (Matrix T) :=
  let n := length (m_LabelVectors e) in
  if decide (¬ (0 < n)) then Throw NoOutputLabelsInComputation
  else
    l0 <- at_index (m_LabelVectors e) 0;;
    let d := length l0 in
    rfold (λ Y i, li <- at_index (m_LabelVectors e) i;;
                  mat_block_assign i 0 1 d (row_matrix li) Y)
          (seq 0 n) (resize n d Y).

(** [K(i,i) += sigma] for every row of [K]. *)
Definition add_noise (sigma : T) (K : Matrix T) : result (Matrix T) :=
  rfold (λ K i, v <- mat_read i i K;; mat_write i i (s_add v sigma) K)
        (seq 0 (mrows K)) K.

(** [V * VectorType(1/s.array()).asDiagonal() * U.transpose()] *)
Definition pseudo_inverse (U : Matrix T) (s : Vector T) (V : Matrix T) : result (Matrix T) :=
  VS <- mat_mul V (asDiagonal (reciprocal s));;
  mat_mul VS (mat_transpose U).

(** The [switch] over [m_InvMethod]; [inverse] is asserted to be applied to
    a square matrix. *)
Definition invert (method : InversionMethod) (K : Matrix T) : result (Matrix T) :=
  match method with
  | FullPivotLU =>
      if decide (mrows K = mcols K) then Ok (inverse K) else Undefined
  | JacobiSVD =>
      let '(U, s, V) := JacobiSVD_compute K in pseudo_inverse U s V
  | BDCSVD =>
      let '(U, s, V) := BDCSVD_compute K in pseudo_inverse U s V
  | SelfAdjointEigenSolver =>
      let '(values, vectors) := SelfAdjointEigenSolver_compute K in
      let eigenValues := reverse values in
      let eigenVectors := rowwise_reverse vectors in
      pseudo_inverse eigenVectors eigenValues eigenVectors
  end.

(** The inversion error that the debug mode prints:
    [(K*m_CoreMatrix - Identity(K.rows(),K.cols())).norm()]. *)
Definition inversion_error (K C : Matrix T) : result T :=
  KC <- mat_mul K C;;
  D <- mat_sub KC (mat_identity (mrows K) (mcols K));;
  Ok (mat_norm D).

Definition ComputeRegressionVectors : method (GaussianProcess T) unit :=
  K0 <~ call (λ e, ComputeKernelMatrix e mat_empty);;
  K <~ call (λ e, add_noise (m_Sigma e) K0);;
  C <~ call (λ e, invert (m_InvMethod e) K);;
  assign (set_CoreMatrix C);;;
  call (λ e, if debug e then inversion_error K (m_CoreMatrix e) else Ok s_zero);;;
  Y <~ call (λ e, ComputeLabelMatrix e mat_empty);;
  R <~ call (λ e, mat_mul (m_CoreMatrix e) Y);;
  assign (set_RegressionVectors R).

Definition Initialize : method (GaussianProcess T) unit :=
  λ e,
    if m_Initialized e then Return tt e
    else if decide (¬ (0 < length (m_SampleVectors e))) then Raise NoInputSamples e
    else if decide (¬ (0 < length (m_LabelVectors e))) then Raise NoOutputLabels e
    else (ComputeRegressionVectors;;; assign (set_Initialized true)) e.

Definition ComputeKernelVector e x (Kx : Vector T) : result (Vector T) :=
  if negb (m_Initialized e) then Throw KernelVectorNotInitialized
  else
    let n := mrows (m_RegressionVectors e) in
    rfold (λ Kx i, k <- deref (m_Kernel e);;
                   xi <- at_index (m_SampleVectors e) i;;
                   vec_write i (k_eval k x xi) Kx)
          (seq 0 n) (vec_resize n Kx).

Definition ComputeDifferenceMatrix e x (X : Matrix T) : result (Matrix T) :=
  let n := length (m_SampleVectors e) in
  let d := length x in
  rfold (λ X i, xi <- at_index (m_SampleVectors e) i;;
                diff <- vec_sub x xi;;
                mat_block_assign i 0 1 d (row_matrix diff) X)
        (seq 0 n) (resize n d X).

(** [(Kx.adjoint() * m_RegressionVectors).adjoint()] *)
Definition point_prediction e (Kx : Vector T) : result (Vector T) :=
  P <- mat_mul (row_matrix Kx) (m_RegressionVectors e);;
  vec_of_matrix (mat_transpose P).

Definition Predict x : method (GaussianProcess T) (Vector T) :=
  Initialize;;;
  call (λ e, CheckInputDimension e x "GaussianProcess::Predict: ");;;
  Kx <~ call (λ e, ComputeKernelVector e x []);;
  call (λ e, point_prediction e Kx).

(** [D.col(i) = -X.transpose() * Kx.cwiseProduct(m_RegressionVectors.col(i))] *)
Definition derivative_column e (X : Matrix T) (Kx : Vector T) (D : Matrix T) (i : nat)
    : result (Matrix T) :=
  Ri <- mat_get_col i (m_RegressionVectors e);;
  w <- cwiseProduct Kx Ri;;
  P <- mat_mul (mat_opp (mat_transpose X)) (col_matrix w);;
  if decide (i < mcols D) then mat_block_assign 0 i (mrows D) 1 P D else Undefined.

(** The value returned and the matrix left in the reference parameter [D]. *)
Definition PredictDerivative x (D : Matrix T) : method (GaussianProcess T) (Vector T * Matrix T) :=
  Initialize;;;
  call (λ e, CheckInputDimension e x "GaussianProcess::PredictDerivative: ");;;
  Kx <~ call (λ e, ComputeKernelVector e x []);;
  X <~ call (λ e, ComputeDifferenceMatrix e x mat_empty);;
  D' <~ call (λ e, rfold (derivative_column e X Kx) (seq 0 (m_OutputDimension e))
                     (resize (m_InputDimension e) (m_OutputDimension e) D));;
  p <~ call (λ e, point_prediction e Kx);;
  mret (p, D').

(** The kernel at [(x, y)] minus [Kx.adjoint() * m_CoreMatrix * Ky]. *)
Definition posterior_covariance e x y (Kx Ky : Vector T) : result T :=
  k <- deref (m_Kernel e);;
  KxC <- mat_mul (row_matrix Kx) (m_CoreMatrix e);;
  P <- mat_mul KxC (col_matrix Ky);;
  q <- scalar_of_matrix P;;
  Ok (s_sub (k_eval k x y) q).

(** [operator()(x, y)] *)
Definition operator_call x y : method (GaussianProcess T) T :=
  Initialize;;;
  call (λ e, CheckInputDimension e x "GaussianProcess::(): ");;;
  call (λ e, CheckInputDimension e y "GaussianProcess::(): ");;;
  Kx <~ call (λ e, ComputeKernelVector e x []);;
  Ky <~ call (λ e, ComputeKernelVector e y []);;
  call (λ e, posterior_covariance e x y Kx Ky).

Definition GetCredibleInterval x : method (GaussianProcess T) T :=
  Initialize;;;
  call (λ e, CheckInputDimension e x "GaussianProcess::GetCredibleIntervall: ");;;
  c <~ operator_call x x;;
  mret (s_mul s_two (s_sqrt (s_max s_zero c))).
End Engine.

(** ** Persistence and comparison *)

Section Persistence.
Context `{Scalar T} `{Eigen T} `{KernelLib T} `{MatrixIO T}.
Implicit Type e : GaussianProcess T.

(** The engine together with the file system it reads and writes. *)
Definition world : Type := GaussianProcess T * gmap string fs_node.

Definition assign_engine (f : GaussianProcess T → GaussianProcess T) : method world unit :=
  assign (λ w, (f w.1, w.2)).

(** [WriteMatrix<MatrixType>(M, filename)] *)
Definition WriteMatrix (M : GaussianProcess T → Matrix T) (filename : string) : method world unit :=
  assign (λ w, (w.1, write_file filename (WriteMatrix_text (M w.1)) w.2)).

(** The columns [X.block(0,i,d,1) = vectors[i]] of the matrix that [Save]
    writes for a list of vectors; [d] is the size of the first one. *)
Definition stack_columns (vectors : list (Vector T)) : result (Matrix T) :=
  v0 <- at_index vectors 0;;
  let d := length v0 in
  rfold (λ X i, vi <- at_index vectors i;;
                mat_block_assign 0 i d 1 (col_matrix vi) X)
        (seq 0 (length vectors)) (mat_zero d (length vectors)).

(** The line written to the parameter file. *)
Definition parameter_line e (k : Kernel T) : string :=
  let precision := digits10 + 1 in
  k_tag k +:+ " " +:+ print_unsigned (length (k_params k)) +:+ " "
  +:+ String.concat EmptyString ((λ p, s_print precision p +:+ " ") <$> k_params k)
  +:+ s_print precision (m_Sigma e) +:+ " "
  +:+ print_unsigned (m_InputDimension e) +:+ " "
  +:+ print_unsigned (m_OutputDimension e) +:+ " "
  +:+ print_bool (debug e).

Definition Save (prefix : string) : method world unit :=
  λ w,
    if negb (m_Initialized w.1) then Raise SaveNotInitialized w
    else
      (WriteMatrix m_RegressionVectors (prefix +:+ "-RegressionVectors.txt");;;
       WriteMatrix m_CoreMatrix (prefix +:+ "-CoreMatrix.txt");;;
       X <~ call (λ w, stack_columns (m_SampleVectors w.1));;
       WriteMatrix (λ _, X) (prefix +:+ "-SampleVectors.txt");;;
       Y <~ call (λ w, stack_columns (m_LabelVectors w.1));;
       WriteMatrix (λ _, Y) (prefix +:+ "-LabelVectors.txt");;;
       k <~ call (λ w, deref (m_Kernel w.1));;
       assign (λ w, (w.1, write_file (prefix +:+ "-ParameterFile.txt")
                            (parameter_line w.1 k) w.2))) w.

(** The existence test of [Load] followed by [ReadMatrix<MatrixType>]. *)
Definition read_matrix_file (filename : string) : method world (Matrix T) :=
  λ w,
    match is_regular_file w.2 filename with
    | Some content => Return (ReadMatrix_text content) w
    | None => Raise (FileMissing filename) w
    end.

(** The loop that reads [num_kernel_parameters] parameters: the parameters
    read, the stream state and the flag [load]. *)
Fixpoint read_kernel_parameters (num : nat) (st : option string) (acc : list T) (load : bool)
    : list T * option string * bool :=
  match num with
  | O => (acc, st, load)
  | S num' =>
      match st with
      | None => read_kernel_parameters num' None acc false
      | Some s =>
          match extract_scalar s with
          | Extracted param rest => read_kernel_parameters num' (Some rest) (acc ++ [param]) load
          | Failed _ => read_kernel_parameters num' None acc false
          end
      end
  end.

(** The part of [Load] that reads the parameter file: the kernel type and
    the kernel parameters; [m_Sigma], the dimensions and [debug] are
    assigned in the order in which the stream yields them. *)
Definition read_parameter_file (content : string) : method world (string * list T) :=
  λ w,
    match getline newline content with
    | None => Return (EmptyString, []) w
    | Some (line, _) =>
        let '(kernel_type, st1) := stream_get extract_string (Some line) EmptyString in
        let load1 := bool_decide (is_Some st1) in
        let '(num_kernel_parameters, st2) := stream_get extract_unsigned st1 0 in
        let load2 := load1 && bool_decide (is_Some st2) in
        let '(kernel_parameters, st3, load) :=
          read_kernel_parameters num_kernel_parameters st2 [] load2 in
        let '(sigma, st4) := stream_get extract_scalar st3 (m_Sigma w.1) in
        let w1 := (set_Sigma sigma w.1, w.2) in
        match st4 with
        | None => Raise ParameterFileCorrupt w1
        | Some _ =>
            let '(d_in, st5) := stream_get extract_unsigned st4 (m_InputDimension w.1) in
            let w2 := (set_InputDimension d_in w1.1, w.2) in
            match st5 with
            | None => Raise ParameterFileCorrupt w2
            | Some _ =>
                let '(d_out, st6) := stream_get extract_unsigned st5 (m_OutputDimension w.1) in
                let w3 := (set_OutputDimension d_out w2.1, w.2) in
                match st6 with
                | None => Raise ParameterFileCorrupt w3
                | Some _ =>
                    let '(dbg, st7) := stream_get extract_bool st6 (debug w.1) in
                    let w4 := (set_debug dbg w3.1, w.2) in
                    match st7 with
                    | None => Raise ParameterFileCorrupt w4
                    | Some _ =>
                        if negb load then Raise ParameterFileCorrupt w4
                        else Return (kernel_type, kernel_parameters) w4
                    end
                end
            end
        end
    end.

(** The three tokens of a composite kernel name; the first test of the
    source throws only if [getline] fails and the token differs from
    [SumKernel]. *)
Definition tokenize_summands (kernel_type : string) : result (string * string * string) :=
  let r0 := getline "#"%char kernel_type in
  let sumkernel := from_option fst EmptyString r0 in
  let ss1 := from_option snd EmptyString r0 in
  if negb (bool_decide (is_Some r0)) && negb (bool_decide (sumkernel = "SumKernel"))
  then Throw TokenizeFailed
  else
    match (if r0 is Some _ then getline "#"%char ss1 else None) with
    | None => Throw TokenizeFailed
    | Some (kernel1, ss2) =>
        match getline "#"%char ss2 with
        | None => Throw TokenizeFailed
        | Some (kernel2, _) => Ok (sumkernel, kernel1, kernel2)
        end
    end.

(** The part of [Load] that rebuilds the kernel from its type string. *)
Definition load_kernel (m_Map : gmap string (ComponentFactoryFuncPtr T))
    (kernel_type : string) (kernel_parameters : list T) : method world unit :=
  if decide (kernel_type = "GaussianKernel") then
    k <~ call (λ _, KernelFactory_Load m_Map kernel_type kernel_parameters);;
    assign_engine (set_Kernel (dynamic_pointer_cast "GaussianKernel" k))
  else if decide (kernel_type = "PeriodicKernel") then
    k <~ call (λ _, KernelFactory_Load m_Map kernel_type kernel_parameters);;
    assign_engine (set_Kernel (dynamic_pointer_cast "PeriodicKernel" k))
  else
    match String.index 0 "SumKernel" kernel_type with
    | Some found =>
        tokens <~ call (λ _, tokenize_summands kernel_type);;
        let '(sumkernel, kernel1, kernel2) := tokens in
        k <~ call (λ _, KernelFactory_Load m_Map sumkernel kernel_parameters);;
        assign_engine (set_Kernel (dynamic_pointer_cast "SumKernel" k))
    | None => λ w, Raise KernelNotRecognized w
    end.

(** [Load]; [m_Map] is the static map of the kernel factory. *)
Definition GaussianProcess_Load (m_Map : gmap string (ComponentFactoryFuncPtr T))
    (prefix : string) : method world unit :=
  R <~ read_matrix_file (prefix +:+ "-RegressionVectors.txt");;
  assign_engine (set_RegressionVectors R);;;
  C <~ read_matrix_file (prefix +:+ "-CoreMatrix.txt");;
  assign_engine (set_CoreMatrix C);;;
  X <~ read_matrix_file (prefix +:+ "-SampleVectors.txt");;
  assign_engine (set_SampleVectors (columns X));;;
  Y <~ read_matrix_file (prefix +:+ "-LabelVectors.txt");;
  assign_engine (set_LabelVectors (columns Y));;;
  content <~ (λ w, match is_regular_file w.2 (prefix +:+ "-ParameterFile.txt") with
                   | Some content => Return content w
                   | None => Raise (FileMissing (prefix +:+ "-ParameterFile.txt")) w
                   end);;
  parameters <~ read_parameter_file content;;
  load_kernel m_Map parameters.1 parameters.2;;;
  assign_engine (set_Initialized true).

(** [(A - B).norm() > 0] *)
Definition matrices_differ (A B : Matrix T) : result bool :=
  D <- mat_sub A B;; Ok (s_ltb s_zero (mat_norm D)).

Definition vectors_differ (u v : Vector T) : result bool :=
  d <- vec_sub u v;; Ok (s_ltb s_zero (vec_norm d)).

(** The loops of [operator==] over two lists of vectors of one length:
    [true] as soon as two vectors differ. *)
Fixpoint any_vectors_differ (us vs : list (Vector T)) (i n : nat) : result bool :=
  match n with
  | O => Ok false
  | S n' =>
      u <- at_index us i;;
      v <- at_index vs i;;
      d <- vectors_differ u v;;
      if d : bool then Ok true else any_vectors_differ us vs (S i) n'
  end.

(** [operator==] *)
Definition operator_eq (a b : GaussianProcess T) : result bool :=
  d <- matrices_differ (m_RegressionVectors a) (m_RegressionVectors b);;
  if d : bool then Ok false else
  d <- matrices_differ (m_CoreMatrix a) (m_CoreMatrix b);;
  if d : bool then Ok false else
  if decide (length (m_SampleVectors a) ≠ length (m_SampleVectors b)) then Ok false else
  d <- any_vectors_differ (m_SampleVectors a) (m_SampleVectors b) 0 (length (m_SampleVectors a));;
  if d : bool then Ok false else
  if decide (length (m_LabelVectors a) ≠ length (m_LabelVectors b)) then Ok false else
  d <- any_vectors_differ (m_LabelVectors a) (m_LabelVectors b) 0 (length (m_LabelVectors a));;
  if d : bool then Ok false else
  ka <- deref (m_Kernel a);;
  kb <- deref (m_Kernel b);;
  if kernel_neq ka kb then Ok false else
  if negb (s_eqb (m_Sigma a) (m_Sigma b)) then Ok false else
  if negb (eqb (m_Initialized a) (m_Initialized b)) then Ok false else
  if decide (m_InputDimension a ≠ m_InputDimension b) then Ok false else
  if decide (m_OutputDimension a ≠ m_OutputDimension b) then Ok false else
  if negb (eqb (debug a) (debug b)) then Ok false else
  Ok true.

(** [operator!=] *)
Definition operator_neq (a b : GaussianProcess T) : result bool :=
  r <- operator_eq a b;; Ok (negb r).
End Persistence.

(** ** The scalar types of the two instantiations: IEEE 754 binary formats *)

(** [spec_float] with the operations of the Standard Library's [SpecFloat]
    (round to nearest, ties to even). The text conversions follow the C++
    standard library: [operator<<] in the default float format is [printf]
    with [%.{p}g], correctly rounded in decimal; [operator>>] reads a decimal
    literal and rounds it correctly to the format. *)
Module IEEE.

Section Format.
Variables prec emax : Z.

Definition pow10 (k : Z) : Z := 10 ^ k.

(** The largest [X] with [10^X ≤ num/den], for positive [num] and [den];
    the estimate from the binary logarithms is at most one below it. *)
Definition decimal_exponent (num den : Z) : Z :=
  let L := (Z.log2 num - Z.log2 den)%Z in
  let X0 := ((L - 1) * 30103 / 100000 - 1)%Z in
  let fits X := if (0 <=? X)%Z then (den * pow10 X <=? num)%Z
                else (den <=? num * pow10 (- X))%Z in
  if fits (X0 + 3)%Z then (X0 + 3)%Z
  else if fits (X0 + 2)%Z then (X0 + 2)%Z
  else if fits (X0 + 1)%Z then (X0 + 1)%Z
  else X0.

(** [num/den] rounded to an integer, ties to even. *)
Definition round_half_even (num den : Z) : Z :=
  let q := (num / den)%Z in
  let r := (num mod den)%Z in
  match (2 * r ?= den)%Z with
  | Lt => q
  | Gt => (q + 1)%Z
  | Eq => if Z.even q then q else (q + 1)%Z
  end.

(** The [p] significant decimal digits of [num/den] and the decimal
    exponent of the first one. *)
Definition significant_digits (p : Z) (num den : Z) : Z * Z :=
  let X := decimal_exponent num den in
  let s := (p - 1 - X)%Z in
  let D := if (0 <=? s)%Z then round_half_even (num * pow10 s) den
           else round_half_even num (den * pow10 (- s)) in
  if (pow10 p <=? D)%Z then (pow10 (p - 1), (X + 1)%Z) else (D, X).

Definition digits_string (n : Z) : string := print_N (Z.to_N n).

Fixpoint strip_zeros_rev (l : list ascii) : list ascii :=
  match l with
  | c :: r => if decide (c = "0"%char) then strip_zeros_rev r else l
  | [] => []
  end.

(** A digit sequence without its trailing zeros. *)
Definition strip_trailing_zeros (s : string) : string :=
  String.string_of_list_ascii (rev (strip_zeros_rev (rev (String.list_ascii_of_string s)))).

Definition zeros (n : nat) : string := String.string_of_list_ascii (replicate n "0"%char).

(** A fraction part, with its point, or nothing when it is zero. *)
Definition fraction (digits : string) : string :=
  match strip_trailing_zeros digits with
  | EmptyString => EmptyString
  | f => "." +:+ f
  end.

Definition exponent_string (X : Z) : string :=
  let a := digits_string (Z.abs X) in
  (if (X <? 0)%Z then "e-" else "e+")
  +:+ (if (Z.abs X <? 10)%Z then "0" +:+ a else a).

(** [%.{p}g] of the positive number [num/den]. *)
Definition print_positive (p : nat) (num den : Z) : string :=
  let P := Z.of_nat (Nat.max p 1) in
  let '(D, X) := significant_digits P num den in
  let ds := digits_string D in
  if ((-4 <=? X) && (X <? P))%Z then
    if (0 <=? X)%Z then
      let k := S (Z.to_nat X) in
      String.string_of_list_ascii (take k (String.list_ascii_of_string ds))
      +:+ fraction (String.string_of_list_ascii (drop k (String.list_ascii_of_string ds)))
    else
      "0" +:+ fraction (zeros (Z.to_nat (- X - 1)) +:+ ds)
  else
    String.string_of_list_ascii (take 1 (String.list_ascii_of_string ds))
    +:+ fraction (String.string_of_list_ascii (drop 1 (String.list_ascii_of_string ds)))
    +:+ exponent_string X.

(** [stream << x] under [std::setprecision(p)]. *)
Definition print (p : nat) (x : spec_float) : string :=
  match x with
  | S754_zero s => if s then "-0" else "0"
  | S754_infinity s => if s then "-inf" else "inf"
  | S754_nan => "nan"
  | S754_finite s m e =>
      (if s then "-" else EmptyString)
      +:+ (if (0 <=? e)%Z then print_positive p (Z.pos m * 2 ^ e) 1
           else print_positive p (Z.pos m) (2 ^ (- e)))
  end.

(** The rational [num/den] (both positive) rounded to the format. *)
Definition round_rational (s : bool) (num den : Z) : spec_float :=
  let k := Z.max 0 (prec + 2 + Z.log2 den + 1 - Z.log2 num) in
  let n' := Z.shiftl num k in
  let q := (n' / den)%Z in
  let r := (n' mod den)%Z in
  binary_round_aux prec emax s q (- k) (new_location den r).

(** [std::numeric_limits<T>::max()] with the sign [s]. *)
Definition largest (s : bool) : spec_float :=
  match (2 ^ prec - 1)%Z with
  | Zpos m => S754_finite s m (emax - prec)
  | _ => S754_zero s
  end.

(** [stream >> x] on a text that does not start with white space. The
    characters of a number are taken from the head of the text: a sign,
    digits, one point with digits, and, once a digit has been seen, an
    exponent mark with a sign and digits. They are converted as [strtod]
    does, rounding correctly. The extraction fails and stores zero when the
    characters taken are not a complete literal (no digit in the mantissa,
    or an exponent mark without digits), and fails and stores the largest
    finite value with the sign when the literal overflows to an infinity.
    The literals [inf] and [nan] are not numbers for [operator>>]. *)
Definition get (text : string) : extraction spec_float :=
  let '(neg, s1) := read_sign text in
  let '(ip, ni, s2) := read_digits s1 0 0 in
  let '(fp, nf, s3) :=
    match s2 with
    | String c r => if decide (c = "."%char) then read_digits r ip 0 else (ip, 0, s2)
    | EmptyString => (ip, 0, s2)
    end in
  match ni + nf with
  | O => Failed (S754_zero false)
  | _ =>
      let '(ex, s4) :=
        match s3 with
        | String c r =>
            if decide (c = "e"%char ∨ c = "E"%char) then
              let '(eneg, r1) := read_sign r in
              let '(ev, ne, r2) := read_digits r1 0 0 in
              match ne with
              | O => (None, r2)
              | _ => (Some (if eneg then - Z.of_N ev else Z.of_N ev)%Z, r2)
              end
            else (Some 0%Z, s3)
        | EmptyString => (Some 0%Z, s3)
        end in
      match ex with
      | None => Failed (S754_zero false)
      | Some ex =>
          let m := Z.of_N fp in
          let e10 := (ex - Z.of_nat nf)%Z in
          let x := if (m =? 0)%Z then S754_zero neg
                   else if (0 <=? e10)%Z then round_rational neg (m * pow10 e10) 1
                   else round_rational neg m (pow10 (- e10)) in
          match x with
          | S754_infinity s => Failed (largest s)
          | _ => Extracted x s4
          end
      end
  end.

(** The value and the unread text of an extraction that succeeds. *)
Definition extract (text : string) : option (spec_float * string) :=
  match get text with
  | Extracted x rest => Some (x, rest)
  | Failed _ => None
  end.

(** The value of a decimal integer literal of the source. *)
Definition of_Z (z : Z) : spec_float :=
  match z with
  | Z0 => S754_zero false
  | Zpos p => binary_round prec emax false p 0
  | Zneg p => binary_round prec emax true p 0
  end.

Definition scalar (d10 : nat) : Scalar spec_float := {|
  s_zero := S754_zero false;
  s_two := of_Z 2;
  s_one := of_Z 1;
  s_add := SFadd prec emax;
  s_sub := SFsub prec emax;
  s_mul := SFmul prec emax;
  s_div := SFdiv prec emax;
  s_opp := SFopp;
  s_sqrt := SFsqrt prec emax;
  s_ltb := SFltb;
  s_eqb := SFeqb;
  digits10 := d10;
  s_print := print;
  s_extract := get;
|}.
End Format.

(** [double]: 53 bits of precision, [digits10] is 15. *)
Definition binary64 : Scalar spec_float := scalar 53 1024 15.

(** [float]: 24 bits of precision, [digits10] is 6. *)
Definition binary32 : Scalar spec_float := scalar 24 128 6.

(** The [double] nearest to a decimal literal of a test. *)
Definition double (literal : string) : spec_float :=
  match extract 53 1024 literal with
  | Some (x, _) => x
  | None => S754_nan
  end.
End IEEE.

(** ** The trained state in the words of the specification *)

(** [samples[i]], for an index in range. *)
Definition sample_at {T} (samples : list (Vector T)) (i : nat) : Vector T :=
  default [] (samples !! i).

(** The Gram matrix in the words of the specification: the kernel is
    evaluated at [(sample_i, sample_j)] for [i ≤ j] and the value is
    mirrored. *)
Definition gram {T} (k : Kernel T) (samples : list (Vector T)) (p q : nat) : T :=
  k_eval k (sample_at samples (p `min` q)) (sample_at samples (p `max` q)).

Definition GramMatrix {T} (k : Kernel T) (samples : list (Vector T)) : Matrix T :=
  mat_tabulate (length samples) (length samples) (gram k samples).

(** The Gram matrix with the noise added to its diagonal. *)
Definition RegularizedGramMatrix `{Scalar T} (k : Kernel T) (samples : list (Vector T))
    (sigma : T) : Matrix T :=
  mat_tabulate (length samples) (length samples)
    (λ p q, if decide (p = q) then s_add (gram k samples p q) sigma
            else gram k samples p q).

(** ** Frames and loop invariants *)

(** [m] relates every state it starts from to the state it ends in,
    whether it returns or throws. *)
Definition preserves {S A} (P : S → S → Prop) (m : method S A) : Prop :=
  ∀ s, match m s with
       | Return _ s' | Raise _ s' => P s s'
       | Stuck => True
       end.

(** The two worlds have the same engine. *)
Definition same_engine {T} (w w' : GaussianProcess T * gmap string fs_node) : Prop :=
  w'.1 = w.1.

(** The cells that the loops have written when the outer index is [i] and
    the inner index is [j]. *)
Definition cells_done {T} (k : Kernel T) (samples : list (Vector T)) (i j : nat) (M : Matrix T) : Prop :=
  mat_wf M ∧ mrows M = length samples ∧ mcols M = length samples ∧
  ∀ p q, p < length samples → q < length samples →
    p `min` q < i ∨ (p `min` q = i ∧ p `max` q < j) →
    coeff M p q = Some (gram k samples p q).

(** The diagonal cells that the loop of [add_noise] has updated when its
    index is [i]. *)
Definition noise_added `{Scalar T} (n : nat) (f : nat → nat → T) (sigma : T) (i : nat) (M : Matrix T) : Prop :=
  mat_wf M ∧ mrows M = n ∧ mcols M = n ∧
  ∀ p q, p < n → q < n →
    coeff M p q = Some (if decide (p = q ∧ p < i) then s_add (f p q) sigma else f p q).

(** The rows that the loop of [ComputeLabelMatrix] has written when its
    index is [i]. *)
Definition rows_stacked {T} (labels : list (Vector T)) (d i : nat) (M : Matrix T) : Prop :=
  mat_wf M ∧ mrows M = length labels ∧ mcols M = d ∧
  ∀ p, p < i → mdata M !! p = labels !! p.

(** The entries that the loop of [ComputeKernelVector] has written when
    its index is [i]. *)
Definition entries_written {T} (k : Kernel T) (samples : list (Vector T)) (x : Vector T)
    (i : nat) (Kx : Vector T) : Prop :=
  length Kx = length samples ∧
  ∀ p, p < i → Kx !! p = Some (k_eval k x (sample_at samples p)).

(** The dimensions of what the decompositions of Eigen return for a square
    matrix. *)
Class EigenDimensions `{Eigen T} : Prop := {
  inverse_dims (M : Matrix T) :
    mrows (inverse M) = mrows M ∧ mcols (inverse M) = mcols M;
  JacobiSVD_dims (M : Matrix T) :
    mrows M = mcols M →
    mrows (JacobiSVD_compute M).1.1 = mrows M ∧ mcols (JacobiSVD_compute M).1.1 = mrows M ∧
    length (JacobiSVD_compute M).1.2 = mrows M ∧
    mrows (JacobiSVD_compute M).2 = mrows M ∧ mcols (JacobiSVD_compute M).2 = mrows M;
  BDCSVD_dims (M : Matrix T) :
    mrows M = mcols M →
    mrows (BDCSVD_compute M).1.1 = mrows M ∧ mcols (BDCSVD_compute M).1.1 = mrows M ∧
    length (BDCSVD_compute M).1.2 = mrows M ∧
    mrows (BDCSVD_compute M).2 = mrows M ∧ mcols (BDCSVD_compute M).2 = mrows M;
  SelfAdjointEigenSolver_dims (M : Matrix T) :
    mrows M = mcols M →
    length (SelfAdjointEigenSolver_compute M).1 = mrows M ∧
    mrows (SelfAdjointEigenSolver_compute M).2 = mrows M ∧
    mcols (SelfAdjointEigenSolver_compute M).2 = mrows M;
}.

Section TrainedState.
Context `{Scalar T} `{Eigen T} `{KernelLib T} `{MatrixIO T}.
Implicit Type e : GaussianProcess T.

(** [C] and [R] are what a retrain computes from the samples, the labels,
    the kernel, the noise and the strategy of [e]. *)
Definition retrained e (C R : Matrix T) : Prop :=
  ∃ K0 K Y,
    ComputeKernelMatrix e mat_empty = Ok K0 ∧
    add_noise (m_Sigma e) K0 = Ok K ∧
    invert (m_InvMethod e) K = Ok C ∧
    ComputeLabelMatrix e mat_empty = Ok Y ∧
    mat_mul C Y = Ok R.

(** The cached matrices are consistent with the current samples, labels,
    kernel and noise. *)
Definition consistent e : Prop :=
  retrained e (m_CoreMatrix e) (m_RegressionVectors e).

(** The state that a successful retrain leaves. *)
Definition trained_state e (C R : Matrix T) : GaussianProcess T :=
  set_Initialized true (set_RegressionVectors R (set_CoreMatrix C e)).

(** The invariants of the data model (specification, section 3). *)
Definition engine_wf e : Prop :=
  is_Some (m_Kernel e) ∧
  length (m_SampleVectors e) = length (m_LabelVectors e) ∧
  Forall (λ x, length x = m_InputDimension e) (m_SampleVectors e) ∧
  Forall (λ y, length y = m_OutputDimension e) (m_LabelVectors e) ∧
  (m_Initialized e = true → consistent e).

(** The operations of the public interface that act on the engine alone. *)
Inductive operation :=
| OpAddSample (x y : Vector T)
| OpSetSigma (sigma : T)
| OpDebugOn
| OpInitialize
| OpPredict (x : Vector T)
| OpPredictDerivative (x : Vector T) (D : Matrix T)
| OpCall (x y : Vector T)
| OpGetCredibleInterval (x : Vector T).

(** The state in which a call ends, by a return or by an exception. *)
Definition final_state {S A} (o : outcome S A) : option S :=
  match o with
  | Return _ s | Raise _ s => Some s
  | Stuck => None
  end.

Definition run_op (op : operation) e : option (GaussianProcess T) :=
  match op with
  | OpAddSample x y => final_state (AddSample x y e)
  | OpSetSigma sigma => final_state (SetSigma sigma e)
  | OpDebugOn => final_state (DebugOn e)
  | OpInitialize => final_state (Initialize e)
  | OpPredict x => final_state (Predict x e)
  | OpPredictDerivative x D => final_state (PredictDerivative x D e)
  | OpCall x y => final_state (operator_call x y e)
  | OpGetCredibleInterval x => final_state (GetCredibleInterval x e)
  end.

(** [Initialize] itself and the queries, which start with a call of it. *)
Definition calls_Initialize (op : operation) : bool :=
  match op with
  | OpAddSample _ _ | OpSetSigma _ | OpDebugOn => false
  | _ => true
  end.

(** The engines that the constructor and the operations produce. *)
Inductive reachable : GaussianProcess T → Prop :=
| reachable_construct k : reachable (construct (Some k))
| reachable_step op e e' : reachable e → run_op op e = Some e' → reachable e'.

(** A call either leaves the engine as it was or retrains an untrained
    engine in full. *)
Definition unchanged_or_retrained e e' : Prop :=
  e' = e ∨
  (m_Initialized e = false ∧ ∃ C R, retrained e C R ∧ e' = trained_state e C R).
End TrainedState.

(** The kernel vector of [x] in the words of the specification:
    [Kx[i] = kernel.evaluate(x, sample_i)] for every sample. *)
Definition KernelVector {T} (k : Kernel T) (samples : list (Vector T)) (x : Vector T)
    : Vector T :=
  k_eval k x <$> samples.

(** [u^T · M]: entry [j] is the product of [u] with column [j] of [M]. *)
Definition vec_mat `{Scalar T} (u : Vector T) (M : Matrix T) : Vector T :=
  tabulate (mcols M) (λ j, dot u (mat_col j M)).

Section LoadStages.
Context `{MatrixIO T}.

(** The five companion files of [prefix] are regular files with the given
    contents. *)
Definition files_present (fs : gmap string fs_node) (prefix : string)
    (cR cC cX cY cP : string) : Prop :=
  is_regular_file fs (prefix +:+ "-RegressionVectors.txt") = Some cR ∧
  is_regular_file fs (prefix +:+ "-CoreMatrix.txt") = Some cC ∧
  is_regular_file fs (prefix +:+ "-SampleVectors.txt") = Some cX ∧
  is_regular_file fs (prefix +:+ "-LabelVectors.txt") = Some cY ∧
  is_regular_file fs (prefix +:+ "-ParameterFile.txt") = Some cP.

(** The engine after [Load] has read the four matrix files. *)
Definition matrices_loaded (cR cC cX cY : string) (e : GaussianProcess T)
    : GaussianProcess T :=
  set_LabelVectors (columns (ReadMatrix_text cY))
    (set_SampleVectors (columns (ReadMatrix_text cX))
       (set_CoreMatrix (ReadMatrix_text cC)
          (set_RegressionVectors (ReadMatrix_text cR) e))).
End LoadStages.

(** Whether the character [c] occurs in [s]. *)
Fixpoint contains (c : ascii) (s : string) : bool :=
  match s with
  | EmptyString => false
  | String a r => if decide (a = c) then true else contains c r
  end.

(** A kernel type tag resolves through the registry [m_Map], in the words
    of the specification (section 6, the kernel tag grammar): it is a
    registered name, or a composite tag [name#left#right] made of a
    registered name and of two tags that resolve. *)
Inductive resolves {T} (m_Map : gmap string (ComponentFactoryFuncPtr T)) : string → Prop :=
| resolves_name name :
    is_Some (m_Map !! name) → resolves m_Map name
| resolves_composite name left_tag right_tag :
    is_Some (m_Map !! name) → resolves m_Map left_tag → resolves m_Map right_tag →
    resolves m_Map (name +:+ "#" +:+ left_tag +:+ "#" +:+ right_tag).


(** ** Stand-ins for the external libraries, and test engines *)

(** Concrete libraries over [double] on which the statements below are
    exercised. They stand in for Eigen, [Kernel.h] and [MatrixIO.h]; no
    theorem about the engine depends on them. *)
Module Example.

#[local] Existing Instance IEEE.binary64.

Definition d (literal : string) : spec_float := IEEE.double literal.

(** [inverse] by the closed formulas for one and two rows; larger matrices
    are returned as they are. *)
Definition inverse_small (M : Matrix spec_float) : Matrix spec_float :=
  mkMatrix (mrows M) (mcols M)
    match mdata M with
    | [[a]] => [[s_div s_one a]]
    | [[a; b]; [c; e]] =>
        let det := s_sub (s_mul a e) (s_mul b c) in
        [[s_div e det; s_div (s_opp b) det]; [s_div (s_opp c) det; s_div a det]]
    | rows => rows
    end.

(** The diagonal of a matrix. *)
Definition diagonal (M : Matrix spec_float) : Vector spec_float :=
  tabulate (mrows M) (λ i, default s_zero (coeff M i i)).

(** A decomposition [U * diag(s) * V^T] with [U] and [V] the identity: it
    is one for a diagonal matrix. *)
Definition svd_diagonal (M : Matrix spec_float)
    : Matrix spec_float * Vector spec_float * Matrix spec_float :=
  (mat_identity (mrows M) (mrows M), diagonal M, mat_identity (mrows M) (mrows M)).

Definition eigen : Eigen spec_float := {|
  uninitialized := S754_nan;
  inverse := inverse_small;
  JacobiSVD_compute := svd_diagonal;
  BDCSVD_compute := svd_diagonal;
  SelfAdjointEigenSolver_compute M := (diagonal M, mat_identity (mrows M) (mrows M));
|}.
#[local] Existing Instance eigen.

(** A kernel function for the tests: [1 / (1 + |x - y|^2)]. *)
Definition inverse_quadratic (x y : Vector spec_float) : spec_float :=
  s_div s_one (s_add s_one (s_sum ((λ t, s_mul t t) <$> zip_with s_sub x y))).

Definition make_kernel (class : string) (parameters : list spec_float) : Kernel spec_float :=
  mkKernel class inverse_quadratic parameters class.

Fixpoint same_scalars (u v : list spec_float) : bool :=
  match u, v with
  | [], [] => true
  | a :: u', b :: v' => s_eqb a b && same_scalars u' v'
  | _, _ => false
  end.

Definition kernels : KernelLib spec_float := {|
  kernel_neq a b :=
    negb (String.eqb (k_tag a) (k_tag b) && same_scalars (k_params a) (k_params b));
  GaussianKernel_Load p := Ok (Some (make_kernel "GaussianKernel" p));
  PeriodicKernel_Load p := Ok (Some (make_kernel "PeriodicKernel" p));
  SumKernel_Load p := Ok (Some (make_kernel "SumKernel" p));
  ProductKernel_Load p := Ok (Some (make_kernel "ProductKernel" p));
|}.
#[local] Existing Instance kernels.

(** A matrix text: the two dimensions, then the coefficients row by row
    with 17 significant digits. *)
Definition write_matrix (M : Matrix spec_float) : string :=
  print_unsigned (mrows M) +:+ " " +:+ print_unsigned (mcols M)
  +:+ String.concat EmptyString ((λ v, " " +:+ IEEE.print 17 v) <$> concat (mdata M)).

Fixpoint read_scalars (n : nat) (st : option string) : list spec_float :=
  match n with
  | O => []
  | S n' =>
      let '(v, st') := stream_get extract_scalar st s_zero in
      v :: read_scalars n' st'
  end.

Fixpoint chunks {A} (r c : nat) (l : list A) : list (list A) :=
  match r with
  | O => []
  | S r' => take c l :: chunks r' c (drop c l)
  end.

Definition read_matrix (text : string) : Matrix spec_float :=
  let '(r, st1) := stream_get extract_unsigned (Some text) 0 in
  let '(c, st2) := stream_get extract_unsigned st1 0 in
  mkMatrix r c (chunks r c (read_scalars (r * c) st2)).

Definition matrix_io : MatrixIO spec_float := {|
  WriteMatrix_text := write_matrix;
  ReadMatrix_text := read_matrix;
|}.
#[local] Existing Instance matrix_io.

Definition gaussian : Kernel spec_float := make_kernel "GaussianKernel" [d "1"].

(** A new engine. *)
Definition fresh : GaussianProcess spec_float := construct (Some gaussian).

(** An engine with the two samples [0 ↦ 0] and [1 ↦ 1] and noise [0.01]. *)
Definition two_samples : GaussianProcess spec_float :=
  let e1 := after (AddSample [d "0"] [d "0"] fresh) fresh in
  let e2 := after (AddSample [d "1"] [d "1"] e1) e1 in
  after (SetSigma (d "0.01") e2) e2.

(** The same engine after [Initialize]. *)
Definition two_samples_trained : GaussianProcess spec_float :=
  after (Initialize two_samples) two_samples.

(** The trained engine after [SetSigma] with the noise it already has. *)
Definition noise_set_again : GaussianProcess spec_float :=
  after (SetSigma (m_Sigma two_samples_trained) two_samples_trained) two_samples_trained.

(** The kernel factory after [RegisterKernels]. *)
Definition registry : gmap string (ComponentFactoryFuncPtr spec_float) :=
  RegisterKernels ∅.

(** Five companion files under the prefix [m]; the parameter file declares
    the given kernel type, no kernel parameter, the noise [0.5], the
    dimensions 1 and 1 and the debug flag 1. *)
Definition companion_files (kernel_type : string) : gmap string fs_node :=
  <["m-RegressionVectors.txt" := RegularFile "1 1 2"]>
    (<["m-CoreMatrix.txt" := RegularFile "1 1 3"]>
      (<["m-SampleVectors.txt" := RegularFile "1 1 5"]>
        (<["m-LabelVectors.txt" := RegularFile "1 1 7"]>
          (<["m-ParameterFile.txt" := RegularFile (kernel_type +:+ " 0 0.5 1 1 1")]> ∅)))).

(** The engine that [Load] leaves when it is called on the trained engine
    and these files: the matrices, the sample and the label of the files,
    the noise, the dimensions and the debug flag of the parameter line. *)
Definition overwritten : GaussianProcess spec_float :=
  set_debug true
    (set_OutputDimension 1
       (set_InputDimension 1
          (set_Sigma (d "0.5")
             (matrices_loaded "1 1 2" "1 1 3" "1 1 5" "1 1 7" two_samples_trained)))).

(** A trained engine whose noise is the [double] sum [0.1 + 0.2], what
    [Save] leaves, and what [Load] into a new engine leaves. *)
Definition noisy : GaussianProcess spec_float :=
  after (SetSigma (s_add (d "0.1") (d "0.2")) two_samples) two_samples.

Definition noisy_trained : GaussianProcess spec_float :=
  after (Initialize noisy) noisy.

Definition noisy_saved : world (T:=spec_float) :=
  after (Save "m" (noisy_trained, ∅)) (noisy_trained, ∅).

Definition noisy_loaded : world (T:=spec_float) :=
  after (GaussianProcess_Load registry "m" (fresh, noisy_saved.2)) (fresh, noisy_saved.2).
End Example.

(** ** Definitions for the further properties *)

(** ** Failures of the queries *)

Section QueryFailure.
Context `{Scalar T} `{Eigen T} `{KernelLib T} `{MatrixIO T}.

(** How a query on [e] that reports its errors with [msg_prefix] fails:
    [Initialize] finds no sample or no label and the engine is as it was,
    or one of the inputs has not the size [m_InputDimension]. *)
Definition query_failure (msg_prefix : string) (inputs : list (Vector T))
    (e : GaussianProcess T) (ex : Exception) (e' : GaussianProcess T) : Prop :=
  (e' = e ∧ m_Initialized e = false ∧
   ((ex = NoInputSamples ∧ m_SampleVectors e = []) ∨
    (ex = NoOutputLabels ∧ m_SampleVectors e ≠ [] ∧ m_LabelVectors e = []))) ∨
  (unchanged_or_retrained e e' ∧ m_Initialized e' = true ∧
   ∃ x, x ∈ inputs ∧ length x ≠ m_InputDimension e ∧
        ex = InputDimensionError msg_prefix (length x) (m_InputDimension e)).
End QueryFailure.

(** ** Engines of any inversion strategy *)

Section Produced.
Context `{Scalar T} `{Eigen T} `{KernelLib T} `{MatrixIO T}.

(** The state that the constructor leaves in an engine whose inversion
    strategy is [strategy]: the constructor does not assign the member
    that the [switch] of [ComputeRegressionVectors] reads. *)
Definition construct_with (strategy : InversionMethod) (kernel : option (Kernel T))
    : GaussianProcess T :=
  mkGaussianProcess kernel s_zero [] [] mat_empty mat_empty false 0 0 false strategy.

(** The engines that [AddSample], [SetSigma], [DebugOn], [Initialize] and
    the four queries produce from the engine [e0]. [Load] is not among
    these operations. *)
Inductive produced (e0 : GaussianProcess T) : GaussianProcess T → Prop :=
| produced_start : produced e0 e0
| produced_step op e e' : produced e0 e → run_op op e = Some e' → produced e0 e'.
End Produced.

(** ** The call of the kernel factory in [Load] *)

Section FactoryCall.
Context `{Scalar T} `{Eigen T} `{KernelLib T} `{MatrixIO T}.

(** The name with which [Load] calls [KernelFactory::Load] for a kernel
    type: the kernel type itself, when it is one of the two atomic names,
    or its first token, when it contains [SumKernel] and is split into
    three tokens. *)
Definition factory_name (kernel_type name : string) : Prop :=
  (name = kernel_type ∧
   (kernel_type = "GaussianKernel" ∨ kernel_type = "PeriodicKernel")) ∨
  (kernel_type ≠ "GaussianKernel" ∧ kernel_type ≠ "PeriodicKernel" ∧
   is_Some (String.index 0 "SumKernel" kernel_type) ∧
   ∃ kernel1 kernel2, tokenize_summands kernel_type = Ok (name, kernel1, kernel2)).

(** [Load(prefix)], called in the world [w], reaches the call
    [KernelFactory::Load(name, parameters)] in the world [w1]: the five
    companion files are regular files and the parameter file has been read
    without an exception. *)
Definition reaches_factory (prefix : string) (w : world (T:=T)) (name : string)
    (parameters : list T) (w1 : world (T:=T)) : Prop :=
  ∃ cR cC cX cY cP kernel_type,
    files_present w.2 prefix cR cC cX cY cP ∧
    read_parameter_file cP (matrices_loaded cR cC cX cY w.1, w.2)
      = Return (kernel_type, parameters) w1 ∧
    factory_name kernel_type name.
End FactoryCall.

(** The outcome [o] with [f] applied to the state it ends in. *)
Definition map_state {S A} (f : S → S) (o : outcome S A) : outcome S A :=
  match o with
  | Return a s => Return a (f s)
  | Raise ex s => Raise ex (f s)
  | Stuck => Stuck
  end.

(** A client that calls [AddSample] for the pairs of a list, first to
    last, and stops at the first exception. *)
Fixpoint add_samples `{Scalar T} `{Eigen T} `{KernelLib T} `{MatrixIO T}
    (pairs : list (Vector T * Vector T)) : method (GaussianProcess T) unit :=
  match pairs with
  | [] => mret tt
  | (x, y) :: rest => AddSample x y;;; add_samples rest
  end.

(** ** The derivative of the prediction *)

(** The difference matrix of [x] in the words of its use: row [i] is
    [x − sample_i]. *)
Definition DifferenceMatrix `{Scalar T} (x : Vector T) (samples : list (Vector T))
    : Matrix T :=
  mkMatrix (length samples) (length x) ((λ s, zip_with s_sub x s) <$> samples).

(** [D[r][j] = Σ_i (−X[i][r]) · (Kx[i] · R[i][j])] *)
Definition DerivativeMatrix `{Scalar T} (X : Matrix T) (Kx : Vector T) (R : Matrix T)
    : Matrix T :=
  mat_tabulate (mcols X) (mcols R)
    (λ r j, dot (s_opp <$> mat_col r X) (zip_with s_mul Kx (mat_col j R))).

(** The matrices that the decompositions of Eigen return for a matrix
    store as many rows and columns as their dimensions say. *)
Class EigenWellFormed `{Eigen T} : Prop := {
  inverse_wf (M : Matrix T) : mat_wf M → mat_wf (inverse M);
  JacobiSVD_wf (M : Matrix T) :
    mat_wf M → mat_wf (JacobiSVD_compute M).1.1 ∧ mat_wf (JacobiSVD_compute M).2;
  BDCSVD_wf (M : Matrix T) :
    mat_wf M → mat_wf (BDCSVD_compute M).1.1 ∧ mat_wf (BDCSVD_compute M).2;
  SelfAdjointEigenSolver_wf (M : Matrix T) :
    mat_wf M → mat_wf (SelfAdjointEigenSolver_compute M).2;
}.

(** The names of the five companion files, after the prefix. *)
Definition companion_names : list string :=
  ["-RegressionVectors.txt"; "-CoreMatrix.txt"; "-SampleVectors.txt";
   "-LabelVectors.txt"; "-ParameterFile.txt"].

(** The names and the contents of the five files that [Save] writes for
    the engine [e] with the kernel [k], where [X] and [Y] hold the samples
    and the labels as columns. *)
Definition saved_files `{Scalar T} `{MatrixIO T} (e : GaussianProcess T) (k : Kernel T)
    (X Y : Matrix T) : list (string * string) :=
  [("-RegressionVectors.txt", WriteMatrix_text (m_RegressionVectors e));
   ("-CoreMatrix.txt", WriteMatrix_text (m_CoreMatrix e));
   ("-SampleVectors.txt", WriteMatrix_text X);
   ("-LabelVectors.txt", WriteMatrix_text Y);
   ("-ParameterFile.txt", parameter_line e k)].

(** ** Scalars whose text is read back *)

(** The text that [Save] prints for [x] is read back as [x] by the
    extraction of [Load], up to the blank that follows it, and holds no
    line break. *)
Definition reads_back `{Scalar T} (x : T) : Prop :=
  contains newline (s_print (digits10 + 1) x) = false ∧
  ∀ rest, extract_scalar (String " " (s_print (digits10 + 1) x +:+ String " " rest))
          = Extracted x (String " " rest).

(** Further test engines over the stand-in libraries. *)
Module MoreExamples.
#[local] Existing Instance IEEE.binary64.
#[local] Existing Instance Example.eigen.
#[local] Existing Instance Example.kernels.
#[local] Existing Instance Example.matrix_io.

(** A trained engine with the one sample [0 ↦ 1]. *)
Definition one_sample : GaussianProcess spec_float :=
  after (AddSample [Example.d "0"] [Example.d "1"] Example.fresh) Example.fresh.

Definition one_sample_trained : GaussianProcess spec_float :=
  after (Initialize one_sample) one_sample.

(** Four matrix files and an empty parameter file under the prefix [m]. *)
Definition empty_parameter_file : gmap string fs_node :=
  <["m-RegressionVectors.txt" := RegularFile "1 1 2"]>
    (<["m-CoreMatrix.txt" := RegularFile "1 1 3"]>
      (<["m-SampleVectors.txt" := RegularFile "1 1 5"]>
        (<["m-LabelVectors.txt" := RegularFile "1 1 7"]>
          (<["m-ParameterFile.txt" := RegularFile EmptyString]> ∅)))).

(** Files in which the regression coefficients have two rows and the
    sample matrix has one column, and the engine that [Load] leaves. *)
Definition mismatched_files : gmap string fs_node :=
  <["m-RegressionVectors.txt" := RegularFile "2 1 1 1"]>
    (<["m-CoreMatrix.txt" := RegularFile "1 1 3"]>
      (<["m-SampleVectors.txt" := RegularFile "1 1 5"]>
        (<["m-LabelVectors.txt" := RegularFile "1 1 7"]>
          (<["m-ParameterFile.txt" := RegularFile "GaussianKernel 0 0.5 1 1 0"]> ∅)))).

Definition mismatched_loaded : world (T:=spec_float) :=
  after (GaussianProcess_Load Example.registry "m" (Example.fresh, mismatched_files))
    (Example.fresh, mismatched_files).

(** An engine whose strategy is [JacobiSVD], with the one sample [0 ↦ 1],
    before and after [Initialize]. *)
Definition jacobi_one_sample : GaussianProcess spec_float :=
  let e0 := construct_with JacobiSVD (Some Example.gaussian) in
  after (AddSample [Example.d "0"] [Example.d "1"] e0) e0.

Definition jacobi_trained : GaussianProcess spec_float :=
  after (Initialize jacobi_one_sample) jacobi_one_sample.

(** The regression and the core file under the prefix [m], and a
    directory at the path of the sample file. *)
Definition sample_directory : gmap string fs_node :=
  <["m-RegressionVectors.txt" := RegularFile "1 1 2"]>
    (<["m-CoreMatrix.txt" := RegularFile "1 1 3"]>
      (<["m-SampleVectors.txt" := Directory]> ∅)).

(** Four matrix files under the prefix [m] and no parameter file: the
    directory of the prefix is there, the file is not. *)
Definition no_parameter_file : gmap string fs_node :=
  <["m-RegressionVectors.txt" := RegularFile "1 1 2"]>
    (<["m-CoreMatrix.txt" := RegularFile "1 1 3"]>
      (<["m-SampleVectors.txt" := RegularFile "1 1 5"]>
        (<["m-LabelVectors.txt" := RegularFile "1 1 7"]> ∅))).

(** Files whose label matrix has no column; the engine that [Load] leaves,
    and that engine after [SetSigma]. *)
Definition no_label_files : gmap string fs_node :=
  <["m-RegressionVectors.txt" := RegularFile "1 1 2"]>
    (<["m-CoreMatrix.txt" := RegularFile "1 1 3"]>
      (<["m-SampleVectors.txt" := RegularFile "1 1 5"]>
        (<["m-LabelVectors.txt" := RegularFile "1 0"]>
          (<["m-ParameterFile.txt" := RegularFile "GaussianKernel 0 0.5 1 1 0"]> ∅)))).

Definition no_label_loaded : GaussianProcess spec_float :=
  (after (GaussianProcess_Load Example.registry "m" (Example.fresh, no_label_files))
     (Example.fresh, no_label_files)).1.

Definition no_label_noise_set : GaussianProcess spec_float :=
  after (SetSigma (Example.d "0.5") no_label_loaded) no_label_loaded.

(** A file system in which the parameter file of the prefix [m] is there
    and cannot be opened for writing, and one in which it is there and can
    be written. *)
Definition read_only_parameter_file : gmap string fs_node :=
  <["m-ParameterFile.txt" := ReadOnlyFile "PeriodicKernel 0 0.5 1 1 1"]> ∅.

Definition stale_parameter_file : gmap string fs_node :=
  <["m-ParameterFile.txt" := RegularFile "PeriodicKernel 0 0.5 1 1 1"]> ∅.
End MoreExamples.

(** * Verification *)

(** ** Frame reasoning for member functions *)

Lemma preserves_bind {S A B} (P : S → S → Prop) (m : method S A) (f : A → method S B) :
  (∀ s, P s s) → (∀ s1 s2 s3, P s1 s2 → P s2 s3 → P s1 s3) →
  preserves P m → (∀ a, preserves P (f a)) → preserves P (mbind' m f).
Proof.
  intros Hrefl Htrans Hm Hf s. unfold mbind'.
  specialize (Hm s). destruct (m s) as [a s1|ex s1|]; [|done..].
  specialize (Hf a s1). destruct (f a s1); eauto.
Qed.

Lemma preserves_call {S A} (P : S → S → Prop) (f : S → result A) :
  (∀ s, P s s) → preserves P (call f).
Proof. intros Hrefl s. unfold call. destruct (f s); auto. Qed.

Lemma preserves_assign {S} (P : S → S → Prop) (f : S → S) :
  (∀ s, P s (f s)) → preserves P (assign f).
Proof. intros Hf s. apply Hf. Qed.

Lemma preserves_mret {S A} (P : S → S → Prop) (a : A) :
  (∀ s, P s s) → preserves P (mret a).
Proof. intros Hrefl s. apply Hrefl. Qed.

(** ** Matrices *)

Section MatrixLemmas.
Context {T : Type}.
Implicit Type M : Matrix T.

Lemma mat_wf_lookup M i :
  mat_wf M → i < mrows M → ∃ r, mdata M !! i = Some r ∧ length r = mcols M.
Proof.
  intros [Hlen Hrows] Hi.
  destruct (lookup_lt_is_Some_2 (mdata M) i) as [r Hr]; [lia|].
  exists r. split; [done|]. eapply Forall_lookup_1 in Hrows; done.
Qed.

Lemma coeff_is_Some M i j :
  mat_wf M → i < mrows M → j < mcols M → is_Some (coeff M i j).
Proof.
  intros Hwf Hi Hj. destruct (mat_wf_lookup M i Hwf Hi) as (r & Hr & Hlen).
  unfold coeff. rewrite Hr. simpl. apply lookup_lt_is_Some_2. lia.
Qed.

Lemma mat_set_wf M i j v : mat_wf M → mat_wf (mat_set i j v M).
Proof.
  intros [Hlen Hrows]. unfold mat_set, mat_wf. simpl.
  destruct (mdata M !! i) as [r|] eqn:Hr; [|done].
  rewrite length_insert. split; [done|].
  apply Forall_insert; [done|]. rewrite length_insert.
  eapply Forall_lookup_1 in Hrows; done.
Qed.

Lemma coeff_mat_set M i j v p q :
  mat_wf M → i < mrows M → j < mcols M →
  coeff (mat_set i j v M) p q = if decide (p = i ∧ q = j) then Some v else coeff M p q.
Proof.
  intros Hwf Hi Hj. destruct (mat_wf_lookup M i Hwf Hi) as (r & Hr & Hlen).
  unfold coeff, mat_set. simpl. rewrite Hr.
  destruct (decide (p = i)) as [->|Hp].
  - rewrite list_lookup_insert_eq by (by eapply lookup_lt_Some). simpl.
    destruct (decide (q = j)) as [->|Hq].
    + rewrite decide_True by done. apply list_lookup_insert_eq. lia.
    + rewrite decide_False by (intros [_ ?]; done).
      rewrite Hr. simpl. by apply list_lookup_insert_ne.
  - rewrite decide_False by (intros [? _]; done).
    by rewrite list_lookup_insert_ne.
Qed.

Lemma lookup_tabulate {A} n (f : nat → A) i :
  tabulate n f !! i = if decide (i < n) then Some (f i) else None.
Proof.
  unfold tabulate. rewrite list_lookup_fmap.
  case_decide.
  - by rewrite lookup_seq_lt.
  - by rewrite lookup_seq_ge by lia.
Qed.

Lemma length_tabulate {A} n (f : nat → A) : length (tabulate n f) = n.
Proof. unfold tabulate. by rewrite length_fmap, length_seq. Qed.

Lemma mat_tabulate_wf r c (f : nat → nat → T) : mat_wf (mat_tabulate r c f).
Proof.
  unfold mat_wf, mat_tabulate. simpl. split; [apply length_tabulate|].
  apply Forall_forall. intros row Hrow.
  unfold tabulate in Hrow at 1. apply list_elem_of_fmap in Hrow as (i & -> & _).
  apply length_tabulate.
Qed.

Lemma coeff_mat_tabulate r c (f : nat → nat → T) i j :
  i < r → j < c → coeff (mat_tabulate r c f) i j = Some (f i j).
Proof.
  intros Hi Hj. unfold coeff, mat_tabulate. simpl.
  rewrite lookup_tabulate, decide_True by done. simpl.
  by rewrite lookup_tabulate, decide_True.
Qed.

Lemma mat_fill_wf r c (v : T) : mat_wf (mat_fill r c v).
Proof.
  unfold mat_wf, mat_fill. simpl. split; [apply length_replicate|].
  apply Forall_replicate, length_replicate.
Qed.

(** Two matrices of the same dimensions with the same coefficients are
    equal. *)
Lemma mat_ext M N :
  mat_wf M → mat_wf N → mrows M = mrows N → mcols M = mcols N →
  (∀ i j, i < mrows M → j < mcols M → coeff M i j = coeff N i j) →
  M = N.
Proof.
  destruct M as [rM cM dM], N as [rN cN dN]. unfold mat_wf, coeff. simpl.
  intros [HlM HrM] [HlN HrN] <- <- Hc. f_equal.
  apply list_eq_same_length with rM; [done..|].
  intros i rowM rowN Hi HM HN.
  apply list_eq_same_length with cM.
  - eapply Forall_lookup_1 in HrN; done.
  - eapply Forall_lookup_1 in HrM; done.
  - intros j a b Hj Ha Hb. specialize (Hc i j Hi Hj).
    rewrite HM, HN in Hc. simpl in Hc. congruence.
Qed.
End MatrixLemmas.

(** ** [AddSample] *)

Section AddSampleProofs.
Context {T : Type}.
Implicit Type e : GaussianProcess T.
Implicit Types x y : Vector T.

Lemma AddSample_first e x y :
  m_SampleVectors e = [] → m_LabelVectors e = [] →
  AddSample x y e =
    Return tt (mkGaussianProcess (m_Kernel e) (m_Sigma e) [x] [y]
                 (m_RegressionVectors e) (m_CoreMatrix e) false
                 (length x) (length y) (debug e) (m_InvMethod e)).
Proof.
  destruct e; simpl. intros -> ->.
  unfold AddSample, mbind', assign, call, CheckInputDimension, CheckOutputDimension.
  simpl. rewrite !decide_False by (intros Hne; by apply Hne). done.
Qed.

Lemma AddSample_later e x y :
  m_SampleVectors e ≠ [] → m_LabelVectors e ≠ [] →
  AddSample x y e =
    if decide (length x ≠ m_InputDimension e)
    then Raise (InputDimensionError "GaussianProcess::AddSample: " (length x) (m_InputDimension e)) e
    else if decide (length y ≠ m_OutputDimension e)
    then Raise (OutputDimensionError "GaussianProcess::AddSample: " (length y) (m_OutputDimension e)) e
    else Return tt (set_Initialized false
                      (set_LabelVectors (m_LabelVectors e ++ [y])
                         (set_SampleVectors (m_SampleVectors e ++ [x]) e))).
Proof.
  destruct e as [k s [|x0 xs] [|y0 ys] R C i di do dbg im]; simpl; try done.
  intros _ _.
  unfold AddSample, mbind', assign, call, CheckInputDimension, CheckOutputDimension.
  simpl. repeat case_decide; done.
Qed.

(** Whatever the state, a call that returns has appended the pair and
    cleared the flag, and a call never gets stuck. *)
Lemma AddSample_accepted e x y e' r :
  AddSample x y e = Return r e' →
  m_SampleVectors e' = m_SampleVectors e ++ [x] ∧
  m_LabelVectors e' = m_LabelVectors e ++ [y] ∧
  m_Initialized e' = false ∧
  m_InputDimension e' = length x ∧ m_OutputDimension e' = length y ∧
  m_Kernel e' = m_Kernel e ∧ m_Sigma e' = m_Sigma e.
Proof.
  unfold AddSample, mbind', assign, call, CheckInputDimension, CheckOutputDimension.
  repeat case_decide; simpl in *; try done;
    intros [= _ <-]; simpl; repeat split; try done;
    repeat case_decide; simpl in *; by try lia.
Qed.

End AddSampleProofs.

(** ** Loops *)

Lemma rfold_seq_inv {A} (Q : nat → A → Prop) (body : A → nat → result A) start len a :
  Q start a →
  (∀ a i, start ≤ i < start + len → Q i a → ∃ a', body a i = Ok a' ∧ Q (S i) a') →
  ∃ a', rfold body (seq start len) a = Ok a' ∧ Q (start + len) a'.
Proof.
  revert start a. induction len as [|len IH]; intros start a HQ Hbody; simpl.
  - exists a. by rewrite Nat.add_0_r.
  - destruct (Hbody a start) as (a1 & -> & HQ1); [lia|done|]. simpl.
    destruct (IH (S start) a1) as (a2 & -> & HQ2); [done| |].
    + intros a' i Hi. apply Hbody. lia.
    + exists a2. split; [done|]. by replace (start + S len) with (S start + len) by lia.
Qed.

Lemma rfold_app {A I} (body : A → I → result A) l1 l2 a :
  rfold body (l1 ++ l2) a = rbind (rfold body l1 a) (rfold body l2).
Proof.
  revert a. induction l1 as [|i l1 IH]; intros a; simpl; [done|].
  destruct (body a i); simpl; auto.
Qed.

(** ** [Save] leaves the engine as it is *)

Section SaveProofs.
Context `{Scalar T} `{Eigen T} `{KernelLib T} `{MatrixIO T}.
Implicit Type e : GaussianProcess T.

Lemma same_engine_refl (w : world (T:=T)) : same_engine w w.
Proof. done. Qed.

Lemma same_engine_trans (w1 w2 w3 : world (T:=T)) :
  same_engine w1 w2 → same_engine w2 w3 → same_engine w1 w3.
Proof. unfold same_engine. congruence. Qed.

Lemma WriteMatrix_same_engine M filename : preserves same_engine (WriteMatrix M filename).
Proof. by apply preserves_assign. Qed.

Lemma Save_same_engine prefix : preserves same_engine (Save prefix).
Proof.
  intros w. unfold Save. destruct (negb (m_Initialized w.1)); [done|].
  revert w. change (preserves same_engine
    (WriteMatrix m_RegressionVectors (prefix +:+ "-RegressionVectors.txt");;;
     WriteMatrix m_CoreMatrix (prefix +:+ "-CoreMatrix.txt");;;
     X <~ call (λ w, stack_columns (m_SampleVectors w.1));;
     WriteMatrix (λ _, X) (prefix +:+ "-SampleVectors.txt");;;
     Y <~ call (λ w, stack_columns (m_LabelVectors w.1));;
     WriteMatrix (λ _, Y) (prefix +:+ "-LabelVectors.txt");;;
     k <~ call (λ w, deref (m_Kernel w.1));;
     assign (λ w, (w.1, write_file (prefix +:+ "-ParameterFile.txt")
                          (parameter_line w.1 k) w.2)))).
  repeat (first
    [ apply preserves_bind; [apply same_engine_refl|apply same_engine_trans| |intros ?]
    | apply WriteMatrix_same_engine
    | apply preserves_call, same_engine_refl
    | by apply preserves_assign ]).
Qed.

Lemma stack_columns_no_throw (vectors : list (Vector T)) ex :
  stack_columns vectors ≠ Throw ex.
Proof.
  unfold stack_columns, at_index.
  destruct (vectors !! 0) as [v0|]; simpl; [|done].
  generalize (mat_zero (length v0) (length vectors)).
  generalize (seq 0 (length vectors)).
  intros l. induction l as [|i l IH]; intros M; simpl; [done|].
  unfold mat_block_assign.
  destruct (vectors !! i); simpl; [|done]. case_decide; simpl; [apply IH|done].
Qed.

(** The only exception [Save] throws is the one of its first test, before
    anything is written. *)
Lemma Save_raise prefix w ex w' :
  Save prefix w = Raise ex w' →
  ex = SaveNotInitialized ∧ w' = w ∧ m_Initialized w.1 = false.
Proof.
  unfold Save. destruct (m_Initialized w.1) eqn:Hi; simpl.
  - unfold mbind', WriteMatrix, assign, call. simpl.
    destruct (stack_columns (m_SampleVectors w.1)) as [X|ex1|] eqn:HX; simpl; try done.
    + destruct (stack_columns (m_LabelVectors w.1)) as [Y|ex2|] eqn:HY; simpl; try done.
      * by destruct (m_Kernel w.1).
      * by apply stack_columns_no_throw in HY.
    + by apply stack_columns_no_throw in HX.
  - by intros [= <- <-].
Qed.
End SaveProofs.

Section SaveReturns.
Context `{Scalar T} `{Eigen T} `{KernelLib T} `{MatrixIO T}.
Implicit Type e : GaussianProcess T.

Lemma stack_columns_ok (vectors : list (Vector T)) d :
  vectors ≠ [] → Forall (λ v, length v = d) vectors →
  ∃ X, stack_columns vectors = Ok X ∧ mrows X = d ∧ mcols X = length vectors.
Proof.
  intros Hne Hall. unfold stack_columns.
  destruct vectors as [|v0 vs] eqn:Ev; [done|]. rewrite <- Ev in *.
  assert (at_index vectors 0 = Ok v0) as -> by (by rewrite Ev).
  assert (length v0 = d) as Hd.
  { rewrite Ev in Hall. by apply Forall_cons in Hall as [? _]. }
  simpl. rewrite Hd.
  destruct (rfold_seq_inv
    (λ _ X, mrows X = d ∧ mcols X = length vectors)
    (λ X i, vi <- at_index vectors i;; mat_block_assign 0 i d 1 (col_matrix vi) X)
    0 (length vectors) (mat_zero d (length vectors))) as (X & HX & HQ); [done| |by eauto].
  intros X i [_ Hi] [Hr Hc]. simpl in Hi.
  destruct (lookup_lt_is_Some_2 vectors i Hi) as [vi Hvi].
  unfold at_index. rewrite Hvi. simpl.
  assert (length vi = d) as Hvd.
  { eapply Forall_forall in Hall; [done|]. eapply list_elem_of_lookup_2; done. }
  unfold mat_block_assign. rewrite decide_True; [eauto|].
  simpl. lia.
Qed.

Lemma Save_returns prefix e fs dI dO k :
  m_Initialized e = true →
  m_SampleVectors e ≠ [] → Forall (λ v, length v = dI) (m_SampleVectors e) →
  m_LabelVectors e ≠ [] → Forall (λ v, length v = dO) (m_LabelVectors e) →
  m_Kernel e = Some k →
  ∃ fs', Save prefix (e, fs) = Return tt (e, fs').
Proof.
  intros Hi Hs HsR Hl HlR Hk.
  destruct (stack_columns_ok _ _ Hs HsR) as (X & HX & _).
  destruct (stack_columns_ok _ _ Hl HlR) as (Y & HY & _).
  unfold Save, mbind', WriteMatrix, assign, call. simpl.
  rewrite Hi. simpl. rewrite HX. simpl. rewrite HY. simpl. rewrite Hk. simpl. eauto.
Qed.
End SaveReturns.

(** C10. [Save] never modifies the engine: a call on an untrained engine
    throws the not-initialized exception (kind [UntrainedState]) and
    leaves engine and files as they are; any call that returns or throws
    leaves every member of the engine as it was; and on a trained engine
    whose samples and labels are not empty and of one size each, with a
    kernel, the call does return. *)
Theorem Save_does_not_modify_engine `{Scalar T} `{Eigen T} `{KernelLib T} `{MatrixIO T}
    (prefix : string) (e : GaussianProcess T) (fs : gmap string fs_node) :
  (m_Initialized e = false →
     Save prefix (e, fs) = Raise SaveNotInitialized (e, fs) ∧
     kind_of SaveNotInitialized = UntrainedState) ∧
  (∀ r w', Save prefix (e, fs) = Return r w' → w'.1 = e) ∧
  (∀ ex w', Save prefix (e, fs) = Raise ex w' →
     w' = (e, fs) ∧ ex = SaveNotInitialized ∧ m_Initialized e = false) ∧
  (∀ dI dO k,
     m_Initialized e = true →
     m_SampleVectors e ≠ [] → Forall (λ v, length v = dI) (m_SampleVectors e) →
     m_LabelVectors e ≠ [] → Forall (λ v, length v = dO) (m_LabelVectors e) →
     m_Kernel e = Some k →
     ∃ fs', Save prefix (e, fs) = Return tt (e, fs')).
Proof.
  split; [|split; [|split]].
  - intros Hi. unfold Save. simpl. by rewrite Hi.
  - intros r w' Hr. pose proof (Save_same_engine prefix (e, fs)) as Hp.
    by rewrite Hr in Hp.
  - intros ex w' Hr. by apply Save_raise in Hr as (-> & -> & ?).
  - intros. by eapply Save_returns.
Qed.


(** ** The Gram matrix *)

Section KernelMatrixProofs.
Context `{Eigen T}.
Implicit Type e : GaussianProcess T.
Implicit Type M : Matrix T.

Lemma at_index_sample_at (samples : list (Vector T)) i :
  i < length samples → at_index samples i = Ok (sample_at samples i).
Proof.
  intros Hi. unfold at_index, sample_at.
  destruct (lookup_lt_is_Some_2 samples i Hi) as [x Hx]. by rewrite Hx.
Qed.

Lemma resize_wf r c M : mat_wf M → mat_wf (resize r c M).
Proof. intros Hwf. unfold resize. case_decide; [done|apply mat_fill_wf]. Qed.

Lemma resize_dims r c M : mrows (resize r c M) = r ∧ mcols (resize r c M) = c.
Proof. unfold resize. case_decide; [done|]. done. Qed.

Lemma kernel_cell_step e k i j M :
  m_Kernel e = Some k → i ≤ j < length (m_SampleVectors e) →
  cells_done k (m_SampleVectors e) i j M →
  ∃ M', kernel_cell e i M j = Ok M' ∧ cells_done k (m_SampleVectors e) i (S j) M'.
Proof.
  intros Hk [Hij Hj] (Hwf & Hr & Hc & Hcells).
  unfold kernel_cell. rewrite Hk. simpl.
  rewrite !at_index_sample_at by lia. simpl.
  set (v := k_eval k _ _).
  unfold mat_write. rewrite decide_True by lia. simpl.
  rewrite decide_True by (simpl; lia).
  eexists. split; [done|].
  split; [by do 2 apply mat_set_wf|]. do 2 (split; [done|]).
  intros p q Hp Hq Hdone.
  rewrite coeff_mat_set; [|by apply mat_set_wf|simpl; lia..].
  rewrite coeff_mat_set by (done || lia).
  assert (v = gram k (m_SampleVectors e) i j) as Hv.
  { unfold gram, v. by rewrite Nat.min_l, Nat.max_r by lia. }
  case_decide as Hji.
  { destruct Hji as [-> ->]. f_equal. rewrite Hv. unfold gram.
    by rewrite (Nat.min_comm j i), (Nat.max_comm j i). }
  case_decide as Hij'.
  { destruct Hij' as [-> ->]. by f_equal. }
  apply Hcells; [done..|].
  destruct Hdone as [?|[Hmin Hmax]]; [by left|right].
  split; [done|]. lia.
Qed.

Lemma kernel_row e k i M :
  m_Kernel e = Some k → i < length (m_SampleVectors e) →
  cells_done k (m_SampleVectors e) i i M →
  ∃ M', rfold (kernel_cell e i) (seq i (length (m_SampleVectors e) - i)) M = Ok M' ∧
        cells_done k (m_SampleVectors e) (S i) (S i) M'.
Proof.
  intros Hk Hi HM.
  destruct (rfold_seq_inv (λ j M, cells_done k (m_SampleVectors e) i j M)
              (kernel_cell e i) i (length (m_SampleVectors e) - i) M)
    as (M' & HM' & Hwf & Hr & Hc & Hcells); [done| |].
  - intros M1 j Hj HM1. apply kernel_cell_step; [done|lia|done].
  - exists M'. split; [done|]. split; [done|]. do 2 (split; [done|]).
    intros p q Hp Hq Hdone. apply Hcells; [done..|]. lia.
Qed.

Lemma ComputeKernelMatrix_Gram e k M :
  m_Kernel e = Some k → mat_wf M →
  ComputeKernelMatrix e M = Ok (GramMatrix k (m_SampleVectors e)).
Proof.
  intros Hk Hwf. unfold ComputeKernelMatrix.
  destruct (rfold_seq_inv (λ i M, cells_done k (m_SampleVectors e) i i M)
              (λ M i, rfold (kernel_cell e i)
                        (seq i (length (m_SampleVectors e) - i)) M)
              0 (length (m_SampleVectors e))
              (resize (length (m_SampleVectors e)) (length (m_SampleVectors e)) M))
    as (K & -> & HKwf & Hr & Hc & Hcells).
  - split; [by apply resize_wf|]. split; [apply resize_dims|]. split; [apply resize_dims|].
    intros p q _ _ [?|[_ ?]]; lia.
  - intros M1 i Hi HM1. apply kernel_row; [done|lia|done].
  - f_equal. apply mat_ext; [done|apply mat_tabulate_wf|done..|].
    intros i j Hi Hj. rewrite Hr in Hi. rewrite Hc in Hj.
    rewrite Hcells by (done || lia).
    unfold GramMatrix. by rewrite coeff_mat_tabulate.
Qed.
End KernelMatrixProofs.

(** ** Noise and labels *)

Section RegressionProofs.
Context `{Scalar T} `{Eigen T}.
Implicit Type e : GaussianProcess T.
Implicit Type M : Matrix T.

Lemma mat_read_tabulate_like M i j v :
  coeff M i j = Some v → i < mrows M → j < mcols M → mat_read i j M = Ok v.
Proof.
  intros Hc Hi Hj. unfold mat_read. rewrite Hc. by rewrite decide_True.
Qed.

Lemma add_noise_tabulate n (f : nat → nat → T) sigma :
  add_noise sigma (mat_tabulate n n f) =
    Ok (mat_tabulate n n (λ p q, if decide (p = q) then s_add (f p q) sigma else f p q)).
Proof.
  unfold add_noise. simpl.
  destruct (rfold_seq_inv (noise_added n f sigma)
              (λ K i, v <- mat_read i i K;; mat_write i i (s_add v sigma) K)
              0 n (mat_tabulate n n f))
    as (K & -> & HKwf & Hr & Hc & Hcells).
  - split; [apply mat_tabulate_wf|]. do 2 (split; [done|]).
    intros p q Hp Hq. rewrite coeff_mat_tabulate by done.
    by rewrite decide_False by lia.
  - intros M i Hi (Hwf & Hr & Hc & Hcells).
    rewrite (mat_read_tabulate_like M i i (f i i)); [|rewrite Hcells by lia|lia..].
    2: { by rewrite decide_False by lia. }
    simpl. unfold mat_write. rewrite decide_True by lia.
    eexists. split; [done|]. split; [by apply mat_set_wf|]. do 2 (split; [done|]).
    intros p q Hp Hq. rewrite coeff_mat_set by (done || lia).
    rewrite Hcells by done.
    repeat case_decide; try done; try lia.
    destruct_and!. by subst.
  - f_equal. apply mat_ext; [done|apply mat_tabulate_wf|done..|].
    intros i j Hi Hj. rewrite Hr in Hi. rewrite Hc in Hj.
    rewrite Hcells, coeff_mat_tabulate by done.
    repeat case_decide; try done; lia.
Qed.

Lemma ComputeLabelMatrix_stack e Y d :
  m_LabelVectors e ≠ [] → Forall (λ y, length y = d) (m_LabelVectors e) → mat_wf Y →
  ComputeLabelMatrix e Y =
    Ok (mkMatrix (length (m_LabelVectors e)) d (m_LabelVectors e)).
Proof.
  intros Hne Hall Hwf. unfold ComputeLabelMatrix.
  destruct (m_LabelVectors e) as [|l0 ls] eqn:El; [done|]. rewrite <- El in *.
  rewrite decide_False by (rewrite El; simpl; lia).
  assert (at_index (m_LabelVectors e) 0 = Ok l0) as -> by (by rewrite El).
  assert (length l0 = d) as Hd.
  { rewrite El in Hall. by apply Forall_cons in Hall as [? _]. }
  simpl. rewrite Hd.
  destruct (rfold_seq_inv (rows_stacked (m_LabelVectors e) d)
              (λ Y i, li <- at_index (m_LabelVectors e) i;;
                      mat_block_assign i 0 1 d (row_matrix li) Y)
              0 (length (m_LabelVectors e)) (resize (length (m_LabelVectors e)) d Y))
    as (M & -> & [HMl HMr] & Hr & Hc & Hrows).
  - split; [by apply resize_wf|]. split; [apply resize_dims|]. split; [apply resize_dims|].
    intros p Hp. lia.
  - intros M i [_ Hi] ([HMl HMr] & Hr & Hc & Hrows). simpl in Hi.
    destruct (lookup_lt_is_Some_2 (m_LabelVectors e) i Hi) as [li Hli].
    unfold at_index. rewrite Hli. simpl.
    assert (length li = d) as Hlid by (eapply Forall_lookup_1 in Hall; done).
    unfold mat_block_assign. rewrite decide_True by (simpl; lia).
    eexists. split; [done|]. unfold rows_stacked, mat_wf. simpl.
    rewrite length_imap.
    assert (∀ p, imap (λ r row,
                   if decide (i ≤ r < i + 1)
                   then take 0 row ++ default [] ([li] !! (r - i)) ++ drop (0 + d) row
                   else row) (mdata M) !! p
                 = if decide (p = i) then Some li else mdata M !! p) as Hlook.
    { intros p. rewrite list_lookup_imap.
      destruct (mdata M !! p) as [row|] eqn:Hrow; simpl.
      - case_decide; case_decide; try lia; [|done]. subst p.
        rewrite Nat.sub_diag. simpl.
        rewrite drop_ge; [by rewrite app_nil_r|].
        eapply Forall_lookup_1 in HMr; [|done]. simpl in HMr. lia.
      - case_decide; [|done]. subst p.
        apply lookup_ge_None in Hrow. lia. }
    split; [split; [done|]|].
    + apply Forall_lookup_2. intros p row. rewrite Hlook.
      case_decide; [intros [= <-]; lia|]. intros Hrow.
      eapply Forall_lookup_1 in HMr; done.
    + do 2 (split; [done|]). intros p Hp. rewrite Hlook.
      case_decide; [by subst|]. apply Hrows. lia.
  - destruct M as [r c dM]. simpl in *. subst r c.
    assert (dM = m_LabelVectors e) as ->; [|done].
    apply list_eq. intros p. destruct (decide (p < length (m_LabelVectors e))).
    + by apply Hrows.
    + rewrite !lookup_ge_None_2; [done|lia..].
Qed.
End RegressionProofs.

(** ** [Initialize] *)

Section InitializeProofs.
Context `{Scalar T} `{Eigen T} `{KernelLib T} `{MatrixIO T}.
Implicit Type e : GaussianProcess T.

Lemma rfold_no_throw {A I} (body : A → I → result A) idx a ex :
  (∀ a i, body a i ≠ Throw ex) → rfold body idx a ≠ Throw ex.
Proof.
  intros Hbody. revert a. induction idx as [|i idx IH]; intros a; simpl; [done|].
  specialize (Hbody a i). destruct (body a i); simpl; [apply IH|done..].
Qed.

Lemma mat_mul_no_throw (A B : Matrix T) ex : mat_mul A B ≠ Throw ex.
Proof. unfold mat_mul. by case_decide. Qed.

Lemma ComputeKernelMatrix_no_throw e M ex : ComputeKernelMatrix e M ≠ Throw ex.
Proof.
  unfold ComputeKernelMatrix. apply rfold_no_throw. intros M1 i.
  apply rfold_no_throw. intros M2 j.
  unfold kernel_cell, deref, at_index, mat_write.
  repeat (first [case_decide | case_match]; simpl; try done).
Qed.

Lemma add_noise_no_throw sigma (K : Matrix T) ex : add_noise sigma K ≠ Throw ex.
Proof.
  unfold add_noise. apply rfold_no_throw. intros M i.
  unfold mat_read, mat_write.
  repeat (first [case_decide | case_match]; simpl; try done).
Qed.

Lemma pseudo_inverse_no_throw (U : Matrix T) s V ex : pseudo_inverse U s V ≠ Throw ex.
Proof.
  unfold pseudo_inverse, mat_mul.
  repeat (first [case_decide | case_match]; simpl; try done).
Qed.

Lemma invert_no_throw meth (K : Matrix T) ex : invert meth K ≠ Throw ex.
Proof.
  unfold invert. destruct meth; repeat case_match; try apply pseudo_inverse_no_throw.
  all: by case_decide.
Qed.

Lemma inversion_error_no_throw (K C : Matrix T) ex : inversion_error K C ≠ Throw ex.
Proof.
  unfold inversion_error, mat_mul, mat_sub.
  repeat (first [case_decide | case_match]; simpl; try done).
Qed.

Lemma ComputeLabelMatrix_throw e Y ex :
  ComputeLabelMatrix e Y = Throw ex → m_LabelVectors e = [].
Proof.
  unfold ComputeLabelMatrix. case_decide as Hn.
  - intros _. destruct (m_LabelVectors e); [done|]. simpl in Hn. lia.
  - unfold at_index. destruct (m_LabelVectors e !! 0); simpl; [|done].
    intros Hthrow. exfalso. revert Hthrow. apply rfold_no_throw.
    intros M i. unfold mat_block_assign.
    destruct (m_LabelVectors e !! i); simpl; [|done]. by case_decide.
Qed.

(** The computations of a retrain read the samples, the labels, the
    kernel, the noise and the strategy only. *)
Lemma retrained_frame e e' C R :
  m_Kernel e' = m_Kernel e → m_SampleVectors e' = m_SampleVectors e →
  m_LabelVectors e' = m_LabelVectors e → m_Sigma e' = m_Sigma e →
  m_InvMethod e' = m_InvMethod e →
  retrained e C R → retrained e' C R.
Proof.
  intros Hk Hs Hl Hsig Hm (K0 & K & Y & HK0 & HK & HC & HY & HR).
  exists K0, K, Y. rewrite Hsig, Hm. repeat split; try done.
  - rewrite <- HK0. unfold ComputeKernelMatrix, kernel_cell. by rewrite Hk, Hs.
  - rewrite <- HY. unfold ComputeLabelMatrix. by rewrite Hl.
Qed.

(** What [ComputeRegressionVectors] does when it returns, and that it
    throws only for an empty label list. *)
Lemma ComputeRegressionVectors_outcome e :
  match ComputeRegressionVectors e with
  | Return _ e' =>
      ∃ C R, retrained e C R ∧ e' = set_RegressionVectors R (set_CoreMatrix C e)
  | Raise _ _ => m_LabelVectors e = []
  | Stuck => True
  end.
Proof.
  unfold ComputeRegressionVectors, mbind', call, assign.
  destruct (ComputeKernelMatrix e mat_empty) as [K0|ex|] eqn:HK0;
    [|by apply ComputeKernelMatrix_no_throw in HK0|done].
  destruct (add_noise (m_Sigma e) K0) as [K|ex|] eqn:HK;
    [|by apply add_noise_no_throw in HK|done].
  destruct (invert (m_InvMethod e) K) as [C|ex|] eqn:HC;
    [|by apply invert_no_throw in HC|done].
  simpl.
  destruct (if debug e then inversion_error K C else Ok s_zero) as [err|ex|] eqn:Herr;
    [| |done].
  2: { destruct (debug e); [by apply inversion_error_no_throw in Herr|done]. }
  destruct (ComputeLabelMatrix (set_CoreMatrix C e) mat_empty) as [Y|ex|] eqn:HY;
    [|by apply ComputeLabelMatrix_throw in HY|done].
  destruct (mat_mul C Y) as [R|ex|] eqn:HR; simpl; rewrite HR;
    [|by apply mat_mul_no_throw in HR|done].
  exists C, R. split; [|done]. by exists K0, K, Y.
Qed.

Lemma Initialize_outcome e :
  match Initialize e with
  | Return _ e' =>
      (m_Initialized e = true ∧ e' = e) ∨
      (m_Initialized e = false ∧ ∃ C R, retrained e C R ∧ e' = trained_state e C R)
  | Raise ex e' =>
      e' = e ∧ m_Initialized e = false ∧
      ((ex = NoInputSamples ∧ m_SampleVectors e = []) ∨
       (ex = NoOutputLabels ∧ m_SampleVectors e ≠ [] ∧ m_LabelVectors e = []))
  | Stuck => m_Initialized e = false
  end.
Proof.
  unfold Initialize. destruct (m_Initialized e) eqn:Hi; [by left|].
  case_decide as Hs.
  { split; [done|]. split; [done|]. left. split; [done|].
    destruct (m_SampleVectors e); [done|]. simpl in Hs. lia. }
  case_decide as Hl.
  { split; [done|]. split; [done|]. right. split; [done|]. split.
    - intros Hnil. rewrite Hnil in Hs. simpl in Hs. lia.
    - destruct (m_LabelVectors e); [done|]. simpl in Hl. lia. }
  unfold mbind'. pose proof (ComputeRegressionVectors_outcome e) as Hcr.
  destruct (ComputeRegressionVectors e) as [[] e1|ex e1|]; [| |done].
  - destruct Hcr as (C & R & Hret & ->). right. split; [done|]. by exists C, R.
  - rewrite Hcr in Hl. simpl in Hl. lia.
Qed.
End InitializeProofs.

(** ** A retrain on a well-formed engine *)

Section RetrainProofs.
Context `{Scalar T} `{Eigen T} `{KernelLib T} `{MatrixIO T}.
Context {ED : EigenDimensions}.
Implicit Type e : GaussianProcess T.

Lemma pseudo_inverse_dims (U : Matrix T) s V n :
  mrows U = n → mcols U = n → length s = n → mrows V = n → mcols V = n →
  ∃ C, pseudo_inverse U s V = Ok C ∧ mrows C = n ∧ mcols C = n.
Proof.
  intros HUr HUc Hs HVr HVc. unfold pseudo_inverse, mat_mul, asDiagonal, reciprocal.
  simpl. rewrite length_fmap.
  rewrite decide_True by lia. simpl. rewrite decide_True by lia.
  eexists. split; [done|]. simpl. lia.
Qed.

Lemma invert_dims meth (K : Matrix T) :
  mrows K = mcols K →
  ∃ C, invert meth K = Ok C ∧ mrows C = mrows K ∧ mcols C = mrows K.
Proof.
  intros Hsq. unfold invert. destruct meth.
  - rewrite decide_True by done. eexists. split; [done|].
    destruct (inverse_dims K) as [-> ->]. by rewrite Hsq.
  - pose proof (JacobiSVD_dims K Hsq) as (? & ? & ? & ? & ?).
    destruct (JacobiSVD_compute K) as [[U s] V]. by apply pseudo_inverse_dims.
  - pose proof (BDCSVD_dims K Hsq) as (? & ? & ? & ? & ?).
    destruct (BDCSVD_compute K) as [[U s] V]. by apply pseudo_inverse_dims.
  - pose proof (SelfAdjointEigenSolver_dims K Hsq) as (? & ? & ?).
    destruct (SelfAdjointEigenSolver_compute K) as [values vectors].
    apply pseudo_inverse_dims; simpl in *; try done. by rewrite length_reverse.
Qed.

Lemma mat_empty_wf : mat_wf (@mat_empty T).
Proof. by split. Qed.

(** On an engine that satisfies the invariants and has a sample, a retrain
    succeeds; its matrices have the dimensions of the data. *)
Lemma retrained_exists e k :
  m_Kernel e = Some k →
  m_SampleVectors e ≠ [] →
  length (m_SampleVectors e) = length (m_LabelVectors e) →
  Forall (λ y, length y = m_OutputDimension e) (m_LabelVectors e) →
  ∃ C R,
    invert (m_InvMethod e)
      (RegularizedGramMatrix k (m_SampleVectors e) (m_Sigma e)) = Ok C ∧
    mat_mul C (mkMatrix (length (m_LabelVectors e)) (m_OutputDimension e)
                 (m_LabelVectors e)) = Ok R ∧
    retrained e C R ∧
    mrows C = length (m_SampleVectors e) ∧ mcols C = length (m_SampleVectors e) ∧
    mrows R = length (m_SampleVectors e) ∧ mcols R = m_OutputDimension e.
Proof.
  intros Hk Hs Hlen Hall.
  assert (m_LabelVectors e ≠ []) as Hl.
  { intros Hnil. rewrite Hnil in Hlen. by destruct (m_SampleVectors e). }
  destruct (invert_dims (m_InvMethod e)
              (RegularizedGramMatrix k (m_SampleVectors e) (m_Sigma e)))
    as (C & HC & HCr & HCc); [done|]. simpl in HCr, HCc.
  assert (mat_mul C (mkMatrix (length (m_LabelVectors e)) (m_OutputDimension e)
                       (m_LabelVectors e))
          = Ok (mkMatrix (mrows C) (m_OutputDimension e)
                  ((λ r, tabulate (m_OutputDimension e)
                           (λ j, dot r (mat_col j (mkMatrix (length (m_LabelVectors e))
                                                    (m_OutputDimension e)
                                                    (m_LabelVectors e)))))
                   <$> mdata C))) as HR.
  { unfold mat_mul. simpl. by rewrite decide_True by lia. }
  eexists C, _. split; [done|]. split; [exact HR|]. split; [|by simpl].
  exists (GramMatrix k (m_SampleVectors e)),
         (RegularizedGramMatrix k (m_SampleVectors e) (m_Sigma e)),
         (mkMatrix (length (m_LabelVectors e)) (m_OutputDimension e) (m_LabelVectors e)).
  split; [by apply ComputeKernelMatrix_Gram, mat_empty_wf|].
  split; [apply add_noise_tabulate|]. split; [done|].
  split; [by apply ComputeLabelMatrix_stack, mat_empty_wf|done].
Qed.

(** A retrain is a function of the state. *)
Lemma retrained_unique e C R C' R' :
  retrained e C R → retrained e C' R' → C' = C ∧ R' = R.
Proof.
  intros (K0 & K & Y & HK0 & HK & HC & HY & HR) (K0' & K' & Y' & HK0' & HK' & HC' & HY' & HR').
  rewrite HK0 in HK0'. injection HK0' as <-.
  rewrite HK in HK'. injection HK' as <-.
  rewrite HC in HC'. injection HC' as <-.
  rewrite HY in HY'. injection HY' as <-.
  rewrite HR in HR'. by injection HR' as <-.
Qed.

Lemma consistent_dims e :
  engine_wf e → m_SampleVectors e ≠ [] → m_Initialized e = true →
  mrows (m_CoreMatrix e) = length (m_SampleVectors e) ∧
  mcols (m_CoreMatrix e) = length (m_SampleVectors e) ∧
  mrows (m_RegressionVectors e) = length (m_SampleVectors e) ∧
  mcols (m_RegressionVectors e) = m_OutputDimension e.
Proof.
  intros ([k Hk] & Hlen & _ & Hall & Hcons) Hs Hi.
  destruct (retrained_exists e k Hk Hs Hlen Hall) as (C & R & _ & _ & Hret & Hdims).
  destruct (retrained_unique e _ _ _ _ Hret (Hcons Hi)) as [-> ->]. done.
Qed.

(** In debug mode the inversion error is computed without a failed
    assertion. *)
Lemma inversion_error_ok (K C : Matrix T) n :
  mrows K = n → mcols K = n → mrows C = n → mcols C = n →
  ∃ err, inversion_error K C = Ok err.
Proof.
  intros HKr HKc HCr HCc. unfold inversion_error, mat_mul, mat_sub. simpl.
  rewrite decide_True by lia. simpl. rewrite decide_True by (simpl; lia). simpl. eauto.
Qed.

Lemma Initialize_retrains e k :
  m_Initialized e = false →
  m_Kernel e = Some k →
  m_SampleVectors e ≠ [] →
  length (m_SampleVectors e) = length (m_LabelVectors e) →
  Forall (λ y, length y = m_OutputDimension e) (m_LabelVectors e) →
  ∃ C R,
    Initialize e = Return tt (trained_state e C R) ∧
    invert (m_InvMethod e)
      (RegularizedGramMatrix k (m_SampleVectors e) (m_Sigma e)) = Ok C ∧
    mat_mul C (mkMatrix (length (m_LabelVectors e)) (m_OutputDimension e)
                 (m_LabelVectors e)) = Ok R ∧
    retrained e C R.
Proof.
  intros Hi Hk Hs Hlen Hall.
  destruct (retrained_exists e k Hk Hs Hlen Hall)
    as (C & R & HC & HR & Hret & HCr & HCc & _).
  exists C, R. split; [|done].
  assert (m_LabelVectors e ≠ []) as Hl.
  { intros Hnil. rewrite Hnil in Hlen. by destruct (m_SampleVectors e). }
  unfold Initialize. rewrite Hi.
  rewrite !decide_False.
  2: { destruct (m_LabelVectors e); [done|]. simpl. lia. }
  2: { destruct (m_SampleVectors e); [done|]. simpl. lia. }
  unfold mbind', ComputeRegressionVectors, mbind', call, assign.
  rewrite (ComputeKernelMatrix_Gram e k) by (done || apply mat_empty_wf).
  unfold GramMatrix. rewrite add_noise_tabulate.
  fold (RegularizedGramMatrix k (m_SampleVectors e) (m_Sigma e)). rewrite HC. simpl.
  destruct (inversion_error_ok
              (RegularizedGramMatrix k (m_SampleVectors e) (m_Sigma e)) C
              (length (m_SampleVectors e))) as [err Herr]; [done..|].
  rewrite Herr. destruct (debug e); simpl.
  all: rewrite (ComputeLabelMatrix_stack _ _ (m_OutputDimension e))
         by (done || apply mat_empty_wf); simpl; rewrite HR; done.
Qed.
End RetrainProofs.

(** ** The invariants along the operations *)

Section QueryProofs.
Context `{Scalar T} `{Eigen T} `{KernelLib T} `{MatrixIO T}.
Implicit Type e : GaussianProcess T.

Lemma unchanged_or_retrained_refl e : unchanged_or_retrained e e.
Proof. by left. Qed.

Lemma unchanged_or_retrained_trans e1 e2 e3 :
  unchanged_or_retrained e1 e2 → unchanged_or_retrained e2 e3 →
  unchanged_or_retrained e1 e3.
Proof.
  intros [->|(Hi & C & R & Hret & ->)]; [done|].
  intros [->|(Hi' & _)]; [|done].
  right. split; [done|]. by exists C, R.
Qed.

Lemma Initialize_unchanged_or_retrained :
  preserves unchanged_or_retrained Initialize.
Proof.
  intros e. pose proof (Initialize_outcome e) as Ho.
  destruct (Initialize e) as [r e'|ex e'|]; [| |done].
  - destruct Ho as [[_ ->]|Ho]; [by left|by right].
  - destruct Ho as (-> & _). by left.
Qed.

Ltac query_preserves :=
  repeat (first
    [ apply preserves_bind;
        [apply unchanged_or_retrained_refl|apply unchanged_or_retrained_trans| |intros ?]
    | apply Initialize_unchanged_or_retrained
    | apply preserves_call, unchanged_or_retrained_refl
    | apply preserves_mret, unchanged_or_retrained_refl ]).

Lemma Predict_unchanged_or_retrained x :
  preserves unchanged_or_retrained (Predict x).
Proof. unfold Predict. query_preserves. Qed.

Lemma PredictDerivative_unchanged_or_retrained x D :
  preserves unchanged_or_retrained (PredictDerivative x D).
Proof. unfold PredictDerivative. query_preserves. Qed.

Lemma operator_call_unchanged_or_retrained x y :
  preserves unchanged_or_retrained (operator_call x y).
Proof. unfold operator_call. query_preserves. Qed.

Lemma GetCredibleInterval_unchanged_or_retrained x :
  preserves unchanged_or_retrained (GetCredibleInterval x).
Proof.
  unfold GetCredibleInterval, operator_call. query_preserves.
Qed.

(** The operations that call [Initialize] leave the engine as it was or
    retrained. *)
Lemma run_op_calls_Initialize op e e' :
  calls_Initialize op = true → run_op op e = Some e' → unchanged_or_retrained e e'.
Proof.
  intros Hop Hrun. destruct op; try done; simpl in Hrun.
  - pose proof (Initialize_unchanged_or_retrained e) as Hp.
    destruct (Initialize e); simplify_eq/=; done.
  - pose proof (Predict_unchanged_or_retrained x e) as Hp.
    destruct (Predict x e); simplify_eq/=; done.
  - pose proof (PredictDerivative_unchanged_or_retrained x D e) as Hp.
    destruct (PredictDerivative x D e); simplify_eq/=; done.
  - pose proof (operator_call_unchanged_or_retrained x y e) as Hp.
    destruct (operator_call x y e); simplify_eq/=; done.
  - pose proof (GetCredibleInterval_unchanged_or_retrained x e) as Hp.
    destruct (GetCredibleInterval x e); simplify_eq/=; done.
Qed.

Lemma engine_wf_unchanged_or_retrained e e' :
  engine_wf e → unchanged_or_retrained e e' → engine_wf e'.
Proof.
  intros Hwf [->|(Hi & C & R & Hret & ->)]; [done|].
  destruct Hwf as (Hk & Hlen & Hs & Hl & _).
  split; [done|]. split; [done|]. split; [done|]. split; [done|].
  intros _. unfold consistent. simpl. by eapply retrained_frame; [..|exact Hret].
Qed.

Lemma engine_wf_construct k : engine_wf (construct (Some k)).
Proof. unfold engine_wf. simpl. by repeat split; eauto. Qed.

Lemma engine_wf_AddSample e x y :
  engine_wf e →
  match AddSample x y e with
  | Return _ e' => engine_wf e'
  | Raise _ e' => e' = e
  | Stuck => False
  end.
Proof.
  intros (Hk & Hlen & Hs & Hl & Hc).
  destruct (m_SampleVectors e) as [|x0 xs] eqn:Es.
  - destruct (m_LabelVectors e) as [|y0 ys] eqn:El; [|done].
    rewrite AddSample_first by done.
    unfold engine_wf. simpl. repeat split; try done; try by repeat constructor.
  - destruct (m_LabelVectors e) as [|y0 ys] eqn:El; [done|].
    rewrite AddSample_later by (by rewrite ?Es, ?El).
    repeat case_decide; try done.
    unfold engine_wf. simpl. rewrite Es, El.
    split; [done|]. split; [by rewrite !length_app, Hlen|].
    split; [apply Forall_app; split; [done|]; repeat constructor; lia|].
    split; [apply Forall_app; split; [done|]; repeat constructor; lia|done].
Qed.

Lemma engine_wf_run_op op e e' : engine_wf e → run_op op e = Some e' → engine_wf e'.
Proof.
  intros Hwf Hrun. destruct (calls_Initialize op) eqn:Hop.
  - eapply engine_wf_unchanged_or_retrained; [done|]. by eapply run_op_calls_Initialize.
  - destruct op; try done; simpl in Hrun.
    + pose proof (engine_wf_AddSample e x y Hwf) as Ha.
      destruct (AddSample x y e); simplify_eq/=; done.
    + injection Hrun as <-. destruct Hwf as (? & ? & ? & ? & _). by repeat split.
    + injection Hrun as <-. destruct Hwf as (? & ? & ? & ? & Hc).
      by repeat split.
Qed.

(** Every engine that the constructor and the operations produce satisfies
    the invariants. *)
Lemma reachable_engine_wf e : reachable e → engine_wf e.
Proof.
  induction 1 as [k|op e e' _ IH Hrun]; [apply engine_wf_construct|].
  by eapply engine_wf_run_op.
Qed.
End QueryProofs.

(** ** Kernel vectors and the two products of a query *)

Section KernelVectorProofs.
Context `{Scalar T} `{Eigen T}.
Implicit Type e : GaussianProcess T.

Lemma ComputeKernelVector_spec e k x Kx0 :
  m_Initialized e = true → m_Kernel e = Some k →
  mrows (m_RegressionVectors e) = length (m_SampleVectors e) →
  ComputeKernelVector e x Kx0 = Ok (KernelVector k (m_SampleVectors e) x).
Proof.
  intros Hi Hk Hrows. unfold ComputeKernelVector. rewrite Hi, Hrows. simpl.
  destruct (rfold_seq_inv (entries_written k (m_SampleVectors e) x)
              (λ Kx i, k <- deref (m_Kernel e);;
                       xi <- at_index (m_SampleVectors e) i;;
                       vec_write i (k_eval k x xi) Kx)
              0 (length (m_SampleVectors e))
              (vec_resize (length (m_SampleVectors e)) Kx0))
    as (Kx & -> & Hlen & Hent).
  - split; [|intros p Hp; lia]. unfold vec_resize.
    case_decide; [done|apply length_replicate].
  - intros Kx i [_ Hi'] [Hlen Hent]. simpl in Hi'. rewrite Hk. simpl.
    rewrite at_index_sample_at by done. simpl.
    unfold vec_write. rewrite decide_True by lia.
    eexists. split; [done|]. split; [by rewrite length_insert|].
    intros p Hp. destruct (decide (p = i)) as [->|Hne].
    + apply list_lookup_insert_eq. lia.
    + rewrite list_lookup_insert_ne by done. apply Hent. lia.
  - f_equal. unfold KernelVector. apply list_eq. intros p.
    rewrite list_lookup_fmap.
    destruct (decide (p < length (m_SampleVectors e))) as [Hp|Hp].
    + rewrite Hent by done. unfold sample_at.
      by destruct (lookup_lt_is_Some_2 _ _ Hp) as [s ->].
    + rewrite !lookup_ge_None_2; [done|lia..].
Qed.

Lemma length_KernelVector (k : Kernel T) samples x :
  length (KernelVector k samples x) = length samples.
Proof. apply length_fmap. Qed.

Lemma mat_col_singleton_rows_from (pre row : list T) :
  omap (λ r : list T, r !! 0)
    ((λ j, omap (λ r : list T, r !! j) [pre ++ row]) <$> seq (length pre) (length row))
  = row.
Proof.
  revert pre. induction row as [|a row IH]; intros pre; [done|].
  simpl. rewrite list_lookup_middle by done. simpl. f_equal.
  specialize (IH (pre ++ [a])).
  rewrite length_app, Nat.add_1_r, <- app_assoc in IH. exact IH.
Qed.

Lemma mat_col_singleton_rows (row : list T) c :
  length row = c →
  omap (λ r : list T, r !! 0) (tabulate c (λ j, omap (λ r : list T, r !! j) [row])) = row.
Proof. intros <-. apply (mat_col_singleton_rows_from [] row). Qed.

Lemma point_prediction_spec e (Kx : Vector T) :
  length Kx = mrows (m_RegressionVectors e) →
  point_prediction e Kx = Ok (vec_mat Kx (m_RegressionVectors e)).
Proof.
  intros Hlen. unfold point_prediction, mat_mul. simpl.
  rewrite decide_True by done. simpl.
  unfold vec_of_matrix. simpl. f_equal. unfold mat_col, mat_transpose. simpl.
  apply mat_col_singleton_rows, length_tabulate.
Qed.

Lemma mat_col_col_matrix (v : Vector T) : mat_col 0 (col_matrix v) = v.
Proof.
  unfold mat_col, col_matrix. simpl. induction v as [|a v IH]; [done|].
  simpl. f_equal. exact IH.
Qed.

End KernelVectorProofs.

(** ** Scalar and library laws of the instances *)

Section IEEELaws.
Variables prec emax : Z.




End IEEELaws.

Lemma Example_eigen_dimensions : @EigenDimensions spec_float Example.eigen.
Proof.
  split; simpl.
  - done.
  - intros M _. unfold Example.svd_diagonal, Example.diagonal. simpl.
    by rewrite length_tabulate.
  - intros M _. unfold Example.svd_diagonal, Example.diagonal. simpl.
    by rewrite length_tabulate.
  - intros M _. unfold Example.diagonal. simpl. by rewrite length_tabulate.
Qed.

Section EngineTheorems.
Context `{Scalar T} `{Eigen T} `{KernelLib T} `{MatrixIO T}.
Context {ED : EigenDimensions}.
Implicit Type e : GaussianProcess T.

Lemma GramMatrix_upper (k : Kernel T) samples i j :
  i ≤ j → j < length samples →
  coeff (GramMatrix k samples) i j
    = Some (k_eval k (sample_at samples i) (sample_at samples j)) ∧
  coeff (GramMatrix k samples) j i = coeff (GramMatrix k samples) i j.
Proof.
  intros Hij Hj. unfold GramMatrix. rewrite !coeff_mat_tabulate by lia.
  unfold gram. rewrite (Nat.min_comm j i), (Nat.max_comm j i).
  by rewrite Nat.min_l, Nat.max_r by lia.
Qed.

Lemma GramMatrix_symmetric (k : Kernel T) samples i j :
  coeff (GramMatrix k samples) i j = coeff (GramMatrix k samples) j i.
Proof.
  destruct (decide (i < length samples ∧ j < length samples)) as [[Hi Hj]|Hout].
  - unfold GramMatrix. rewrite !coeff_mat_tabulate by lia.
    unfold gram. by rewrite (Nat.min_comm j i), (Nat.max_comm j i).
  - unfold GramMatrix, coeff, mat_tabulate. simpl. rewrite !lookup_tabulate.
    repeat case_decide; simpl; rewrite ?lookup_tabulate; repeat case_decide; try done; lia.
Qed.

Lemma RegularizedGramMatrix_coeff (k : Kernel T) samples sigma i j :
  i < length samples → j < length samples →
  coeff (RegularizedGramMatrix k samples sigma) i j =
    (λ v, if decide (i = j) then s_add v sigma else v) <$> coeff (GramMatrix k samples) i j.
Proof.
  intros Hi Hj. unfold RegularizedGramMatrix, GramMatrix.
  by rewrite !coeff_mat_tabulate by lia.
Qed.

(** An engine with a sample is trained after [Initialize]. *)
Lemma Initialize_ready e :
  engine_wf e → m_SampleVectors e ≠ [] →
  ∃ e1, Initialize e = Return tt e1 ∧ unchanged_or_retrained e e1 ∧
        m_Initialized e1 = true ∧ engine_wf e1 ∧
        m_Kernel e1 = m_Kernel e ∧ m_SampleVectors e1 = m_SampleVectors e ∧
        m_InputDimension e1 = m_InputDimension e ∧
        m_OutputDimension e1 = m_OutputDimension e.
Proof.
  intros Hwf Hs. destruct (m_Initialized e) eqn:Hi.
  - exists e. unfold Initialize. rewrite Hi.
    split; [done|]. split; [by left|]. split; [done|]. by split.
  - destruct Hwf as ([k Hk] & Hlen & HsF & HlF & Hc).
    destruct (Initialize_retrains e k Hi Hk Hs Hlen HlF) as (C & R & HI & _ & _ & Hret).
    exists (trained_state e C R). split; [done|].
    assert (unchanged_or_retrained e (trained_state e C R)) as Hrel.
    { right. split; [done|]. by exists C, R. }
    split; [done|]. split; [done|].
    split; [by eapply engine_wf_unchanged_or_retrained|done].
Qed.
End EngineTheorems.

(** ** Training and the queries *)

(** C1. On an untrained engine that satisfies the invariants of the data
    model, has a sample and a label and uses the strategy [FullPivotLU],
    [Initialize] builds the [n×n] Gram matrix [K] with
    [K[i][j] = kernel(sample_i, sample_j)] for [i ≤ j] and
    [K[j][i] = K[i][j]], so that [K] is symmetric; adds the noise to every
    diagonal entry; sets the core matrix to the inverse [C] of the result;
    stacks the labels as the rows of the [n×D_out] matrix [Y]; sets the
    regression coefficients to [C·Y]; and sets the trained flag. *)
Theorem Initialize_trains_FullPivotLU
    `{Scalar T} `{Eigen T} `{KernelLib T} `{MatrixIO T} {ED : EigenDimensions}
    (e : GaussianProcess T) (k : Kernel T) :
  engine_wf e → m_Kernel e = Some k →
  m_SampleVectors e ≠ [] → m_LabelVectors e ≠ [] → m_Initialized e = false →
  m_InvMethod e = FullPivotLU →
  let samples := m_SampleVectors e in
  let n := length samples in
  let K := GramMatrix k samples in
  let Kreg := RegularizedGramMatrix k samples (m_Sigma e) in
  let C := inverse Kreg in
  let Y := mkMatrix n (m_OutputDimension e) (m_LabelVectors e) in
  ComputeKernelMatrix e mat_empty = Ok K ∧
  mrows K = n ∧ mcols K = n ∧
  (∀ i j, i ≤ j → j < n →
     coeff K i j = Some (k_eval k (sample_at samples i) (sample_at samples j)) ∧
     coeff K j i = coeff K i j) ∧
  (∀ i j, coeff K i j = coeff K j i) ∧
  add_noise (m_Sigma e) K = Ok Kreg ∧
  (∀ i j, i < n → j < n →
     coeff Kreg i j =
       (λ v, if decide (i = j) then s_add v (m_Sigma e) else v) <$> coeff K i j) ∧
  ComputeLabelMatrix e mat_empty = Ok Y ∧
  ∃ R, mat_mul C Y = Ok R ∧
       Initialize e =
         Return tt (set_Initialized true (set_RegressionVectors R (set_CoreMatrix C e))).
Proof.
  intros (_ & Hlen & _ & HlF & _) Hk Hs Hl Hi Hm. simpl.
  split; [by apply ComputeKernelMatrix_Gram, mat_empty_wf|].
  split; [done|]. split; [done|].
  split; [intros i j; apply GramMatrix_upper|].
  split; [apply GramMatrix_symmetric|].
  split; [apply add_noise_tabulate|].
  split; [intros i j; apply RegularizedGramMatrix_coeff|].
  split; [rewrite Hlen; by apply ComputeLabelMatrix_stack, mat_empty_wf|].
  destruct (Initialize_retrains e k Hi Hk Hs Hlen HlF) as (C & R & HI & HC & HR & _).
  rewrite Hm in HC. unfold invert in HC. rewrite decide_True in HC by done.
  injection HC as <-. exists R. rewrite Hlen. by split.
Qed.



Section Witnesses.
#[local] Existing Instance IEEE.binary64.
#[local] Existing Instance Example.eigen.
#[local] Existing Instance Example.kernels.
#[local] Existing Instance Example.matrix_io.
#[local] Existing Instance Example_eigen_dimensions.

Lemma Example_two_samples_wf : engine_wf Example.two_samples.
Proof.
  split; [by eexists|]. split; [done|].
  split; [by repeat constructor|]. split; [by repeat constructor|].
  intros Hi. by vm_compute in Hi.
Qed.

Lemma Initialize_trains_FullPivotLU_witness :
  ∃ R, Initialize Example.two_samples =
         Return tt
           (set_Initialized true
              (set_RegressionVectors R
                 (set_CoreMatrix
                    (inverse (RegularizedGramMatrix Example.gaussian
                                (m_SampleVectors Example.two_samples)
                                (m_Sigma Example.two_samples)))
                    Example.two_samples))).
Proof.
  destruct (Initialize_trains_FullPivotLU Example.two_samples Example.gaussian)
    as (_ & _ & _ & _ & _ & _ & _ & _ & HR).
  - exact Example_two_samples_wf.
  - reflexivity.
  - vm_compute. discriminate.
  - vm_compute. discriminate.
  - reflexivity.
  - reflexivity.
  - destruct HR as (R & _ & HR). by exists R.
Defined.


End Witnesses.

(** ** The trained flag *)

Lemma mbind_Return_inv {S A B} (m : method S A) (f : A → method S B) s b s' :
  mbind' m f s = Return b s' → ∃ a s1, m s = Return a s1 ∧ f a s1 = Return b s'.
Proof. unfold mbind'. destruct (m s) as [a s1| |]; [eauto|done..]. Qed.

Section FlagProofs.
Context `{Scalar T} `{Eigen T} `{KernelLib T} `{MatrixIO T}.
Implicit Type e : GaussianProcess T.

(** The mutators never set the flag. *)
Lemma mutator_flag op e e' :
  calls_Initialize op = false → run_op op e = Some e' →
  m_Initialized e = false → m_Initialized e' = false.
Proof.
  intros Hop Hrun Hi. destruct op; try done; simpl in Hrun.
  - revert Hrun.
    unfold AddSample, mbind', assign, call, CheckInputDimension, CheckOutputDimension.
    repeat case_decide; simpl; intros [= <-]; simpl; repeat case_decide; done.
  - by injection Hrun as <-.
  - by injection Hrun as <-.
Qed.

Lemma Load_sets_flag m_Map prefix (w w' : world (T:=T)) r :
  GaussianProcess_Load m_Map prefix w = Return r w' → m_Initialized w'.1 = true.
Proof.
  unfold GaussianProcess_Load. intros Hload.
  repeat (apply mbind_Return_inv in Hload as (? & ? & _ & Hload)).
  unfold assign_engine, assign in Hload. by injection Hload as _ <-.
Qed.
End FlagProofs.

(** C9 (as amended). The trained flag is a conservative dirty flag: on every
    engine that the constructor and the operations other than [Load]
    produce, a set flag implies that the cached core matrix and regression
    coefficients are the ones a retrain computes from the current samples,
    labels, kernel and noise; an accepted [AddSample] and [SetSigma] clear
    it; [Initialize] leaves an engine whose flag is set as it is and throws
    an exception of kind [UntrainedState] when the flag is clear and the
    sample or label storage is empty; an operation that turns the flag from
    clear to set is [Initialize] or a query that starts with it, and it
    leaves the retrained state; [Save] does not touch the flag, and [Load]
    sets it whenever it returns. *)
Theorem trained_flag_discipline `{Scalar T} `{Eigen T} `{KernelLib T} `{MatrixIO T} :
  (∀ e : GaussianProcess T, reachable e → m_Initialized e = true → consistent e) ∧
  (∀ (e : GaussianProcess T) x y r e',
     AddSample x y e = Return r e' → m_Initialized e' = false) ∧
  (∀ (e : GaussianProcess T) sigma,
     SetSigma sigma e = Return tt (set_Initialized false (set_Sigma sigma e))) ∧
  (∀ e : GaussianProcess T, m_Initialized e = true → Initialize e = Return tt e) ∧
  (∀ e : GaussianProcess T,
     m_Initialized e = false → m_SampleVectors e = [] ∨ m_LabelVectors e = [] →
     ∃ ex, Initialize e = Raise ex e ∧ kind_of ex = UntrainedState) ∧
  (∀ op (e e' : GaussianProcess T),
     run_op op e = Some e' → m_Initialized e = false → m_Initialized e' = true →
     calls_Initialize op = true ∧
     ∃ C R, retrained e C R ∧ e' = trained_state e C R) ∧
  (∀ prefix (w : world (T:=T)) r w',
     Save prefix w = Return r w' → m_Initialized w'.1 = m_Initialized w.1) ∧
  (∀ m_Map prefix (w : world (T:=T)) r w',
     GaussianProcess_Load m_Map prefix w = Return r w' → m_Initialized w'.1 = true).
Proof.
  split. { intros e Hr Hi. by apply reachable_engine_wf in Hr as (_ & _ & _ & _ & Hc); auto. }
  split. { intros e x y r e' Ha. by apply AddSample_accepted in Ha as (_ & _ & ? & _). }
  split; [done|].
  split. { intros e Hi. unfold Initialize. by rewrite Hi. }
  split.
  { intros e Hi Hempty. unfold Initialize. rewrite Hi.
    destruct (m_SampleVectors e) as [|x xs] eqn:Es.
    - rewrite decide_True by (simpl; lia). by exists NoInputSamples.
    - rewrite decide_False by (simpl; lia).
      destruct Hempty as [?|Hl]; [done|]. rewrite Hl.
      rewrite decide_True by (simpl; lia). by exists NoOutputLabels. }
  split.
  { intros op e e' Hrun Hi Hi'. destruct (calls_Initialize op) eqn:Hop.
    - split; [done|].
      destruct (run_op_calls_Initialize op e e' Hop Hrun) as [->|[_ ?]]; [congruence|done].
    - pose proof (mutator_flag op e e' Hop Hrun Hi). congruence. }
  split.
  { intros prefix w r w' Hs. pose proof (Save_same_engine prefix w) as Hp.
    rewrite Hs in Hp. unfold same_engine in Hp. by rewrite Hp. }
  intros m_Map prefix w r w'. apply Load_sets_flag.
Qed.

Section FlagCounterexample.
#[local] Existing Instance IEEE.binary64.
#[local] Existing Instance Example.eigen.
#[local] Existing Instance Example.kernels.
#[local] Existing Instance Example.matrix_io.

Lemma reachable_after op (e : GaussianProcess spec_float) {A}
    (o : outcome (GaussianProcess spec_float) A) :
  reachable e → run_op op e = final_state o → reachable (after o e).
Proof.
  intros Hr Hrun. destruct o as [a e'|ex e'|]; simpl in *; [| |done].
  - by apply (reachable_step op e).
  - by apply (reachable_step op e).
Qed.

Lemma Example_two_samples_reachable : reachable Example.two_samples.
Proof.
  unfold Example.two_samples. cbv zeta.
  apply (reachable_after (OpSetSigma (Example.d "0.01"))); [|reflexivity].
  apply (reachable_after (OpAddSample [Example.d "1"] [Example.d "1"])); [|reflexivity].
  apply (reachable_after (OpAddSample [Example.d "0"] [Example.d "0"])); [|reflexivity].
  apply reachable_construct.
Qed.

Lemma Example_two_samples_trained_reachable : reachable Example.two_samples_trained.
Proof.
  apply (reachable_after OpInitialize); [|reflexivity].
  apply Example_two_samples_reachable.
Qed.

Lemma Example_noise_set_again_reachable : reachable Example.noise_set_again.
Proof.
  apply (reachable_after (OpSetSigma (m_Sigma Example.two_samples_trained)));
    [|reflexivity].
  apply Example_two_samples_trained_reachable.
Qed.

(** [SetSigma] with the noise in place keeps consistent matrices
    consistent. *)
Lemma SetSigma_same_noise_consistent (e : GaussianProcess spec_float) :
  consistent e → consistent (after (SetSigma (m_Sigma e) e) e).
Proof. intros Hc. by eapply retrained_frame; [..|exact Hc]. Qed.

(** The claim that the flag is set if and only if the cached matrices are
    consistent fails on the engine obtained by training and then calling
    [SetSigma] with the noise already in place: its matrices are
    consistent and its flag is clear. *)
Lemma trained_flag_not_iff_consistent :
  ¬ (∀ e : GaussianProcess spec_float,
       reachable e → (m_Initialized e = true ↔ consistent e)).
Proof.
  intros Hiff.
  destruct (Hiff Example.noise_set_again Example_noise_set_again_reachable) as [_ Hback].
  assert (consistent Example.noise_set_again) as Hc.
  { apply SetSigma_same_noise_consistent.
    pose proof Example_two_samples_trained_reachable as Hr.
    apply reachable_engine_wf in Hr as (_ & _ & _ & _ & Hcons).
    apply Hcons. by vm_compute. }
  apply Hback in Hc. by vm_compute in Hc.
Qed.
End FlagCounterexample.

(** ** [Load] *)

Section LoadProofs.
Context `{Scalar T} `{Eigen T} `{KernelLib T} `{MatrixIO T}.
Implicit Type e : GaussianProcess T.

(** With the five files in place, [Load] reads the four matrices, then the
    parameter file, then rebuilds the kernel and sets the flag. *)
Lemma Load_stages m_Map prefix e fs cR cC cX cY cP :
  files_present fs prefix cR cC cX cY cP →
  GaussianProcess_Load m_Map prefix (e, fs) =
    (parameters <~ read_parameter_file cP;;
     load_kernel m_Map parameters.1 parameters.2;;;
     assign_engine (set_Initialized true)) (matrices_loaded cR cC cX cY e, fs).
Proof.
  intros (HR & HC & HX & HY & HP).
  unfold GaussianProcess_Load, mbind', read_matrix_file, assign_engine, assign.
  simpl. rewrite HR. simpl. rewrite HC. simpl. rewrite HX. simpl.
  rewrite HY. simpl. rewrite HP. done.
Qed.

(** The parameter stage assigns the noise, the dimensions and the debug
    flag only, and leaves the files alone. *)
Lemma read_parameter_file_frame cP (w : world (T:=T)) :
  match read_parameter_file cP w with
  | Return _ w' | Raise _ w' =>
      w'.2 = w.2 ∧
      m_Kernel w'.1 = m_Kernel w.1 ∧ m_Initialized w'.1 = m_Initialized w.1 ∧
      m_InvMethod w'.1 = m_InvMethod w.1 ∧
      m_SampleVectors w'.1 = m_SampleVectors w.1 ∧
      m_LabelVectors w'.1 = m_LabelVectors w.1 ∧
      m_RegressionVectors w'.1 = m_RegressionVectors w.1 ∧
      m_CoreMatrix w'.1 = m_CoreMatrix w.1
  | Stuck => False
  end.
Proof.
  unfold read_parameter_file.
  destruct (getline newline cP) as [[line rest]|]; [|done].
  destruct (stream_get extract_string (Some line) EmptyString) as [kt st1].
  destruct (stream_get extract_unsigned st1 0) as [num st2].
  destruct (read_kernel_parameters num st2 [] _) as [[params st3] load].
  destruct (stream_get extract_scalar st3 _) as [sigma [s4|]]; [|done].
  destruct (stream_get extract_unsigned (Some s4) _) as [d_in [s5|]]; [|done].
  destruct (stream_get extract_unsigned (Some s5) _) as [d_out [s6|]]; [|done].
  destruct (stream_get extract_bool (Some s6) _) as [dbg [s7|]]; [|done].
  by destruct load.
Qed.

(** A kernel type that is neither of the two atomic names nor contains
    [SumKernel] is not recognized; nothing is assigned. *)
Lemma load_kernel_not_recognized m_Map kernel_type kernel_parameters (w : world (T:=T)) :
  kernel_type ≠ "GaussianKernel" → kernel_type ≠ "PeriodicKernel" →
  String.index 0 "SumKernel" kernel_type = None →
  load_kernel m_Map kernel_type kernel_parameters w = Raise KernelNotRecognized w.
Proof.
  intros Hg Hp Hs. unfold load_kernel.
  rewrite !decide_False by done. by rewrite Hs.
Qed.
End LoadProofs.

Lemma returns_after {S} (o : outcome S unit) s0 :
  returns o = true → o = Return tt (after o s0).
Proof. by destruct o as [[] s| |]. Qed.

Lemma thrown_after {S A} (o : outcome S A) s0 ex :
  thrown o = Some ex → o = Raise ex (after o s0).
Proof. destruct o as [a s|ex' s|]; try done. by intros [= ->]. Qed.

Section LoadNotRecognized.
Context `{Scalar T} `{Eigen T} `{KernelLib T} `{MatrixIO T}.

(** [Load] up to the exception for a kernel type that is not recognized. *)
Lemma Load_not_recognized (m_Map : gmap string (ComponentFactoryFuncPtr T)) prefix
    (e : GaussianProcess T) fs cR cC cX cY cP kernel_type kernel_parameters
    (w1 : world (T:=T)) :
  files_present fs prefix cR cC cX cY cP →
  read_parameter_file cP (matrices_loaded cR cC cX cY e, fs)
    = Return (kernel_type, kernel_parameters) w1 →
  kernel_type ≠ "GaussianKernel" → kernel_type ≠ "PeriodicKernel" →
  String.index 0 "SumKernel" kernel_type = None →
  GaussianProcess_Load m_Map prefix (e, fs) = Raise KernelNotRecognized w1.
Proof.
  intros Hfiles Hparse Hg Hp Hs.
  rewrite (Load_stages m_Map prefix e fs cR cC cX cY cP Hfiles).
  unfold mbind' at 1. rewrite Hparse. unfold mbind'. simpl.
  by rewrite load_kernel_not_recognized.
Qed.

(** [Load] up to the exception for a composite kernel type that is not
    split into three tokens. *)
Lemma Load_not_tokenized (m_Map : gmap string (ComponentFactoryFuncPtr T)) prefix
    (e : GaussianProcess T) fs cR cC cX cY cP kernel_type kernel_parameters
    (w1 : world (T:=T)) :
  files_present fs prefix cR cC cX cY cP →
  read_parameter_file cP (matrices_loaded cR cC cX cY e, fs)
    = Return (kernel_type, kernel_parameters) w1 →
  kernel_type ≠ "GaussianKernel" → kernel_type ≠ "PeriodicKernel" →
  is_Some (String.index 0 "SumKernel" kernel_type) →
  tokenize_summands kernel_type = Throw TokenizeFailed →
  GaussianProcess_Load m_Map prefix (e, fs) = Raise TokenizeFailed w1.
Proof.
  intros Hfiles Hparse Hg Hp [found Hs] Htok.
  rewrite (Load_stages m_Map prefix e fs cR cC cX cY cP Hfiles).
  unfold mbind' at 1. rewrite Hparse. unfold mbind' at 1. cbn [fst snd].
  unfold load_kernel. rewrite !decide_False by done. rewrite Hs.
  unfold mbind' at 1, call at 1. by rewrite Htok.
Qed.
End LoadNotRecognized.

(** What [RegisterKernels] registers in an empty factory. *)
Lemma RegisterKernels_names `{KernelLib T} :
  is_Some (RegisterKernels (∅ : gmap string (ComponentFactoryFuncPtr T)) !! "GaussianKernel") ∧
  is_Some (RegisterKernels (∅ : gmap string (ComponentFactoryFuncPtr T)) !! "PeriodicKernel") ∧
  is_Some (RegisterKernels (∅ : gmap string (ComponentFactoryFuncPtr T)) !! "ProductKernel") ∧
  RegisterKernels (∅ : gmap string (ComponentFactoryFuncPtr T)) !! "UnknownKernel" = None ∧
  RegisterKernels (∅ : gmap string (ComponentFactoryFuncPtr T)) !! "NoSumKernel" = None.
Proof.
  split; [exists GaussianKernel_Load; vm_compute; reflexivity|].
  split; [exists PeriodicKernel_Load; vm_compute; reflexivity|].
  split; [exists ProductKernel_Load; vm_compute; reflexivity|].
  split; vm_compute; reflexivity.
Qed.

(** A name without the separator that is not registered does not resolve. *)
Lemma unregistered_name_unresolved {T} (m_Map : gmap string (ComponentFactoryFuncPtr T))
    (tag : string) :
  contains "#" tag = false → m_Map !! tag = None → ¬ resolves m_Map tag.
Proof.
  intros Hplain Hnone Hr. destruct Hr as [name [create Hreg]|name lt rt _ _ _].
  - congruence.
  - revert Hplain. clear. induction name as [|a name IH]; simpl; [done|].
    case_decide; [done|]. exact IH.
Qed.

(** C2 (as amended). When the five companion files exist, the parameter
    line is read without error and the kernel type tag it declares does not
    resolve through the registry, which holds the two atomic names
    [GaussianKernel] and [PeriodicKernel], and either does not contain
    [SumKernel] or is not split into three tokens (for example
    [UnknownKernel]), [Load] throws the not-recognized exception,
    respectively the tokenize exception (both of kind [UnknownKernelType]),
    and leaves the kernel, the trained flag, the strategy and the files as
    they were; the regression vectors, the core matrix, the samples and the
    labels are by then the contents of the four matrix files, and the
    noise, the dimensions and the debug flag are the ones of the parameter
    line. *)
Theorem Load_unknown_kernel `{Scalar T} `{Eigen T} `{KernelLib T} `{MatrixIO T}
    (m_Map : gmap string (ComponentFactoryFuncPtr T)) (prefix : string)
    (e : GaussianProcess T) (fs : gmap string fs_node)
    (cR cC cX cY cP kernel_type : string) (kernel_parameters : list T)
    (w1 : world (T:=T)) :
  files_present fs prefix cR cC cX cY cP →
  read_parameter_file cP (matrices_loaded cR cC cX cY e, fs)
    = Return (kernel_type, kernel_parameters) w1 →
  is_Some (m_Map !! "GaussianKernel") → is_Some (m_Map !! "PeriodicKernel") →
  ¬ resolves m_Map kernel_type →
  String.index 0 "SumKernel" kernel_type = None ∨
    tokenize_summands kernel_type = Throw TokenizeFailed →
  let ex := match String.index 0 "SumKernel" kernel_type with
            | None => KernelNotRecognized
            | Some _ => TokenizeFailed
            end in
  GaussianProcess_Load m_Map prefix (e, fs) = Raise ex w1 ∧
  kind_of ex = UnknownKernelType ∧
  w1.2 = fs ∧
  m_Kernel w1.1 = m_Kernel e ∧ m_Initialized w1.1 = m_Initialized e ∧
  m_InvMethod w1.1 = m_InvMethod e ∧
  m_RegressionVectors w1.1 = ReadMatrix_text cR ∧
  m_CoreMatrix w1.1 = ReadMatrix_text cC ∧
  m_SampleVectors w1.1 = columns (ReadMatrix_text cX) ∧
  m_LabelVectors w1.1 = columns (ReadMatrix_text cY).
Proof.
  intros Hfiles Hparse Hg Hp Hunresolved Hs.
  assert (kernel_type ≠ "GaussianKernel") as Hng.
  { intros ->. by apply Hunresolved, resolves_name. }
  assert (kernel_type ≠ "PeriodicKernel") as Hnp.
  { intros ->. by apply Hunresolved, resolves_name. }
  cbv zeta. split.
  { destruct (String.index 0 "SumKernel" kernel_type) as [found|] eqn:Hfound.
    - destruct Hs as [?|Htok]; [done|].
      by eapply Load_not_tokenized.
    - by eapply Load_not_recognized. }
  split; [by destruct (String.index 0 "SumKernel" kernel_type)|].
  pose proof (read_parameter_file_frame cP (matrices_loaded cR cC cX cY e, fs)) as Hf.
  rewrite Hparse in Hf. simpl in Hf. destruct Hf as (? & ? & ? & ? & ? & ? & ? & ?).
  done.
Qed.

Section LoadExamples.
#[local] Existing Instance IEEE.binary64.
#[local] Existing Instance Example.eigen.
#[local] Existing Instance Example.kernels.
#[local] Existing Instance Example.matrix_io.

Lemma Example_files_present kernel_type :
  files_present (Example.companion_files kernel_type) "m"
    "1 1 2" "1 1 3" "1 1 5" "1 1 7" (kernel_type +:+ " 0 0.5 1 1 1").
Proof. repeat apply conj; vm_compute; reflexivity. Qed.

(** The parameter line of the example files, read into any engine. *)
Lemma Example_parameter_line_unknown (w : world (T:=spec_float)) :
  read_parameter_file "UnknownKernel 0 0.5 1 1 1" w =
    Return ("UnknownKernel", [])
      (set_debug true
         (set_OutputDimension 1
            (set_InputDimension 1 (set_Sigma (Example.d "0.5") w.1))), w.2).
Proof. destruct w as [e fs]. vm_compute. reflexivity. Qed.

Lemma Example_parameter_line_not_tokenized (w : world (T:=spec_float)) :
  read_parameter_file "NoSumKernel 0 0.5 1 1 1" w =
    Return ("NoSumKernel", [])
      (set_debug true
         (set_OutputDimension 1
            (set_InputDimension 1 (set_Sigma (Example.d "0.5") w.1))), w.2).
Proof. destruct w as [e fs]. vm_compute. reflexivity. Qed.

(** A noise literal that overflows is not read: the largest finite value
    is stored and the line is reported as corrupt. *)
Lemma Example_parameter_line_overflow (w : world (T:=spec_float)) :
  read_parameter_file "UnknownKernel 0 1e999 1 1 1" w =
    Raise ParameterFileCorrupt (set_Sigma (IEEE.largest 53 1024 false) w.1, w.2).
Proof. destruct w as [e fs]. vm_compute. reflexivity. Qed.

(** The registry of the example holds the four names of [RegisterKernels]
    and no other: [UnknownKernel] and [NoSumKernel] do not resolve, the
    composite tag of a product kernel does. *)
Lemma Example_registry_resolves :
  is_Some (Example.registry !! "GaussianKernel") ∧
  is_Some (Example.registry !! "PeriodicKernel") ∧
  ¬ resolves Example.registry "UnknownKernel" ∧
  resolves Example.registry "ProductKernel#GaussianKernel#PeriodicKernel" ∧
  ¬ resolves Example.registry "NoSumKernel".
Proof.
  unfold Example.registry.
  destruct (RegisterKernels_names (T:=spec_float)) as (Hg & Hp & Hprod & Hnone & Hnone').
  split; [exact Hg|]. split; [exact Hp|]. split; [|split].
  - apply unregistered_name_unresolved; [reflexivity|exact Hnone].
  - apply (resolves_composite _ "ProductKernel" "GaussianKernel" "PeriodicKernel").
    + exact Hprod.
    + apply resolves_name. exact Hg.
    + apply resolves_name. exact Hp.
  - apply unregistered_name_unresolved; [reflexivity|exact Hnone'].
Qed.

(** The tag [UnknownKernel] is not recognized; the tag [NoSumKernel],
    which contains [SumKernel] and no separator, is not tokenized. *)
Lemma Load_unknown_kernel_witness :
  (GaussianProcess_Load Example.registry "m"
     (Example.two_samples_trained, Example.companion_files "UnknownKernel")
   = Raise KernelNotRecognized
       (Example.overwritten, Example.companion_files "UnknownKernel") ∧
   m_Kernel Example.overwritten = m_Kernel Example.two_samples_trained ∧
   m_Initialized Example.overwritten = m_Initialized Example.two_samples_trained) ∧
  GaussianProcess_Load Example.registry "m"
    (Example.two_samples_trained, Example.companion_files "NoSumKernel")
  = Raise TokenizeFailed (Example.overwritten, Example.companion_files "NoSumKernel").
Proof.
  destruct Example_registry_resolves as (Hg & Hp & Hunresolved & _ & Hunresolved').
  split.
  - destruct (Load_unknown_kernel Example.registry "m" Example.two_samples_trained
                (Example.companion_files "UnknownKernel")
                "1 1 2" "1 1 3" "1 1 5" "1 1 7" "UnknownKernel 0 0.5 1 1 1"
                "UnknownKernel" []
                (Example.overwritten, Example.companion_files "UnknownKernel"))
      as (Hload & _ & _ & Hk & Hi & _).
    + exact (Example_files_present "UnknownKernel").
    + exact (Example_parameter_line_unknown _).
    + exact Hg.
    + exact Hp.
    + exact Hunresolved.
    + left. vm_compute. reflexivity.
    + exact (conj Hload (conj Hk Hi)).
  - destruct (Load_unknown_kernel Example.registry "m" Example.two_samples_trained
                (Example.companion_files "NoSumKernel")
                "1 1 2" "1 1 3" "1 1 5" "1 1 7" "NoSumKernel 0 0.5 1 1 1"
                "NoSumKernel" []
                (Example.overwritten, Example.companion_files "NoSumKernel"))
      as (Hload & _).
    + exact (Example_files_present "NoSumKernel").
    + exact (Example_parameter_line_not_tokenized _).
    + exact Hg.
    + exact Hp.
    + exact Hunresolved'.
    + right. vm_compute. reflexivity.
    + exact Hload.
Defined.

(** On the files that declare [UnknownKernel], [Load] called on the trained
    engine throws the not-recognized exception and leaves an engine that is
    not the prior one: the sample, the noise, the debug flag and the
    regression vectors are those of the files. *)
Lemma Load_unknown_kernel_overwrites :
  GaussianProcess_Load Example.registry "m"
    (Example.two_samples_trained, Example.companion_files "UnknownKernel")
  = Raise KernelNotRecognized
      (Example.overwritten, Example.companion_files "UnknownKernel") ∧
  kind_of KernelNotRecognized = UnknownKernelType ∧
  Example.overwritten ≠ Example.two_samples_trained ∧
  m_SampleVectors Example.two_samples_trained = [[Example.d "0"]; [Example.d "1"]] ∧
  m_SampleVectors Example.overwritten = [[Example.d "5"]] ∧
  m_Sigma Example.two_samples_trained = Example.d "0.01" ∧
  m_Sigma Example.overwritten = Example.d "0.5" ∧
  debug Example.two_samples_trained = false ∧
  debug Example.overwritten = true ∧
  m_RegressionVectors Example.overwritten = mkMatrix 1 1 [[Example.d "2"]].
Proof.
  split.
  { apply (Load_not_recognized Example.registry "m" Example.two_samples_trained
             (Example.companion_files "UnknownKernel")
             "1 1 2" "1 1 3" "1 1 5" "1 1 7" "UnknownKernel 0 0.5 1 1 1"
             "UnknownKernel" []).
    - exact (Example_files_present "UnknownKernel").
    - exact (Example_parameter_line_unknown _).
    - discriminate.
    - discriminate.
    - vm_compute. reflexivity. }
  split; [reflexivity|].
  split.
  { intros Heq. apply (f_equal debug) in Heq. vm_compute in Heq. discriminate. }
  repeat apply conj; vm_compute; reflexivity.
Qed.
End LoadExamples.

Section CompositeTags.
Context `{Scalar T} `{Eigen T} `{KernelLib T} `{MatrixIO T}.

Lemma RegisterKernels_lookup :
  RegisterKernels (∅ : gmap string (ComponentFactoryFuncPtr T)) !! "GaussianKernel"
    = Some GaussianKernel_Load ∧
  RegisterKernels (∅ : gmap string (ComponentFactoryFuncPtr T)) !! "PeriodicKernel"
    = Some PeriodicKernel_Load ∧
  RegisterKernels (∅ : gmap string (ComponentFactoryFuncPtr T)) !! "SumKernel"
    = Some SumKernel_Load ∧
  RegisterKernels (∅ : gmap string (ComponentFactoryFuncPtr T)) !! "ProductKernel"
    = Some ProductKernel_Load ∧
  RegisterKernels (∅ : gmap string (ComponentFactoryFuncPtr T)) !! "UnknownKernel" = None.
Proof. repeat apply conj; vm_compute; reflexivity. Qed.
End CompositeTags.

(** C3. The composite tags on [Load]. A [ProductKernel] tag is rejected
    with the not-recognized exception although [RegisterKernels] has
    registered [ProductKernel]; a [SumKernel] tag is split at [#] into the
    token [SumKernel] and two sub-tags, but only the token [SumKernel] is
    resolved through the registry, with all the parameters, and the
    sub-tags are not: unregistered sub-tags and a third sub-tag load the
    same kernel. *)
Theorem Load_composite_kernel_tags `{Scalar T} `{Eigen T} `{KernelLib T} `{MatrixIO T}
    (m_Map : gmap string (ComponentFactoryFuncPtr T)) (kernel_parameters : list T)
    (w : world (T:=T)) :
  RegisterKernels (∅ : gmap string (ComponentFactoryFuncPtr T)) !! "ProductKernel"
    = Some ProductKernel_Load ∧
  load_kernel (RegisterKernels ∅) "ProductKernel#GaussianKernel#PeriodicKernel"
    kernel_parameters w = Raise KernelNotRecognized w ∧
  tokenize_summands "SumKernel#GaussianKernel#PeriodicKernel"
    = Ok ("SumKernel", "GaussianKernel", "PeriodicKernel") ∧
  load_kernel m_Map "SumKernel#GaussianKernel#PeriodicKernel" kernel_parameters w =
    (k <~ call (λ _, KernelFactory_Load m_Map "SumKernel" kernel_parameters);;
     assign_engine (set_Kernel (dynamic_pointer_cast "SumKernel" k))) w ∧
  load_kernel m_Map "SumKernel#NoSuchKernel#NoSuchKernel" kernel_parameters w =
    load_kernel m_Map "SumKernel#GaussianKernel#PeriodicKernel" kernel_parameters w ∧
  load_kernel m_Map "SumKernel#GaussianKernel#PeriodicKernel#GaussianKernel"
    kernel_parameters w =
    load_kernel m_Map "SumKernel#GaussianKernel#PeriodicKernel" kernel_parameters w.
Proof.
  split; [apply RegisterKernels_lookup|].
  split.
  { apply load_kernel_not_recognized; [discriminate..|vm_compute; reflexivity]. }
  split; [vm_compute; reflexivity|].
  unfold load_kernel.
  rewrite !decide_False by discriminate.
  assert (tokenize_summands "SumKernel#GaussianKernel#PeriodicKernel"
          = Ok ("SumKernel", "GaussianKernel", "PeriodicKernel")) as ->
    by (vm_compute; reflexivity).
  assert (tokenize_summands "SumKernel#NoSuchKernel#NoSuchKernel"
          = Ok ("SumKernel", "NoSuchKernel", "NoSuchKernel")) as ->
    by (vm_compute; reflexivity).
  assert (tokenize_summands "SumKernel#GaussianKernel#PeriodicKernel#GaussianKernel"
          = Ok ("SumKernel", "GaussianKernel", "PeriodicKernel")) as ->
    by (vm_compute; reflexivity).
  assert (String.index 0 "SumKernel" "SumKernel#GaussianKernel#PeriodicKernel" = Some 0) as ->
    by (vm_compute; reflexivity).
  assert (String.index 0 "SumKernel" "SumKernel#NoSuchKernel#NoSuchKernel" = Some 0) as ->
    by (vm_compute; reflexivity).
  assert (String.index 0 "SumKernel"
            "SumKernel#GaussianKernel#PeriodicKernel#GaussianKernel" = Some 0) as ->
    by (vm_compute; reflexivity).
  repeat apply conj; reflexivity.
Qed.

(** C4. [KernelFactory::Load] on a tag that is not in the map: the iterator
    that [find] returns is [end()], and it is dereferenced; no exception is
    thrown. On the four registered tags the static [Load] of the kernel
    class is called with the parameters. *)
Theorem KernelFactory_Load_unregistered `{KernelLib T} (parameters : list T) :
  RegisterKernels (∅ : gmap string (ComponentFactoryFuncPtr T)) !! "UnknownKernel" = None ∧
  KernelFactory_Load (RegisterKernels ∅) "UnknownKernel" parameters = Undefined ∧
  (∀ ex, KernelFactory_Load (RegisterKernels ∅) "UnknownKernel" parameters ≠ Throw ex) ∧
  KernelFactory_Load (RegisterKernels ∅) "GaussianKernel" parameters
    = GaussianKernel_Load parameters ∧
  KernelFactory_Load (RegisterKernels ∅) "PeriodicKernel" parameters
    = PeriodicKernel_Load parameters ∧
  KernelFactory_Load (RegisterKernels ∅) "SumKernel" parameters
    = SumKernel_Load parameters ∧
  KernelFactory_Load (RegisterKernels ∅) "ProductKernel" parameters
    = ProductKernel_Load parameters.
Proof.
  destruct (RegisterKernels_lookup (T:=T)) as (Hg & Hp & Hs & Hpr & Hu).
  unfold KernelFactory_Load. rewrite Hg, Hp, Hs, Hpr, Hu.
  repeat apply conj; try reflexivity. discriminate.
Qed.

(** ** The round trip through [Save] and [Load] *)

Section EqualityProofs.
Context `{Scalar T} `{Eigen T} `{KernelLib T} `{MatrixIO T}.

(** Engines that [operator==] finds equal have noises that compare
    equal. *)
Lemma operator_eq_true_sigma (a b : GaussianProcess T) :
  operator_eq a b = Ok true → s_eqb (m_Sigma a) (m_Sigma b) = true.
Proof.
  unfold operator_eq, rbind.
  repeat (case_match; try done).
  all: by destruct (s_eqb (m_Sigma a) (m_Sigma b)).
Qed.
End EqualityProofs.

Section RoundTrip.
#[local] Existing Instance IEEE.binary64.
Context `{Eigen spec_float} `{KernelLib spec_float} `{MatrixIO spec_float}.

(** The parameter line that [Save] writes for the engine of the round-trip
    example, read into any engine. *)
Lemma parameter_line_read_back (w : world (T:=spec_float)) :
  read_parameter_file "GaussianKernel 1 1 0.3 1 1 0" w =
    Return ("GaussianKernel", [IEEE.double "1"])
      (set_debug false
         (set_OutputDimension 1
            (set_InputDimension 1 (set_Sigma (IEEE.double "0.3") w.1))), w.2).
Proof. destruct w as [e fs]. vm_compute. reflexivity. Qed.

Lemma load_kernel_sigma m_Map kernel_parameters (w w' : world (T:=spec_float)) r :
  (load_kernel m_Map "GaussianKernel" kernel_parameters;;;
   assign_engine (set_Initialized true)) w = Return r w' →
  m_Sigma w'.1 = m_Sigma w.1.
Proof.
  unfold load_kernel. rewrite decide_True by done.
  unfold mbind', call, assign_engine, assign.
  destruct (KernelFactory_Load m_Map "GaussianKernel" kernel_parameters); simpl; [|done..].
  by intros [= _ <-].
Qed.
End RoundTrip.

(** C5. The Save-Load round trip on [double]: for every choice of the
    numeric library, of the kernels and of the matrix reader and writer, on
    a trained engine with the two samples [0 ↦ 0] and [1 ↦ 1], a kernel of
    tag [GaussianKernel] with the parameter [1], and the noise
    [0.1 + 0.2], [Save] writes the noise with [digits10 + 1 = 16]
    significant digits as [0.3]; a [Load] that returns has the noise
    [0.3], another [double], and [operator==] does not find the loaded
    engine equal to the saved one. *)
Theorem Save_Load_round_trip_loses_noise
    `{Eigen spec_float} `{KernelLib spec_float} `{MatrixIO spec_float}
    (e e0 : GaussianProcess spec_float)
    (m_Map : gmap string (ComponentFactoryFuncPtr spec_float)) :
  let save := Save (H:=IEEE.binary64) in
  let load := GaussianProcess_Load (H:=IEEE.binary64) in
  let equal := operator_eq (H:=IEEE.binary64) in
  m_Initialized e = true →
  k_tag <$> m_Kernel e = Some "GaussianKernel" →
  k_params <$> m_Kernel e = Some [IEEE.double "1"] →
  m_Sigma e = SFadd 53 1024 (IEEE.double "0.1") (IEEE.double "0.2") →
  m_SampleVectors e = [[IEEE.double "0"]; [IEEE.double "1"]] →
  m_LabelVectors e = [[IEEE.double "0"]; [IEEE.double "1"]] →
  m_InputDimension e = 1 → m_OutputDimension e = 1 → debug e = false →
  IEEE.print 16 (m_Sigma e) = "0.3" ∧
  IEEE.extract 53 1024 "0.3" = Some (IEEE.double "0.3", EmptyString) ∧
  SFeqb (m_Sigma e) (IEEE.double "0.3") = false ∧
  ∃ fs1,
    save "m" (e, ∅) = Return tt (e, fs1) ∧
    fs1 !! "m-ParameterFile.txt" = Some (RegularFile "GaussianKernel 1 1 0.3 1 1 0") ∧
    ∀ r w2, load m_Map "m" (e0, fs1) = Return r w2 →
            m_Sigma w2.1 = IEEE.double "0.3" ∧ equal e w2.1 ≠ Ok true.
Proof.
  intros save load equal Hi Htag Hparams Hsigma Hs Hl Hdi Hdo Hdbg.
  subst save load equal.
  destruct e as [[[cls eval params tag]|] sigma samples labels R C init di do dbg meth];
    cbn [m_Initialized m_Kernel m_Sigma m_SampleVectors m_LabelVectors
         m_InputDimension m_OutputDimension debug k_tag k_params
         fmap option_fmap option_map] in *; [|discriminate Htag].
  injection Htag as ->. injection Hparams as ->. subst.
  split; [vm_compute; reflexivity|]. split; [vm_compute; reflexivity|].
  split; [vm_compute; reflexivity|].
  set (k := mkKernel cls eval [IEEE.double "1"] "GaussianKernel").
  set (e := mkGaussianProcess (Some k) _ _ _ R C true 1 1 false meth).
  set (X := mkMatrix 1 2 [[IEEE.double "0"; IEEE.double "1"]]).
  set (fs1 :=
    write_file "m-ParameterFile.txt" "GaussianKernel 1 1 0.3 1 1 0"
      (write_file "m-LabelVectors.txt" (WriteMatrix_text X)
         (write_file "m-SampleVectors.txt" (WriteMatrix_text X)
            (write_file "m-CoreMatrix.txt" (WriteMatrix_text C)
               (write_file "m-RegressionVectors.txt" (WriteMatrix_text R) ∅))))).
  exists fs1. split; [vm_compute; reflexivity|]. split; [vm_compute; reflexivity|].
  intros r w2 Hload.
  assert (files_present fs1 "m" (WriteMatrix_text R) (WriteMatrix_text C)
            (WriteMatrix_text X) (WriteMatrix_text X) "GaussianKernel 1 1 0.3 1 1 0")
    as Hfiles by (repeat apply conj; vm_compute; reflexivity).
  rewrite (Load_stages m_Map "m" e0 fs1 _ _ _ _ _ Hfiles) in Hload.
  unfold mbind' at 1 in Hload. rewrite parameter_line_read_back in Hload.
  apply load_kernel_sigma in Hload.
  cbn [fst m_Sigma set_debug set_OutputDimension set_InputDimension set_Sigma] in Hload.
  split; [exact Hload|]. intros Heq. apply operator_eq_true_sigma in Heq.
  rewrite Hload in Heq. vm_compute in Heq. discriminate Heq.
Qed.

Lemma Return_state_inj {S A} (a a' : A) (s s' : S) :
  Return a s = Return a' s' → s = s'.
Proof. by intros [= _ ->]. Qed.

Section RoundTripExample.
#[local] Existing Instance IEEE.binary64.
#[local] Existing Instance Example.eigen.
#[local] Existing Instance Example.kernels.
#[local] Existing Instance Example.matrix_io.

Lemma Example_noisy_trained_reachable : reachable Example.noisy_trained.
Proof.
  apply (reachable_after OpInitialize); [|reflexivity].
  apply (reachable_after
           (OpSetSigma (s_add (Example.d "0.1") (Example.d "0.2")))); [|reflexivity].
  apply Example_two_samples_reachable.
Qed.

(** The round trip on an engine trained by [Initialize], with the stand-in
    libraries: [Save] and [Load] return, the noise comes back as [0.3], and
    [operator==] returns [false]. *)
Lemma Save_Load_round_trip_loses_noise_witness :
  Save "m" (Example.noisy_trained, ∅) = Return tt Example.noisy_saved ∧
  Example.noisy_saved.2 !! "m-ParameterFile.txt"
    = Some (RegularFile "GaussianKernel 1 1 0.3 1 1 0") ∧
  GaussianProcess_Load Example.registry "m" (Example.fresh, Example.noisy_saved.2)
    = Return tt Example.noisy_loaded ∧
  m_Sigma Example.noisy_trained = S754_finite false 5404319552844596 (-54) ∧
  m_Sigma Example.noisy_loaded.1 = S754_finite false 5404319552844595 (-54) ∧
  operator_eq Example.noisy_trained Example.noisy_loaded.1 = Ok false ∧
  operator_eq Example.noisy_trained Example.noisy_loaded.1 ≠ Ok true.
Proof.
  pose proof (Save_Load_round_trip_loses_noise Example.noisy_trained Example.fresh
              Example.registry) as Hthm.
  cbv zeta in Hthm.
  assert (m_Initialized Example.noisy_trained = true) as H1 by (vm_compute; reflexivity).
  assert (k_tag <$> m_Kernel Example.noisy_trained = Some "GaussianKernel") as H2
    by (vm_compute; reflexivity).
  assert (k_params <$> m_Kernel Example.noisy_trained = Some [IEEE.double "1"]) as H3
    by (vm_compute; reflexivity).
  assert (m_Sigma Example.noisy_trained
          = SFadd 53 1024 (IEEE.double "0.1") (IEEE.double "0.2")) as H4
    by (vm_compute; reflexivity).
  assert (m_SampleVectors Example.noisy_trained
          = [[IEEE.double "0"]; [IEEE.double "1"]]) as H5 by (vm_compute; reflexivity).
  assert (m_LabelVectors Example.noisy_trained
          = [[IEEE.double "0"]; [IEEE.double "1"]]) as H6 by (vm_compute; reflexivity).
  assert (m_InputDimension Example.noisy_trained = 1) as H7 by (vm_compute; reflexivity).
  assert (m_OutputDimension Example.noisy_trained = 1) as H8 by (vm_compute; reflexivity).
  assert (debug Example.noisy_trained = false) as H9 by (vm_compute; reflexivity).
  destruct (Hthm H1 H2 H3 H4 H5 H6 H7 H8 H9) as (_ & _ & _ & fs1 & Hsave & _ & Hload).
  assert (returns (Save "m" (Example.noisy_trained, ∅)) = true) as HS
    by (vm_compute; reflexivity).
  apply (returns_after _ (Example.noisy_trained, ∅)) in HS.
  assert (returns (GaussianProcess_Load Example.registry "m"
                     (Example.fresh, Example.noisy_saved.2)) = true) as HL
    by (vm_compute; reflexivity).
  apply (returns_after _ (Example.fresh, Example.noisy_saved.2)) in HL.
  split; [exact HS|].
  split; [vm_compute; reflexivity|].
  split; [exact HL|].
  split; [vm_compute; reflexivity|].
  split; [vm_compute; reflexivity|].
  split; [vm_compute; reflexivity|].
  pose proof (Return_state_inj _ _ _ _ (eq_trans (eq_sym Hsave) HS)) as Hfs.
  apply (f_equal snd) in Hfs.
  change (fs1 = Example.noisy_saved.2) in Hfs.
  rewrite Hfs in Hload.
  exact (proj2 (Hload tt Example.noisy_loaded HL)).
Defined.
End RoundTripExample.

(** ** The frame and rejection statements on the test engines *)

Section FrameWitnesses.
#[local] Existing Instance IEEE.binary64.
#[local] Existing Instance Example.eigen.
#[local] Existing Instance Example.kernels.
#[local] Existing Instance Example.matrix_io.

Lemma Save_does_not_modify_engine_witness :
  Save "m" (Example.two_samples, ∅) = Raise SaveNotInitialized (Example.two_samples, ∅) ∧
  ∃ fs', Save "m" (Example.two_samples_trained, ∅)
         = Return tt (Example.two_samples_trained, fs').
Proof.
  split.
  - apply (Save_does_not_modify_engine "m" Example.two_samples ∅).
    vm_compute. reflexivity.
  - apply (proj2 (proj2 (proj2
             (Save_does_not_modify_engine "m" Example.two_samples_trained ∅)))
             1 1 Example.gaussian).
    + vm_compute. reflexivity.
    + vm_compute. discriminate.
    + vm_compute. repeat constructor.
    + vm_compute. discriminate.
    + vm_compute. repeat constructor.
    + reflexivity.
Defined.

End FrameWitnesses.

(** * Further properties *)

(** ** Repeated queries and the exceptions of the queries *)

Lemma returns_inv {S A} (o : outcome S A) :
  returns o = true → ∃ a s, o = Return a s.
Proof. destruct o; [by eexists _, _|done..]. Qed.

Ltac reads_only :=
  repeat (first
    [ apply preserves_bind;
        [apply unchanged_or_retrained_refl|apply unchanged_or_retrained_trans| |intros ?]
    | apply Initialize_unchanged_or_retrained
    | apply preserves_call, unchanged_or_retrained_refl
    | apply preserves_mret, unchanged_or_retrained_refl ]).

Section QueryOutcomes.
Context `{Scalar T} `{Eigen T} `{KernelLib T} `{MatrixIO T}.
Implicit Type e : GaussianProcess T.

Lemma Initialize_Return_flag e r e1 :
  Initialize e = Return r e1 → m_Initialized e1 = true ∧ Initialize e1 = Return tt e1.
Proof.
  intros HI. pose proof (Initialize_outcome e) as Ho. rewrite HI in Ho.
  assert (m_Initialized e1 = true) as Hi1.
  { destruct Ho as [[Hi ->]|(_ & C & R & _ & ->)]; done. }
  split; [done|]. unfold Initialize. by rewrite Hi1.
Qed.

(** A member function that starts with [Initialize] and then leaves the
    trained engine as it is. *)
Lemma query_repeatable {A} (q : method (GaussianProcess T) A) e a e1 :
  preserves unchanged_or_retrained q →
  (Initialize;;; q) e = Return a e1 →
  (Initialize;;; q) e1 = Return a e1.
Proof.
  intros Hq Hrun. unfold mbind' in *.
  destruct (Initialize e) as [[] s1|ex s1|] eqn:HI; [|done..].
  apply Initialize_Return_flag in HI as [Hi1 HI1].
  specialize (Hq s1). rewrite Hrun in Hq.
  destruct Hq as [->|[Hf _]]; [|congruence].
  by rewrite HI1.
Qed.

Lemma ComputeKernelVector_no_throw e x Kx ex :
  m_Initialized e = true → ComputeKernelVector e x Kx ≠ Throw ex.
Proof.
  intros Hi. unfold ComputeKernelVector. rewrite Hi. simpl.
  apply rfold_no_throw. intros v i. unfold deref, at_index, vec_write.
  repeat (first [case_decide | case_match]; simpl; try done).
Qed.

Lemma point_prediction_no_throw e (Kx : Vector T) ex : point_prediction e Kx ≠ Throw ex.
Proof.
  unfold point_prediction, mat_mul, vec_of_matrix.
  repeat (first [case_decide | case_match]; simpl; try done).
Qed.

Lemma posterior_covariance_no_throw e x y (Kx Ky : Vector T) ex :
  posterior_covariance e x y Kx Ky ≠ Throw ex.
Proof.
  unfold posterior_covariance, deref, mat_mul, scalar_of_matrix.
  repeat (first [case_decide | case_match]; simpl; try done).
Qed.

Lemma ComputeDifferenceMatrix_no_throw e x (X : Matrix T) ex :
  ComputeDifferenceMatrix e x X ≠ Throw ex.
Proof.
  unfold ComputeDifferenceMatrix. apply rfold_no_throw. intros M i.
  unfold at_index, vec_sub, mat_block_assign.
  repeat (first [case_decide | case_match]; simpl; try done).
Qed.

Lemma derivative_column_no_throw e (X : Matrix T) Kx D i ex :
  derivative_column e X Kx D i ≠ Throw ex.
Proof.
  unfold derivative_column, mat_get_col, cwiseProduct, mat_mul, mat_block_assign.
  repeat (first [case_decide | case_match]; simpl; try done).
Qed.

(** The check of one input after a successful [Initialize]. *)
Lemma CheckInputDimension_outcome e x msg_prefix :
  match CheckInputDimension e x msg_prefix with
  | Ok _ => length x = m_InputDimension e
  | Throw ex =>
      length x ≠ m_InputDimension e ∧
      ex = InputDimensionError msg_prefix (length x) (m_InputDimension e)
  | Undefined => False
  end.
Proof.
  unfold CheckInputDimension. case_decide as Hx; [done|].
  destruct (decide (length x = m_InputDimension e)); [done|]. by destruct Hx.
Qed.

Lemma unchanged_or_retrained_dimension e e' :
  unchanged_or_retrained e e' → m_InputDimension e' = m_InputDimension e.
Proof. by intros [->|(_ & C & R & _ & ->)]. Qed.

(** The failures of a query that runs [Initialize], checks the inputs
    [inputs] one after the other and then computes without throwing. *)
Lemma query_failure_Initialize {A} msg_prefix inputs (q : method (GaussianProcess T) A)
    e ex e' :
  (∀ s, m_Initialized s = true → unchanged_or_retrained e s →
        ∀ ex' s', q s = Raise ex' s' → query_failure msg_prefix inputs e ex' s') →
  (Initialize;;; q) e = Raise ex e' →
  query_failure msg_prefix inputs e ex e'.
Proof.
  intros Hq. unfold mbind'.
  pose proof (Initialize_outcome e) as Ho.
  pose proof (Initialize_unchanged_or_retrained e) as Hrel.
  destruct (Initialize e) as [[] s1|ex1 s1|] eqn:HI; [| |done].
  - apply Initialize_Return_flag in HI as [Hi1 _]. by apply Hq.
  - intros [= -> ->]. destruct Ho as (-> & Hi & Hcase). by left.
Qed.

Lemma check_then {A} msg_prefix inputs x (q : method (GaussianProcess T) A) e s ex s' :
  m_Initialized s = true → unchanged_or_retrained e s → x ∈ inputs →
  (length x = m_InputDimension e →
   ∀ ex' s'', q s = Raise ex' s'' → query_failure msg_prefix inputs e ex' s'') →
  (call (λ e, CheckInputDimension e x msg_prefix);;; q) s = Raise ex s' →
  query_failure msg_prefix inputs e ex s'.
Proof.
  intros Hi Hrel Hin Hq. unfold mbind', call.
  pose proof (CheckInputDimension_outcome s x msg_prefix) as Hc.
  rewrite (unchanged_or_retrained_dimension e s Hrel) in Hc.
  destruct (CheckInputDimension s x msg_prefix) as [[]|ex1|]; [| |done].
  - by apply Hq.
  - intros [= -> ->]. destruct Hc as [Hne ->]. right. split; [done|]. split; [done|].
    by exists x.
Qed.

Lemma call_no_throw {A B} (f : GaussianProcess T → result A)
    (k : A → method (GaussianProcess T) B) s ex s' :
  (∀ ex', f s ≠ Throw ex') →
  (a <~ call f;; k a) s = Raise ex s' →
  ∃ a, f s = Ok a ∧ k a s = Raise ex s'.
Proof.
  intros Hf. unfold mbind', call. destruct (f s) as [a|ex1|] eqn:Hfs; [|by destruct (Hf ex1)|done].
  intros Hk. by exists a.
Qed.

Lemma call_last_no_throw {A} (f : GaussianProcess T → result A) s ex s' :
  (∀ ex', f s ≠ Throw ex') → call f s ≠ Raise ex s'.
Proof.
  intros Hf. unfold call. destruct (f s) as [a|ex1|] eqn:Hfs; [done|by destruct (Hf ex1)|done].
Qed.

Lemma Predict_failure x e ex e' :
  Predict x e = Raise ex e' → query_failure "GaussianProcess::Predict: " [x] e ex e'.
Proof.
  apply query_failure_Initialize. intros s Hi Hrel ex' s'.
  apply check_then; [done|done|set_solver|]. intros _ ex'' s'' Hrun.
  apply call_no_throw in Hrun as (Kx & _ & Hrun);
    [|intros ?; by apply ComputeKernelVector_no_throw].
  exfalso. revert Hrun. apply call_last_no_throw. intros ?. apply point_prediction_no_throw.
Qed.

Lemma PredictDerivative_failure x D e ex e' :
  PredictDerivative x D e = Raise ex e' →
  query_failure "GaussianProcess::PredictDerivative: " [x] e ex e'.
Proof.
  apply query_failure_Initialize. intros s Hi Hrel ex' s'.
  apply check_then; [done|done|set_solver|]. intros _ ex'' s'' Hrun.
  apply call_no_throw in Hrun as (Kx & _ & Hrun);
    [|intros ?; by apply ComputeKernelVector_no_throw].
  apply call_no_throw in Hrun as (X & _ & Hrun);
    [|intros ?; by apply ComputeDifferenceMatrix_no_throw].
  apply call_no_throw in Hrun as (D' & _ & Hrun);
    [|intros ?; apply rfold_no_throw; intros ??; apply derivative_column_no_throw].
  apply call_no_throw in Hrun as (p & _ & Hrun);
    [|intros ?; by apply point_prediction_no_throw].
  done.
Qed.

Lemma operator_call_trained_failure msg_prefix inputs x y e s ex s' :
  m_Initialized s = true → unchanged_or_retrained e s →
  length x = m_InputDimension e → length y = m_InputDimension e →
  operator_call x y s = Raise ex s' → query_failure msg_prefix inputs e ex s'.
Proof.
  intros Hi Hrel Hx Hy. unfold operator_call, mbind' at 1.
  unfold Initialize at 1. rewrite Hi.
  unfold mbind' at 1, call at 1.
  pose proof (CheckInputDimension_outcome s x "GaussianProcess::(): ") as Hc.
  rewrite (unchanged_or_retrained_dimension e s Hrel) in Hc.
  destruct (CheckInputDimension s x _) as [[]|ex1|]; [|by destruct Hc|done].
  unfold mbind' at 1, call at 1.
  pose proof (CheckInputDimension_outcome s y "GaussianProcess::(): ") as Hc'.
  rewrite (unchanged_or_retrained_dimension e s Hrel) in Hc'.
  destruct (CheckInputDimension s y _) as [[]|ex1|]; [|by destruct Hc'|done].
  intros Hrun.
  apply call_no_throw in Hrun as (Kx & _ & Hrun);
    [|intros ?; by apply ComputeKernelVector_no_throw].
  apply call_no_throw in Hrun as (Ky & _ & Hrun);
    [|intros ?; by apply ComputeKernelVector_no_throw].
  exfalso. revert Hrun. apply call_last_no_throw. intros ?.
  apply posterior_covariance_no_throw.
Qed.

Lemma operator_call_failure x y e ex e' :
  operator_call x y e = Raise ex e' → query_failure "GaussianProcess::(): " [x; y] e ex e'.
Proof.
  apply query_failure_Initialize. intros s Hi Hrel ex' s'.
  apply check_then; [done|done|set_solver|]. intros Hx ex'' s''.
  apply check_then; [done|done|set_solver|]. intros Hy ex3 s3 Hrun.
  apply call_no_throw in Hrun as (Kx & _ & Hrun);
    [|intros ?; by apply ComputeKernelVector_no_throw].
  apply call_no_throw in Hrun as (Ky & _ & Hrun);
    [|intros ?; by apply ComputeKernelVector_no_throw].
  exfalso. revert Hrun. apply call_last_no_throw. intros ?.
  apply posterior_covariance_no_throw.
Qed.

Lemma GetCredibleInterval_failure x e ex e' :
  GetCredibleInterval x e = Raise ex e' →
  query_failure "GaussianProcess::GetCredibleIntervall: " [x] e ex e'.
Proof.
  apply query_failure_Initialize. intros s Hi Hrel ex' s'.
  apply check_then; [done|done|set_solver|]. intros Hx ex'' s''.
  unfold mbind' at 1.
  destruct (operator_call x x s) as [c s1|ex1 s1|] eqn:Hcall; [done| |done].
  intros [= -> ->]. by eapply operator_call_trained_failure.
Qed.
End QueryOutcomes.

(** X1. A call of [Initialize] or of a query that returned, made again
    with the same arguments in the state it left, returns the same value
    and leaves that state as it is: the engine is trained once and the
    queries only read it. *)
Theorem queries_repeatable `{Scalar T} `{Eigen T} `{KernelLib T} `{MatrixIO T}
    (e e1 : GaussianProcess T) (x y : Vector T) (D : Matrix T) :
  (∀ r, Initialize e = Return r e1 → Initialize e1 = Return tt e1) ∧
  (∀ p, Predict x e = Return p e1 → Predict x e1 = Return p e1) ∧
  (∀ p, PredictDerivative x D e = Return p e1 → PredictDerivative x D e1 = Return p e1) ∧
  (∀ c, operator_call x y e = Return c e1 → operator_call x y e1 = Return c e1) ∧
  (∀ c, GetCredibleInterval x e = Return c e1 → GetCredibleInterval x e1 = Return c e1).
Proof.
  split; [intros r HI; by apply Initialize_Return_flag in HI as [_ ?]|].
  repeat apply conj; intros a; apply query_repeatable;
    unfold operator_call; reads_only.
Qed.

(** X2. The queries throw in two situations only. [Initialize] finds no
    sample or no label on an untrained engine: the exception has the kind
    [UntrainedState] and the engine is exactly as it was. Or an input has
    not the size [D_in]: the exception is the dimension exception of that
    query, and the engine is trained, because the check follows
    [Initialize]. The not-initialized exception of [ComputeKernelVector]
    and the no-labels exception of [ComputeLabelMatrix] never leave a
    query. *)
Theorem queries_throw_only `{Scalar T} `{Eigen T} `{KernelLib T} `{MatrixIO T}
    (e e' : GaussianProcess T) (x y : Vector T) (D : Matrix T) (ex : Exception) :
  (Predict x e = Raise ex e' →
   query_failure "GaussianProcess::Predict: " [x] e ex e') ∧
  (PredictDerivative x D e = Raise ex e' →
   query_failure "GaussianProcess::PredictDerivative: " [x] e ex e') ∧
  (operator_call x y e = Raise ex e' →
   query_failure "GaussianProcess::(): " [x; y] e ex e') ∧
  (GetCredibleInterval x e = Raise ex e' →
   query_failure "GaussianProcess::GetCredibleIntervall: " [x] e ex e') ∧
  (∀ msg_prefix inputs, query_failure msg_prefix inputs e ex e' →
     ex ≠ KernelVectorNotInitialized ∧ ex ≠ NoOutputLabelsInComputation ∧
     ((kind_of ex = UntrainedState ∧ e' = e ∧ m_Initialized e = false) ∨
      (kind_of ex = DimensionMismatch ∧ m_Initialized e' = true))).
Proof.
  split; [apply Predict_failure|].
  split; [apply PredictDerivative_failure|].
  split; [apply operator_call_failure|].
  split; [apply GetCredibleInterval_failure|].
  intros msg_prefix inputs [(-> & Hi & [[-> _]|[-> _]])|(_ & Hi & u & _ & _ & ->)].
  - split; [done|]. split; [done|]. by left.
  - split; [done|]. split; [done|]. by left.
  - split; [done|]. split; [done|]. by right.
Qed.

Section QueryWitnesses.
#[local] Existing Instance IEEE.binary64.
#[local] Existing Instance Example.eigen.
#[local] Existing Instance Example.kernels.
#[local] Existing Instance Example.matrix_io.

Lemma queries_repeatable_witness :
  ∃ p e1, Predict [Example.d "0.5"] Example.two_samples = Return p e1 ∧
          Predict [Example.d "0.5"] e1 = Return p e1.
Proof.
  destruct (returns_inv (Predict [Example.d "0.5"] Example.two_samples))
    as (p & e1 & Hp); [vm_compute; reflexivity|].
  exists p, e1. split; [exact Hp|].
  exact (proj1 (proj2 (queries_repeatable Example.two_samples e1
                         [Example.d "0.5"] [] mat_empty)) p Hp).
Defined.

Lemma queries_throw_only_witness :
  query_failure "GaussianProcess::Predict: " [[Example.d "0.5"; Example.d "0.5"]]
    Example.two_samples (InputDimensionError "GaussianProcess::Predict: " 2 1)
    (after (Predict [Example.d "0.5"; Example.d "0.5"] Example.two_samples)
       Example.two_samples).
Proof.
  apply (proj1 (queries_throw_only Example.two_samples _
                  [Example.d "0.5"; Example.d "0.5"] [] mat_empty _)).
  apply thrown_after. vm_compute. reflexivity.
Defined.
End QueryWitnesses.

(** ** The shape of the cached matrices *)

Section TrainedShape.
Context `{Scalar T} `{Eigen T} `{KernelLib T} `{MatrixIO T}.
Context {ED : EigenDimensions}.
Implicit Type e : GaussianProcess T.

(** A trained engine that satisfies the invariants has a sample. *)
Lemma trained_has_samples e :
  engine_wf e → m_Initialized e = true →
  m_SampleVectors e ≠ [] ∧ m_LabelVectors e ≠ [].
Proof.
  intros (_ & Hlen & _ & _ & Hc) Hi.
  destruct (Hc Hi) as (K0 & K & Y & _ & _ & _ & HY & _).
  assert (m_LabelVectors e ≠ []) as Hl.
  { intros Hnil. unfold ComputeLabelMatrix in HY. rewrite Hnil in HY.
    by rewrite decide_True in HY by (simpl; lia). }
  split; [|done]. intros Hnil. rewrite Hnil in Hlen.
  destruct (m_LabelVectors e); done.
Qed.

(** The constructor establishes the invariants for every strategy, and the
    operations keep them. *)
Lemma engine_wf_construct_with strategy (k : Kernel T) :
  engine_wf (construct_with strategy (Some k)).
Proof. unfold engine_wf. simpl. by repeat split; eauto. Qed.

Lemma produced_engine_wf e0 e : engine_wf e0 → produced e0 e → engine_wf e.
Proof.
  intros Hwf. induction 1 as [|op e e' _ IH Hrun]; [done|].
  by eapply engine_wf_run_op.
Qed.

(** No operation changes the strategy. *)
Lemma produced_strategy e0 e : produced e0 e → m_InvMethod e = m_InvMethod e0.
Proof.
  induction 1 as [|op e e' Hp IH Hrun]; [done|].
  rewrite <- IH. clear IH.
  assert (∀ s s' : GaussianProcess T,
            unchanged_or_retrained s s' → m_InvMethod s' = m_InvMethod s) as Hrel.
  { intros s s' [->|(_ & C & R & _ & ->)]; done. }
  destruct op; simpl in Hrun.
  - unfold AddSample, mbind', call, assign, CheckInputDimension, CheckOutputDimension in Hrun.
    simpl in Hrun. repeat case_decide; simplify_eq/=; done.
  - by injection Hrun as <-.
  - by injection Hrun as <-.
  - apply Hrel. by apply (run_op_calls_Initialize OpInitialize).
  - apply Hrel. by apply (run_op_calls_Initialize (OpPredict x)).
  - apply Hrel. by apply (run_op_calls_Initialize (OpPredictDerivative x D)).
  - apply Hrel. by apply (run_op_calls_Initialize (OpCall x y)).
  - apply Hrel. by apply (run_op_calls_Initialize (OpGetCredibleInterval x)).
Qed.
End TrainedShape.

(** X3. Take an engine that the constructor has built with a kernel and
    with any of the four inversion strategies, and any engine that
    [AddSample], [SetSigma], [DebugOn], [Initialize] and the queries
    produce from it ([Load] is not among these operations). The strategy
    is still the one of the start. If the trained flag is set, the engine
    has at least one sample, as many labels as samples, a core matrix of
    [n] rows and [n] columns and a matrix of regression coefficients of
    [n] rows and [D_out] columns. *)
Theorem reachable_trained_shape `{Scalar T} `{Eigen T} `{KernelLib T} `{MatrixIO T}
    {ED : EigenDimensions} (strategy : InversionMethod) (k : Kernel T)
    (e : GaussianProcess T) :
  produced (construct_with strategy (Some k)) e →
  m_InvMethod e = strategy ∧
  (m_Initialized e = true →
   let n := GetNumberOfSamples e in
   0 < n ∧ length (m_LabelVectors e) = n ∧
   mrows (m_CoreMatrix e) = n ∧ mcols (m_CoreMatrix e) = n ∧
   mrows (m_RegressionVectors e) = n ∧
   mcols (m_RegressionVectors e) = m_OutputDimension e).
Proof.
  intros Hr.
  pose proof (produced_engine_wf _ e (engine_wf_construct_with strategy k) Hr) as Hwf.
  split; [exact (produced_strategy _ e Hr)|].
  intros Hi.
  destruct (trained_has_samples e Hwf Hi) as [Hs _].
  destruct (consistent_dims e Hwf Hs Hi) as (? & ? & ? & ?).
  destruct Hwf as (_ & Hlen & _). cbv zeta. unfold GetNumberOfSamples.
  repeat apply conj; try done.
  destruct (m_SampleVectors e); [done|simpl; lia].
Qed.

(** ** The debug flag *)

Section DebugFlag.
Context `{Scalar T} `{Eigen T} `{KernelLib T} `{MatrixIO T}.
Context {ED : EigenDimensions}.
Implicit Type e : GaussianProcess T.

Lemma Initialize_debug e b :
  engine_wf e →
  Initialize (set_debug b e) = map_state (set_debug b) (Initialize e).
Proof.
  intros Hwf. destruct (m_Initialized e) eqn:Hi.
  { unfold Initialize. simpl. by rewrite Hi. }
  destruct (decide (m_SampleVectors e = [])) as [Hs|Hs].
  { unfold Initialize. cbn [set_debug m_Initialized m_SampleVectors].
    rewrite Hi, Hs. by rewrite decide_True by (simpl; lia). }
  destruct Hwf as ([k Hk] & Hlen & _ & HlF & _).
  destruct (Initialize_retrains e k Hi Hk Hs Hlen HlF) as (C & R & HI & HC & HR & _).
  destruct (Initialize_retrains (set_debug b e) k Hi Hk Hs Hlen HlF)
    as (C' & R' & HI' & HC' & HR' & _).
  change (invert (m_InvMethod e)
            (RegularizedGramMatrix k (m_SampleVectors e) (m_Sigma e)) = Ok C') in HC'.
  rewrite HC in HC'. injection HC' as <-.
  change (mat_mul C (mkMatrix (length (m_LabelVectors e)) (m_OutputDimension e)
                       (m_LabelVectors e)) = Ok R') in HR'.
  rewrite HR in HR'. injection HR' as <-.
  by rewrite HI, HI'.
Qed.

(** A computation that does not read the debug flag. *)
Lemma call_debug {A} (f : GaussianProcess T → result A) b s :
  f (set_debug b s) = f s →
  call f (set_debug b s) = map_state (set_debug b) (call f s).
Proof. intros Hf. unfold call. rewrite Hf. by destruct (f s). Qed.

Lemma bind_debug {A B} (m : method (GaussianProcess T) A)
    (k : A → method (GaussianProcess T) B) b s :
  m (set_debug b s) = map_state (set_debug b) (m s) →
  (∀ a s', k a (set_debug b s') = map_state (set_debug b) (k a s')) →
  (a <~ m;; k a) (set_debug b s) = map_state (set_debug b) ((a <~ m;; k a) s).
Proof.
  intros Hm Hk. unfold mbind'. rewrite Hm. destruct (m s); simpl; [apply Hk|done..].
Qed.

Lemma bind_debug_reached {A B} (m : method (GaussianProcess T) A)
    (k : A → method (GaussianProcess T) B) b s :
  m (set_debug b s) = map_state (set_debug b) (m s) →
  (∀ a s', m s = Return a s' → k a (set_debug b s') = map_state (set_debug b) (k a s')) →
  (a <~ m;; k a) (set_debug b s) = map_state (set_debug b) ((a <~ m;; k a) s).
Proof.
  intros Hm Hk. unfold mbind'. rewrite Hm.
  destruct (m s) eqn:Hms; simpl; [by apply Hk|done..].
Qed.

Lemma operator_call_debug x y b s :
  engine_wf s →
  operator_call x y (set_debug b s) = map_state (set_debug b) (operator_call x y s).
Proof.
  intros Hwf. unfold operator_call.
  apply bind_debug; [by apply Initialize_debug|]. intros _ s1.
  repeat (apply bind_debug; [by apply call_debug|]; intros ??).
  by apply call_debug.
Qed.
Lemma GetCredibleInterval_debug x b s :
  engine_wf s →
  GetCredibleInterval x (set_debug b s) = map_state (set_debug b) (GetCredibleInterval x s).
Proof.
  intros Hwf. unfold GetCredibleInterval.
  apply bind_debug_reached; [by apply Initialize_debug|]. intros [] s1 HI.
  assert (engine_wf s1) as Hwf1.
  { eapply engine_wf_unchanged_or_retrained; [exact Hwf|].
    pose proof (Initialize_unchanged_or_retrained s) as Hp. by rewrite HI in Hp. }
  apply bind_debug_reached; [by apply call_debug|]. intros [] s2 Hc.
  assert (s2 = s1) as Heq.
  { unfold call in Hc. destruct (CheckInputDimension s1 x _); congruence. }
  subst s2.
  apply bind_debug; [by apply operator_call_debug|]. done.
Qed.
End DebugFlag.

(** X4. The debug flag changes no result: on an engine that satisfies the
    invariants of the data model, [Initialize] and the four queries started
    with the flag set to [b] return the same value, or throw the same
    exception, as without, and end in the same state up to the flag. In
    particular the inversion error that the debug mode computes never
    fails an assertion of Eigen. [DebugOn] sets the flag and nothing else. *)
Theorem debug_flag_changes_no_result `{Scalar T} `{Eigen T} `{KernelLib T} `{MatrixIO T}
    {ED : EigenDimensions} (e : GaussianProcess T) (x y : Vector T) (D : Matrix T) (b : bool) :
  engine_wf e →
  DebugOn e = Return tt (set_debug true e) ∧
  Initialize (set_debug b e) = map_state (set_debug b) (Initialize e) ∧
  Predict x (set_debug b e) = map_state (set_debug b) (Predict x e) ∧
  PredictDerivative x D (set_debug b e)
    = map_state (set_debug b) (PredictDerivative x D e) ∧
  operator_call x y (set_debug b e) = map_state (set_debug b) (operator_call x y e) ∧
  GetCredibleInterval x (set_debug b e)
    = map_state (set_debug b) (GetCredibleInterval x e).
Proof.
  intros Hwf. split; [done|].
  split; [by apply Initialize_debug|].
  split.
  { unfold Predict. apply bind_debug; [by apply Initialize_debug|]. intros _ s1.
    repeat (apply bind_debug; [by apply call_debug|]; intros ??).
    by apply call_debug. }
  split.
  { unfold PredictDerivative. apply bind_debug; [by apply Initialize_debug|]. intros _ s1.
    repeat (apply bind_debug; [by apply call_debug|]; intros ??). done. }
  split; [by apply operator_call_debug|by apply GetCredibleInterval_debug].
Qed.

Section ShapeWitnesses.
#[local] Existing Instance IEEE.binary64.
#[local] Existing Instance Example.eigen.
#[local] Existing Instance Example.kernels.
#[local] Existing Instance Example.matrix_io.
#[local] Existing Instance Example_eigen_dimensions.

Lemma produced_after e0 op (e : GaussianProcess spec_float) {A}
    (o : outcome (GaussianProcess spec_float) A) :
  produced e0 e → run_op op e = final_state o → produced e0 (after o e).
Proof.
  intros Hr Hrun. destruct o as [a e'|ex e'|]; simpl in *; [| |done].
  - by apply (produced_step e0 op e).
  - by apply (produced_step e0 op e).
Qed.

Lemma Example_jacobi_trained_produced :
  produced (construct_with JacobiSVD (Some Example.gaussian)) MoreExamples.jacobi_trained.
Proof.
  apply (produced_after _ OpInitialize); [|reflexivity].
  apply (produced_after _ (OpAddSample [Example.d "0"] [Example.d "1"])); [|reflexivity].
  apply produced_start.
Qed.

Lemma reachable_trained_shape_witness :
  m_InvMethod MoreExamples.jacobi_trained = JacobiSVD ∧
  m_Initialized MoreExamples.jacobi_trained = true ∧
  GetNumberOfSamples MoreExamples.jacobi_trained = 1 ∧
  mrows (m_CoreMatrix MoreExamples.jacobi_trained) = 1 ∧
  mcols (m_RegressionVectors MoreExamples.jacobi_trained) = 1.
Proof.
  destruct (reachable_trained_shape JacobiSVD Example.gaussian MoreExamples.jacobi_trained
              Example_jacobi_trained_produced) as [Hm Hshape].
  assert (m_Initialized MoreExamples.jacobi_trained = true) as Hi
    by (vm_compute; reflexivity).
  destruct (Hshape Hi) as (_ & _ & Hr & _ & _ & Hc).
  split; [exact Hm|]. split; [exact Hi|]. split; [vm_compute; reflexivity|].
  split; [exact Hr|exact Hc].
Defined.

Lemma debug_flag_changes_no_result_witness :
  Predict [Example.d "0.5"] (set_debug true Example.two_samples)
    = map_state (set_debug true) (Predict [Example.d "0.5"] Example.two_samples).
Proof.
  destruct (debug_flag_changes_no_result Example.two_samples
              [Example.d "0.5"] [] mat_empty true Example_two_samples_wf)
    as (_ & _ & Hp & _).
  exact Hp.
Defined.
End ShapeWitnesses.

(** ** [operator==] *)

Section EqualityOutcomes.
Context `{Scalar T} `{Eigen T} `{KernelLib T} `{MatrixIO T}.
Implicit Types a b : GaussianProcess T.

Lemma matrices_differ_no_throw (A B : Matrix T) ex : matrices_differ A B ≠ Throw ex.
Proof. unfold matrices_differ, mat_sub. by case_decide. Qed.

Lemma vectors_differ_Ok (u v : Vector T) d :
  vectors_differ u v = Ok d ↔
  length u = length v ∧ d = s_ltb s_zero (vec_norm (zip_with s_sub u v)).
Proof.
  unfold vectors_differ, vec_sub. case_decide as Hlen; simpl.
  - split; [by intros [= <-]|by intros [_ ->]].
  - split; [done|by intros [? _]].
Qed.

Lemma any_vectors_differ_no_throw (us vs : list (Vector T)) i n ex :
  any_vectors_differ us vs i n ≠ Throw ex.
Proof.
  revert i. induction n as [|n IH]; intros i; simpl; [done|].
  unfold at_index, vectors_differ, vec_sub.
  destruct (us !! i); simpl; [|done]. destruct (vs !! i); simpl; [|done].
  case_decide; simpl; [|done]. destruct (s_ltb _ _); [done|apply IH].
Qed.

(** The loop returns [false] only if it has compared every pair. *)
Lemma any_vectors_differ_false (us vs : list (Vector T)) i n :
  any_vectors_differ us vs i n = Ok false →
  ∀ j, i ≤ j < i + n →
    ∃ u v, us !! j = Some u ∧ vs !! j = Some v ∧ length u = length v ∧
           s_ltb s_zero (vec_norm (zip_with s_sub u v)) = false.
Proof.
  revert i. induction n as [|n IH]; intros i; simpl; [intros _ j; lia|].
  unfold at_index. destruct (us !! i) as [u|] eqn:Hu; simpl; [|done].
  destruct (vs !! i) as [v|] eqn:Hv; simpl; [|done].
  destruct (vectors_differ u v) as [d| |] eqn:Hd; simpl; [|done..].
  apply vectors_differ_Ok in Hd as [Hlen ->].
  destruct (s_ltb _ _) eqn:Hlt; [done|]. intros Hrest j Hj.
  destruct (decide (j = i)) as [->|Hne]; [by exists u, v|].
  apply (IH (S i) Hrest). lia.
Qed.

Lemma operator_eq_no_throw a b ex : operator_eq a b ≠ Throw ex.
Proof.
  unfold operator_eq.
  destruct (matrices_differ (m_RegressionVectors a) _) as [[]| |] eqn:HR; simpl;
    [done| |by apply matrices_differ_no_throw in HR|done].
  destruct (matrices_differ (m_CoreMatrix a) _) as [[]| |] eqn:HC; simpl;
    [done| |by apply matrices_differ_no_throw in HC|done].
  case_decide; [done|].
  destruct (any_vectors_differ (m_SampleVectors a) _ _ _) as [[]| |] eqn:HS; simpl;
    [done| |by apply any_vectors_differ_no_throw in HS|done].
  case_decide; [done|].
  destruct (any_vectors_differ (m_LabelVectors a) _ _ _) as [[]| |] eqn:HL; simpl;
    [done| |by apply any_vectors_differ_no_throw in HL|done].
  unfold deref. destruct (m_Kernel a); simpl; [|done].
  destruct (m_Kernel b); simpl; [|done].
  repeat (first [case_decide | case_match]; simpl; try done).
Qed.

Lemma operator_eq_true a b :
  operator_eq a b = Ok true →
  matrices_differ (m_RegressionVectors a) (m_RegressionVectors b) = Ok false ∧
  matrices_differ (m_CoreMatrix a) (m_CoreMatrix b) = Ok false ∧
  length (m_SampleVectors a) = length (m_SampleVectors b) ∧
  any_vectors_differ (m_SampleVectors a) (m_SampleVectors b) 0
    (length (m_SampleVectors a)) = Ok false ∧
  length (m_LabelVectors a) = length (m_LabelVectors b) ∧
  any_vectors_differ (m_LabelVectors a) (m_LabelVectors b) 0
    (length (m_LabelVectors a)) = Ok false ∧
  (∃ ka kb, m_Kernel a = Some ka ∧ m_Kernel b = Some kb ∧ kernel_neq ka kb = false) ∧
  s_eqb (m_Sigma a) (m_Sigma b) = true ∧
  m_Initialized a = m_Initialized b ∧
  m_InputDimension a = m_InputDimension b ∧
  m_OutputDimension a = m_OutputDimension b ∧
  debug a = debug b.
Proof.
  unfold operator_eq.
  destruct (matrices_differ (m_RegressionVectors a) _) as [[]| |]; simpl; [done| |done..].
  destruct (matrices_differ (m_CoreMatrix a) _) as [[]| |]; simpl; [done| |done..].
  case_decide as Hns; [done|].
  destruct (any_vectors_differ (m_SampleVectors a) _ _ _) as [[]| |]; simpl; [done| |done..].
  case_decide as Hnl; [done|].
  destruct (any_vectors_differ (m_LabelVectors a) _ _ _) as [[]| |]; simpl; [done| |done..].
  unfold deref. destruct (m_Kernel a) as [ka|]; simpl; [|done].
  destruct (m_Kernel b) as [kb|]; simpl; [|done].
  destruct (kernel_neq ka kb) eqn:Hk; [done|].
  destruct (s_eqb (m_Sigma a) (m_Sigma b)) eqn:Hsig; simpl; [|done].
  destruct (eqb (m_Initialized a) (m_Initialized b)) eqn:Hi; simpl; [|done].
  case_decide as Hdi; [done|]. case_decide as Hdo; [done|].
  destruct (eqb (debug a) (debug b)) eqn:Hdbg; simpl; [|done]. intros _.
  apply eqb_prop in Hi, Hdbg.
  repeat apply conj; try done. by exists ka, kb.
Qed.
End EqualityOutcomes.

(** X5. [operator==] subtracts the matrices of regression coefficients
    before it compares the numbers of samples. For two trained engines
    that satisfy the invariants of the data model and hold different
    numbers of samples the subtraction is applied to matrices of different
    dimensions: the comparison fails an assertion of Eigen and returns
    neither [true] nor [false], and so does [operator!=]. No comparison
    throws an exception. *)
Theorem operator_eq_different_sample_counts
    `{Scalar T} `{Eigen T} `{KernelLib T} `{MatrixIO T} {ED : EigenDimensions}
    (a b : GaussianProcess T) :
  engine_wf a → engine_wf b → m_Initialized a = true → m_Initialized b = true →
  GetNumberOfSamples a ≠ GetNumberOfSamples b →
  operator_eq a b = Undefined ∧ operator_neq a b = Undefined ∧
  ∀ (a' b' : GaussianProcess T) ex,
    operator_eq a' b' ≠ Throw ex ∧ operator_neq a' b' ≠ Throw ex.
Proof.
  intros Hwa Hwb Hia Hib Hn.
  destruct (trained_has_samples a Hwa Hia) as [Hsa _].
  destruct (trained_has_samples b Hwb Hib) as [Hsb _].
  destruct (consistent_dims a Hwa Hsa Hia) as (_ & _ & HRa & _).
  destruct (consistent_dims b Hwb Hsb Hib) as (_ & _ & HRb & _).
  assert (operator_eq a b = Undefined) as Heq.
  { unfold operator_eq, matrices_differ, mat_sub.
    rewrite decide_False; [done|]. rewrite HRa, HRb. intros [? _]. by apply Hn. }
  split; [done|]. split; [unfold operator_neq; by rewrite Heq|].
  intros a' b' ex. split; [apply operator_eq_no_throw|].
  unfold operator_neq. pose proof (operator_eq_no_throw a' b' ex).
  by destruct (operator_eq a' b').
Qed.

(** X6. What [operator==] guarantees when it returns [true]: the
    differences of the two matrices of regression coefficients and of the
    two core matrices have a norm that is not above zero; the engines hold
    the same number of samples and of labels, and every pair of samples and
    of labels has one size and a difference whose norm is not above zero;
    both engines have a kernel and [Kernel::operator!=] returns [false] on
    them; the noises compare equal; the trained flags, the two dimensions
    and the debug flags are equal; and [operator!=] returns [false]. The
    inversion strategy is not compared. *)
Theorem operator_eq_true_guarantees `{Scalar T} `{Eigen T} `{KernelLib T} `{MatrixIO T}
    (a b : GaussianProcess T) :
  operator_eq a b = Ok true →
  operator_neq a b = Ok false ∧
  matrices_differ (m_RegressionVectors a) (m_RegressionVectors b) = Ok false ∧
  matrices_differ (m_CoreMatrix a) (m_CoreMatrix b) = Ok false ∧
  GetNumberOfSamples a = GetNumberOfSamples b ∧
  length (m_LabelVectors a) = length (m_LabelVectors b) ∧
  (∀ i, i < GetNumberOfSamples a →
     ∃ u v, m_SampleVectors a !! i = Some u ∧ m_SampleVectors b !! i = Some v ∧
            length u = length v ∧
            s_ltb s_zero (vec_norm (zip_with s_sub u v)) = false) ∧
  (∀ i, i < length (m_LabelVectors a) →
     ∃ u v, m_LabelVectors a !! i = Some u ∧ m_LabelVectors b !! i = Some v ∧
            length u = length v ∧
            s_ltb s_zero (vec_norm (zip_with s_sub u v)) = false) ∧
  (∃ ka kb, m_Kernel a = Some ka ∧ m_Kernel b = Some kb ∧ kernel_neq ka kb = false) ∧
  s_eqb (m_Sigma a) (m_Sigma b) = true ∧
  m_Initialized a = m_Initialized b ∧
  m_InputDimension a = m_InputDimension b ∧
  m_OutputDimension a = m_OutputDimension b ∧
  debug a = debug b.
Proof.
  intros Heq.
  destruct (operator_eq_true a b Heq)
    as (HR & HC & Hns & Hs & Hnl & Hl & Hk & Hsig & Hi & Hdi & Hdo & Hdbg).
  split; [unfold operator_neq; by rewrite Heq|].
  repeat apply conj; try done.
  - intros i Hi'. apply (any_vectors_differ_false _ _ 0 _ Hs).
    unfold GetNumberOfSamples in Hi'. lia.
  - intros i Hi'. apply (any_vectors_differ_false _ _ 0 _ Hl). lia.
Qed.

Section EqualityWitnesses.
#[local] Existing Instance IEEE.binary64.
#[local] Existing Instance Example.eigen.
#[local] Existing Instance Example.kernels.
#[local] Existing Instance Example.matrix_io.
#[local] Existing Instance Example_eigen_dimensions.

Lemma Example_one_sample_trained_reachable : reachable MoreExamples.one_sample_trained.
Proof.
  apply (reachable_after OpInitialize); [|reflexivity].
  apply (reachable_after (OpAddSample [Example.d "0"] [Example.d "1"])); [|reflexivity].
  apply reachable_construct.
Qed.

Lemma operator_eq_different_sample_counts_witness :
  operator_eq Example.two_samples_trained MoreExamples.one_sample_trained = Undefined.
Proof.
  destruct (operator_eq_different_sample_counts
              Example.two_samples_trained MoreExamples.one_sample_trained)
    as (Heq & _).
  - apply reachable_engine_wf, Example_two_samples_trained_reachable.
  - apply reachable_engine_wf, Example_one_sample_trained_reachable.
  - vm_compute. reflexivity.
  - vm_compute. reflexivity.
  - vm_compute. discriminate.
  - exact Heq.
Defined.

Lemma operator_eq_true_guarantees_witness :
  operator_neq Example.two_samples_trained Example.two_samples_trained = Ok false.
Proof.
  destruct (operator_eq_true_guarantees
              Example.two_samples_trained Example.two_samples_trained) as (Hneq & _).
  - vm_compute. reflexivity.
  - exact Hneq.
Defined.
End EqualityWitnesses.

(** ** Sequences of [AddSample] *)

Section AddSamples.
Context `{Scalar T} `{Eigen T} `{KernelLib T} `{MatrixIO T}.
Implicit Type e : GaussianProcess T.
Implicit Type pairs : list (Vector T * Vector T).

(** Pairs of the sizes of an engine that has samples are all accepted. *)
Lemma add_samples_later e pairs :
  m_SampleVectors e ≠ [] → m_LabelVectors e ≠ [] →
  Forall (λ p, length p.1 = m_InputDimension e ∧ length p.2 = m_OutputDimension e) pairs →
  ∃ e', add_samples pairs e = Return tt e' ∧
        m_SampleVectors e' = m_SampleVectors e ++ pairs.*1 ∧
        m_LabelVectors e' = m_LabelVectors e ++ pairs.*2 ∧
        m_InputDimension e' = m_InputDimension e ∧
        m_OutputDimension e' = m_OutputDimension e ∧
        m_Kernel e' = m_Kernel e ∧ m_Sigma e' = m_Sigma e ∧
        (pairs ≠ [] → m_Initialized e' = false).
Proof.
  intros Hs Hl Hall. revert e Hs Hl Hall.
  induction pairs as [|[x y] pairs IH]; intros e Hs Hl Hall.
  { exists e. simpl. by rewrite !app_nil_r. }
  apply Forall_cons in Hall as [[Hx Hy] Hall]. simpl in Hx, Hy.
  cbn [add_samples]. unfold mbind'. rewrite (AddSample_later e x y Hs Hl).
  rewrite !decide_False by (intros Hne; by apply Hne).
  set (e1 := set_Initialized false _).
  destruct (IH e1) as (e' & Hrun & Hs' & Hl' & Hdi & Hdo & Hk & Hsig & Hi).
  { simpl. by destruct (m_SampleVectors e). }
  { simpl. by destruct (m_LabelVectors e). }
  { exact Hall. }
  exists e'. split; [exact Hrun|].
  rewrite Hs', Hl'. simpl. rewrite <- !app_assoc. repeat apply conj; try done.
  intros _. destruct pairs as [|p pairs]; [|by apply Hi].
  simpl in Hrun. by injection Hrun as <-.
Qed.

Lemma add_samples_app pairs1 pairs2 e :
  add_samples (pairs1 ++ pairs2) e = (add_samples pairs1;;; add_samples pairs2) e.
Proof.
  revert e. induction pairs1 as [|[x y] pairs1 IH]; intros e; [done|].
  cbn [add_samples app]. unfold mbind'. destruct (AddSample x y e) as [r s|ex s|]; [|done..].
  rewrite IH. done.
Qed.
End AddSamples.

(** X7. A new engine keeps exactly the training pairs it accepted, in the
    order of the calls. When every pair of a non-empty list has the sizes
    of the first pair, the calls of [AddSample] all return:
    [GetNumberOfSamples] is then the number of calls,
    [GetNumberOfInputDimensions] the size of the first sample, the samples
    and the labels are those of the list, the flag is clear, and the noise
    and the kernel are those of the constructor. When a later pair has
    another size, its call throws a dimension exception and the engine
    holds the pairs before it and nothing of that pair. *)
Theorem AddSample_sequence `{Scalar T} `{Eigen T} `{KernelLib T} `{MatrixIO T}
    (kernel : option (Kernel T)) (x0 y0 : Vector T)
    (accepted : list (Vector T * Vector T)) :
  Forall (λ p, length p.1 = length x0 ∧ length p.2 = length y0) accepted →
  let pairs := (x0, y0) :: accepted in
  (∃ e', add_samples pairs (construct kernel) = Return tt e' ∧
         GetNumberOfSamples e' = length pairs ∧
         GetNumberOfInputDimensions e' = length x0 ∧
         m_OutputDimension e' = length y0 ∧
         m_SampleVectors e' = pairs.*1 ∧ m_LabelVectors e' = pairs.*2 ∧
         m_Initialized e' = false ∧ GetSigma e' = s_zero ∧ m_Kernel e' = kernel) ∧
  (∀ x y rest, length x ≠ length x0 ∨ length y ≠ length y0 →
     ∃ ex e', add_samples (pairs ++ (x, y) :: rest) (construct kernel) = Raise ex e' ∧
              kind_of ex = DimensionMismatch ∧
              m_SampleVectors e' = pairs.*1 ∧ m_LabelVectors e' = pairs.*2 ∧
              GetNumberOfSamples e' = length pairs).
Proof.
  intros Hall. cbv zeta.
  set (e0 := construct kernel).
  assert (AddSample x0 y0 e0 =
            Return tt (mkGaussianProcess kernel s_zero [x0] [y0] mat_empty mat_empty
                         false (length x0) (length y0) false FullPivotLU)) as H0'
    by (by apply AddSample_first).
  set (e1 := mkGaussianProcess _ _ _ _ _ _ _ _ _ _ _) in H0'.
  destruct (add_samples_later e1 accepted) as (e' & Hrun & Hs & Hl & Hdi & Hdo & Hk & Hsig & Hi);
    [done|done|exact Hall|].
  assert (add_samples ((x0, y0) :: accepted) e0 = Return tt e') as Hall_run.
  { cbn [add_samples]. unfold mbind'. by rewrite H0'. }
  assert (m_Initialized e' = false) as Hflag.
  { destruct accepted as [|p accepted]; [|by apply Hi].
    simpl in Hrun. by injection Hrun as <-. }
  split.
  { exists e'. split; [exact Hall_run|].
    unfold GetNumberOfSamples, GetNumberOfInputDimensions, GetSigma.
    rewrite Hs, Hl, Hdi, Hdo, Hk, Hsig. simpl. rewrite length_fmap.
    by repeat apply conj. }
  intros x y rest Hne.
  rewrite add_samples_app. unfold mbind' at 1. rewrite Hall_run.
  cbn [add_samples]. unfold mbind'.
  rewrite (AddSample_later e' x y) by (rewrite ?Hs, ?Hl; done).
  rewrite Hdi, Hdo. simpl.
  unfold GetNumberOfSamples.
  destruct (decide (length x ≠ length x0)).
  { eexists _, _. split; [done|]. rewrite Hs, Hl. simpl. by rewrite length_fmap. }
  destruct (decide (length y ≠ length y0)).
  { eexists _, _. split; [done|]. rewrite Hs, Hl. simpl. by rewrite length_fmap. }
  destruct Hne; done.
Qed.

(** ** The kernel factory *)

Section Factory.
Context `{KernelLib T}.
Implicit Type m_Map : gmap string (ComponentFactoryFuncPtr T).

Lemma AddType_lookup (create : ComponentFactoryFuncPtr T) componentName m_Map name :
  AddType create componentName m_Map !! name =
    if decide (name = componentName)
    then Some (default create (m_Map !! componentName))
    else m_Map !! name.
Proof.
  unfold AddType. destruct (m_Map !! componentName) as [f|] eqn:Hf.
  - case_decide as Hn; [by subst|done].
  - case_decide as Hn; [subst; by rewrite lookup_insert_eq|by rewrite lookup_insert_ne].
Qed.

Lemma AddType_registered (create : ComponentFactoryFuncPtr T) componentName m_Map f :
  m_Map !! componentName = Some f → AddType create componentName m_Map = m_Map.
Proof. intros Hf. unfold AddType. by rewrite Hf. Qed.

Lemma AddType_keeps (create : ComponentFactoryFuncPtr T) componentName m_Map name f :
  m_Map !! name = Some f → AddType create componentName m_Map !! name = Some f.
Proof.
  intros Hf. rewrite AddType_lookup. case_decide as Hn; [|done]. subst. by rewrite Hf.
Qed.
End Factory.

(** X8. The kernel factory never replaces an entry: [AddType] on a name
    that is registered leaves the map as it is, and on another name adds
    that name alone. Hence [RegisterKernels] keeps every entry of the map
    it is called on, touches no name other than the four kernel names,
    leaves these four registered, and a second call changes nothing. On
    the empty map the four names are bound to the [Load] functions of their
    classes, so that [KernelFactory::Load] on them is the call of that
    function. *)
Theorem KernelFactory_registration `{KernelLib T}
    (m_Map : gmap string (ComponentFactoryFuncPtr T)) :
  (∀ create name f, m_Map !! name = Some f → AddType create name m_Map = m_Map) ∧
  (∀ create name, m_Map !! name = None →
     AddType create name m_Map !! name = Some create ∧
     ∀ other, other ≠ name → AddType create name m_Map !! other = m_Map !! other) ∧
  (∀ name f, m_Map !! name = Some f → RegisterKernels m_Map !! name = Some f) ∧
  (∀ name, name ∉ ["GaussianKernel"; "PeriodicKernel"; "SumKernel"; "ProductKernel"] →
     RegisterKernels m_Map !! name = m_Map !! name) ∧
  (∀ name, name ∈ ["GaussianKernel"; "PeriodicKernel"; "SumKernel"; "ProductKernel"] →
     is_Some (RegisterKernels m_Map !! name)) ∧
  RegisterKernels (RegisterKernels m_Map) = RegisterKernels m_Map ∧
  (∀ parameters,
     KernelFactory_Load (RegisterKernels ∅) "GaussianKernel" parameters
       = GaussianKernel_Load parameters ∧
     KernelFactory_Load (RegisterKernels ∅) "PeriodicKernel" parameters
       = PeriodicKernel_Load parameters ∧
     KernelFactory_Load (RegisterKernels ∅) "SumKernel" parameters
       = SumKernel_Load parameters ∧
     KernelFactory_Load (RegisterKernels ∅) "ProductKernel" parameters
       = ProductKernel_Load parameters).
Proof.
  assert (∀ m name, name ∈ ["GaussianKernel"; "PeriodicKernel"; "SumKernel"; "ProductKernel"] →
            is_Some (RegisterKernels m !! name)) as Hreg.
  { intros m name Hin. unfold RegisterKernels. rewrite !AddType_lookup.
    repeat (case_decide; [done|]). exfalso.
    repeat (apply elem_of_cons in Hin as [?|Hin]; [done|]).
    by apply elem_of_nil in Hin. }
  split; [intros; by eapply AddType_registered|].
  split.
  { intros create name Hn. rewrite AddType_lookup, decide_True, Hn by done.
    split; [done|]. intros other Hne. by rewrite AddType_lookup, decide_False. }
  split.
  { intros name f Hf. unfold RegisterKernels. by do 4 apply AddType_keeps. }
  split.
  { intros name Hn. unfold RegisterKernels. rewrite !AddType_lookup.
    rewrite !decide_False; [done|set_solver..]. }
  split; [apply Hreg|].
  split.
  { unfold RegisterKernels at 1.
    destruct (Hreg m_Map "GaussianKernel") as [f1 H1]; [set_solver|].
    destruct (Hreg m_Map "PeriodicKernel") as [f2 H2]; [set_solver|].
    destruct (Hreg m_Map "SumKernel") as [f3 H3]; [set_solver|].
    destruct (Hreg m_Map "ProductKernel") as [f4 H4]; [set_solver|].
    rewrite (AddType_registered _ "GaussianKernel" _ f1 H1).
    rewrite (AddType_registered _ "PeriodicKernel" _ f2 H2).
    rewrite (AddType_registered _ "SumKernel" _ f3 H3).
    by rewrite (AddType_registered _ "ProductKernel" _ f4 H4). }
  intros parameters. unfold KernelFactory_Load.
  destruct RegisterKernels_lookup as (-> & -> & -> & -> & _). done.
Qed.

Section SequenceWitness.
#[local] Existing Instance IEEE.binary64.
#[local] Existing Instance Example.eigen.
#[local] Existing Instance Example.kernels.
#[local] Existing Instance Example.matrix_io.

Lemma AddSample_sequence_witness :
  ∃ e', add_samples [([Example.d "0"], [Example.d "0"]); ([Example.d "1"], [Example.d "1"])]
          Example.fresh = Return tt e' ∧
        GetNumberOfSamples e' = 2.
Proof.
  destruct (AddSample_sequence (Some Example.gaussian) [Example.d "0"] [Example.d "0"]
              [([Example.d "1"], [Example.d "1"])]) as [(e' & Hrun & Hn & _) _].
  - repeat constructor.
  - exists e'. split; [exact Hrun|exact Hn].
Defined.
End SequenceWitness.

(** ** Blocks of one row and of one column *)

Section Blocks.
Context `{Eigen T}.
Implicit Type M : Matrix T.

Lemma omap_lookup_rows (rows : list (list T)) j c :
  Forall (λ r, length r = c) rows → j < c →
  length (omap (λ r : list T, r !! j) rows) = length rows ∧
  ∀ i, omap (λ r : list T, r !! j) rows !! i = rows !! i ≫= λ r, r !! j.
Proof.
  intros Hrows Hj. induction Hrows as [|r rows Hr Hrows [IHl IHi]]; [done|].
  simpl. destruct (lookup_lt_is_Some_2 r j) as [v Hv]; [lia|]. rewrite Hv. simpl.
  split; [f_equal; exact IHl|]. intros [|i]; simpl; [done|apply IHi].
Qed.

Lemma length_mat_col M j :
  mat_wf M → j < mcols M → length (mat_col j M) = mrows M.
Proof.
  intros [Hlen Hrows] Hj. rewrite <- Hlen.
  by apply (omap_lookup_rows (mdata M) j (mcols M)).
Qed.

Lemma lookup_mat_col M j i : mat_wf M → j < mcols M → mat_col j M !! i = coeff M i j.
Proof.
  intros [_ Hrows] Hj. by apply (omap_lookup_rows (mdata M) j (mcols M)).
Qed.

(** [M.block(i, 0, 1, d) = row]: row [i] becomes [row]. *)
Lemma assign_row M i (row : Vector T) :
  mat_wf M → i < mrows M → length row = mcols M →
  ∃ M', mat_block_assign i 0 1 (mcols M) (row_matrix row) M = Ok M' ∧
        mat_wf M' ∧ mrows M' = mrows M ∧ mcols M' = mcols M ∧
        ∀ p, mdata M' !! p = if decide (p = i) then Some row else mdata M !! p.
Proof.
  intros [HMl HMr] Hi Hrow. unfold mat_block_assign.
  rewrite decide_True by (simpl; lia).
  eexists. split; [done|]. unfold mat_wf. simpl. rewrite length_imap.
  assert (∀ p, imap (λ r row0,
                 if decide (i ≤ r < i + 1)
                 then take 0 row0 ++ default [] ([row] !! (r - i)) ++ drop (0 + mcols M) row0
                 else row0) (mdata M) !! p
               = if decide (p = i) then Some row else mdata M !! p) as Hlook.
  { intros p. rewrite list_lookup_imap.
    destruct (mdata M !! p) as [row0|] eqn:Hrow0; simpl.
    - case_decide; case_decide; try lia; [|done]. subst p.
      rewrite Nat.sub_diag. simpl.
      rewrite drop_ge; [by rewrite app_nil_r|].
      eapply Forall_lookup_1 in HMr; [|done]. simpl in HMr. lia.
    - case_decide; [|done]. subst p.
      apply lookup_ge_None in Hrow0. lia. }
  split; [split; [done|]|by repeat apply conj].
  apply Forall_lookup_2. intros p row0. rewrite Hlook.
  case_decide; [intros [= <-]; lia|]. intros Hrow0.
  eapply Forall_lookup_1 in HMr; done.
Qed.

(** [M.block(0, j, M.rows(), 1) = B] for a one-column matrix [B] with the
    coefficients [col]: column [j] becomes [col]. *)
Lemma assign_column M j (B : Matrix T) (col : Vector T) :
  mat_wf M → j < mcols M →
  mrows B = mrows M → mcols B = 1 → mdata B = (λ v, [v]) <$> col →
  length col = mrows M →
  ∃ M', mat_block_assign 0 j (mrows M) 1 B M = Ok M' ∧
        mat_wf M' ∧ mrows M' = mrows M ∧ mcols M' = mcols M ∧
        ∀ r c, coeff M' r c =
               if decide (c = j ∧ r < mrows M) then col !! r else coeff M r c.
Proof.
  intros [HMl HMr] Hj HBr HBc HBd Hcol. unfold mat_block_assign.
  rewrite decide_True by (simpl; lia).
  eexists. split; [done|]. unfold mat_wf, coeff. simpl. rewrite length_imap.
  assert (∀ r, imap (λ r row,
                 if decide (0 ≤ r < 0 + mrows M)
                 then take j row ++ default [] (mdata B !! (r - 0)) ++ drop (j + 1) row
                 else row) (mdata M) !! r
               = (λ row : list T, match col !! r with
                         | Some v => <[j := v]> row
                         | None => row
                         end) <$> mdata M !! r) as Hlook.
  { intros r. rewrite list_lookup_imap.
    destruct (mdata M !! r) as [row|] eqn:Hrow; simpl; [|done]. f_equal.
    assert (r < mrows M) as Hr by (rewrite <- HMl; by eapply lookup_lt_Some).
    rewrite decide_True by lia. rewrite Nat.sub_0_r, HBd, list_lookup_fmap.
    destruct (lookup_lt_is_Some_2 col r) as [v Hv]; [lia|]. rewrite Hv. simpl.
    rewrite Nat.add_1_r. symmetry. apply insert_take_drop.
    eapply Forall_lookup_1 in HMr; [|done]. simpl in HMr. lia. }
  split; [split; [done|]|].
  { apply Forall_lookup_2. intros r row. rewrite Hlook.
    destruct (mdata M !! r) as [row0|] eqn:Hrow0; simpl; [|done].
    intros [= <-]. eapply Forall_lookup_1 in HMr; [|done]. simpl in HMr.
    destruct (col !! r); [by rewrite length_insert|done]. }
  split; [done|]. split; [done|]. intros r c. rewrite Hlook.
  destruct (mdata M !! r) as [row|] eqn:Hrow; simpl.
  - assert (r < mrows M) as Hr by (rewrite <- HMl; by eapply lookup_lt_Some).
    destruct (lookup_lt_is_Some_2 col r) as [v Hv]; [lia|]. rewrite Hv.
    eapply Forall_lookup_1 in HMr; [|done]. simpl in HMr.
    case_decide as Hc.
    + destruct Hc as [-> _]. apply list_lookup_insert_eq. lia.
    + apply list_lookup_insert_ne. intros <-. by apply Hc.
  - case_decide as Hc; [|done]. destruct Hc as [_ Hr].
    apply lookup_ge_None in Hrow. lia.
Qed.
End Blocks.

(** ** [ComputeDifferenceMatrix] *)

Lemma ComputeDifferenceMatrix_outcome `{Scalar T} `{Eigen T}
    (e : GaussianProcess T) (x : Vector T) (X : Matrix T) :
  mat_wf X →
  (Forall (λ s, length s = length x) (m_SampleVectors e) →
   ComputeDifferenceMatrix e x X = Ok (DifferenceMatrix x (m_SampleVectors e))) ∧
  (¬ Forall (λ s, length s = length x) (m_SampleVectors e) →
   ComputeDifferenceMatrix e x X = Undefined).
Proof.
  intros Hwf. unfold ComputeDifferenceMatrix.
  set (n := length (m_SampleVectors e)). set (d := length x).
  set (body := λ X i, xi <- at_index (m_SampleVectors e) i;;
                      diff <- vec_sub x xi;;
                      mat_block_assign i 0 1 d (row_matrix diff) X).
  (* the rows written when the index is [i] *)
  set (Q := λ i (M : Matrix T),
         mat_wf M ∧ mrows M = n ∧ mcols M = d ∧
         ∀ p, p < i → mdata M !! p = (zip_with s_sub x <$> m_SampleVectors e) !! p).
  assert (Q 0 (resize n d X)) as HQ0.
  { split; [by apply resize_wf|]. split; [apply resize_dims|]. split; [apply resize_dims|].
    intros p Hp. lia. }
  assert (∀ M i s, Q i M → m_SampleVectors e !! i = Some s → length s = d →
            ∃ M', body M i = Ok M' ∧ Q (S i) M') as Hstep.
  { intros M i s (HMwf & Hr & Hc & Hrows) Hs Hlen. unfold body, at_index, vec_sub.
    rewrite Hs. simpl. rewrite decide_True by done. simpl.
    assert (i < n) as Hi by (by eapply lookup_lt_Some).
    destruct (assign_row M i (zip_with s_sub x s) HMwf) as (M' & HM' & Hwf' & Hr' & Hc' & Hlook);
      [lia|rewrite length_zip_with; lia|].
    rewrite Hc in HM'. exists M'. split; [exact HM'|].
    split; [done|]. split; [lia|]. split; [lia|].
    intros p Hp. rewrite Hlook. case_decide as Hpi.
    - subst p. by rewrite list_lookup_fmap, Hs.
    - apply Hrows. lia. }
  split.
  - intros Hall.
    destruct (rfold_seq_inv Q body 0 n (resize n d X)) as (M & -> & HMwf & Hr & Hc & Hrows);
      [done| |].
    { intros M i [_ Hi] HQ. simpl in Hi.
      destruct (lookup_lt_is_Some_2 (m_SampleVectors e) i Hi) as [s Hs].
      apply (Hstep M i s HQ Hs). eapply Forall_lookup_1 in Hall; done. }
    f_equal. destruct M as [r c dM]. simpl in *. subst r c. unfold DifferenceMatrix.
    f_equal. apply list_eq. intros p. destruct (decide (p < n)) as [Hp|Hp].
    + by apply Hrows.
    + destruct HMwf as [HMl _]. simpl in HMl.
      rewrite !lookup_ge_None_2; [done|rewrite length_fmap; fold n; lia|lia].
  - intros Hnot. apply not_Forall_Exists in Hnot; [|intros s; apply _].
    apply Exists_exists in Hnot as (s & Hin & Hne).
    apply list_elem_of_lookup_1 in Hin as [i Hi].
    (* the first sample of another size *)
    assert (∃ i s, m_SampleVectors e !! i = Some s ∧ length s ≠ d ∧
               ∀ p s', p < i → m_SampleVectors e !! p = Some s' → length s' = d)
      as (i0 & s0 & Hs0 & Hne0 & Hbefore).
    { clear Hstep HQ0 Q body Hwf. revert s Hi Hne.
      induction (lt_wf i) as [q _ IH]. intros s Hq Hne.
      destruct (decide (Forall (λ s', length s' = d) (take q (m_SampleVectors e))))
        as [Hall|Hnall].
      - exists q, s. split; [done|]. split; [done|]. intros p s' Hp Hs'.
        eapply Forall_lookup_1 in Hall; [exact Hall|].
        by rewrite lookup_take_lt.
      - apply not_Forall_Exists in Hnall; [|intros ?; apply _].
        apply Exists_exists in Hnall as (s' & Hin' & Hne').
        apply list_elem_of_lookup_1 in Hin' as [p Hp].
        assert (p < q) as Hpq.
        { apply lookup_lt_Some in Hp. rewrite length_take in Hp. lia. }
        rewrite lookup_take_lt in Hp by done. by apply (IH p Hpq s'). }
    assert (i0 < n) as Hi0 by (by eapply lookup_lt_Some).
    replace n with (i0 + S (n - S i0)) by lia.
    rewrite seq_app, rfold_app. simpl.
    destruct (rfold_seq_inv Q body 0 i0 (resize (i0 + S (n - S i0)) d X))
      as (M & -> & _); [by replace (i0 + S (n - S i0)) with n by lia| |].
    { intros M j [_ Hlt] HQ. simpl in Hlt.
      destruct (lookup_lt_is_Some_2 (m_SampleVectors e) j) as [s' Hs']; [fold n; lia|].
      apply (Hstep M j s' HQ Hs'). by eapply Hbefore. }
    simpl. unfold body at 1, at_index, vec_sub. rewrite Hs0. simpl.
    rewrite decide_False; [done|]. intros Heq. by apply Hne0.
Qed.

Lemma difference_rows_ok `{Scalar T} `{Eigen T}
    (e : GaussianProcess T) (x : Vector T) (X : Matrix T) :
  mat_wf X → Forall (λ s, length s = length x) (m_SampleVectors e) →
  ComputeDifferenceMatrix e x X = Ok (DifferenceMatrix x (m_SampleVectors e)).
Proof. intros HX. by apply ComputeDifferenceMatrix_outcome. Qed.

(** X9. [ComputeDifferenceMatrix(x, X)] leaves in [X] the matrix of [n]
    rows and [|x|] columns whose row [i] is [x − sample_i], whatever [X]
    held, when every sample has the size of [x]; it fails an assertion of
    Eigen when a sample has another size; it throws nothing. *)
Theorem ComputeDifferenceMatrix_rows `{Scalar T} `{Eigen T}
    (e : GaussianProcess T) (x : Vector T) (X : Matrix T) :
  mat_wf X →
  (Forall (λ s, length s = length x) (m_SampleVectors e) →
   ComputeDifferenceMatrix e x X = Ok (DifferenceMatrix x (m_SampleVectors e)) ∧
   mrows (DifferenceMatrix x (m_SampleVectors e)) = GetNumberOfSamples e ∧
   mcols (DifferenceMatrix x (m_SampleVectors e)) = length x ∧
   ∀ i s, m_SampleVectors e !! i = Some s →
          mdata (DifferenceMatrix x (m_SampleVectors e)) !! i = Some (zip_with s_sub x s)) ∧
  (¬ Forall (λ s, length s = length x) (m_SampleVectors e) →
   ComputeDifferenceMatrix e x X = Undefined) ∧
  ∀ ex, ComputeDifferenceMatrix e x X ≠ Throw ex.
Proof.
  intros HX. destruct (ComputeDifferenceMatrix_outcome e x X HX) as [Hok Hbad].
  split; [|split; [exact Hbad|]].
  - intros Hall. split; [by apply Hok|]. split; [done|]. split; [done|].
    intros i s Hs. simpl. by rewrite list_lookup_fmap, Hs.
  - intros ex. unfold ComputeDifferenceMatrix. apply rfold_no_throw. intros M i.
    unfold at_index, vec_sub, mat_block_assign.
    repeat (first [case_decide | case_match]; simpl; try done).
Qed.

(** ** [PredictDerivative] *)

Section WellFormedMatrices.
Context `{Scalar T} `{Eigen T} `{KernelLib T} `{MatrixIO T}.
Context {ED : EigenDimensions} {EW : EigenWellFormed}.
Implicit Type e : GaussianProcess T.

Lemma mat_mul_wf (A B P : Matrix T) :
  mat_mul A B = Ok P → length (mdata A) = mrows A → mat_wf P.
Proof.
  unfold mat_mul. case_decide; [|done]. intros [= <-] Hlen.
  split; simpl; [by rewrite length_fmap|].
  apply Forall_fmap, Forall_forall. intros r _. simpl. apply length_tabulate.
Qed.

Lemma pseudo_inverse_wf (U : Matrix T) s V C :
  pseudo_inverse U s V = Ok C → length (mdata V) = mrows V → mat_wf C.
Proof.
  unfold pseudo_inverse. intros HC HV.
  destruct (mat_mul V (asDiagonal (reciprocal s))) as [VS| |] eqn:HVS; [|done..].
  simpl in HC. apply (mat_mul_wf _ _ _ HC).
  by apply (mat_mul_wf _ _ _ HVS).
Qed.

Lemma invert_wf meth (K C : Matrix T) :
  mat_wf K → invert meth K = Ok C → mat_wf C.
Proof.
  intros HK. unfold invert. destruct meth.
  - case_decide; [|done]. intros [= <-]. by apply inverse_wf.
  - pose proof (JacobiSVD_wf K HK) as [_ [HV _]].
    destruct (JacobiSVD_compute K) as [[U s] V]. intros HC.
    by apply (pseudo_inverse_wf _ _ _ _ HC).
  - pose proof (BDCSVD_wf K HK) as [_ [HV _]].
    destruct (BDCSVD_compute K) as [[U s] V]. intros HC.
    by apply (pseudo_inverse_wf _ _ _ _ HC).
  - pose proof (SelfAdjointEigenSolver_wf K HK) as [HV _].
    destruct (SelfAdjointEigenSolver_compute K) as [values vectors]. intros HC.
    apply (pseudo_inverse_wf _ _ _ _ HC). simpl. by rewrite length_map.
Qed.

(** The cached matrices of a trained engine are well formed. *)
Lemma trained_matrices_wf e :
  engine_wf e → m_Initialized e = true →
  mat_wf (m_CoreMatrix e) ∧ mat_wf (m_RegressionVectors e).
Proof.
  intros Hwf Hi. destruct (trained_has_samples e Hwf Hi) as [Hs _].
  destruct Hwf as ([k Hk] & Hlen & _ & Hall & Hcons).
  destruct (retrained_exists e k Hk Hs Hlen Hall) as (C & R & HC & HR & Hret & _).
  destruct (retrained_unique e _ _ _ _ Hret (Hcons Hi)) as [HCe HRe].
  rewrite HCe, HRe.
  assert (mat_wf C) as HCwf.
  { apply (invert_wf _ _ _ (mat_tabulate_wf _ _ _) HC). }
  split; [done|]. apply (mat_mul_wf _ _ _ HR). by destruct HCwf.
Qed.

(** The loop of [PredictDerivative] over the columns of [D]. *)
Lemma derivative_columns e (X : Matrix T) (Kx : Vector T) (D : Matrix T) :
  mat_wf (m_RegressionVectors e) → mat_wf X → mat_wf D →
  mrows X = mrows (m_RegressionVectors e) → length Kx = mrows (m_RegressionVectors e) →
  rfold (derivative_column e X Kx) (seq 0 (mcols (m_RegressionVectors e)))
    (resize (mcols X) (mcols (m_RegressionVectors e)) D)
  = Ok (DerivativeMatrix X Kx (m_RegressionVectors e)).
Proof.
  intros HRwf HXwf HDwf HXr HKx.
  set (R := m_RegressionVectors e) in *.
  set (entry := λ r j, dot (s_opp <$> mat_col r X) (zip_with s_mul Kx (mat_col j R))).
  set (Q := λ i (M : Matrix T),
         mat_wf M ∧ mrows M = mcols X ∧ mcols M = mcols R ∧
         ∀ r c, r < mcols X → c < i → coeff M r c = Some (entry r c)).
  destruct (rfold_seq_inv Q (derivative_column e X Kx) 0 (mcols R)
              (resize (mcols X) (mcols R) D)) as (M & -> & HMwf & Hr & Hc & Hcells).
  - split; [by apply resize_wf|]. split; [apply resize_dims|]. split; [apply resize_dims|].
    intros r c _ Hc. lia.
  - intros M i [_ Hi] (HMwf & Hr & Hc & Hcells). simpl in Hi.
    unfold derivative_column, mat_get_col. fold R.
    rewrite decide_True by done. simpl.
    unfold cwiseProduct. rewrite length_mat_col by done.
    rewrite decide_True by done. simpl.
    unfold mat_mul. simpl. rewrite length_zip_with, length_mat_col by done.
    rewrite decide_True by lia. simpl.
    rewrite decide_True by lia.
    set (w := zip_with s_mul Kx (mat_col i R)).
    set (P := mkMatrix _ _ _).
    destruct (assign_column M i P (tabulate (mcols X) (λ r, entry r i)) HMwf)
      as (M' & HM' & Hwf' & Hr' & Hc' & Hlook).
    + lia.
    + by rewrite Hr.
    + done.
    + subst P. simpl. unfold tabulate at 2 3.
      change (map (map s_opp) ?l) with (fmap (M:=list) (fmap (M:=list) s_opp) l).
      rewrite <- !list_fmap_compose. apply list_fmap_ext. intros _ r _. simpl.
      unfold tabulate. simpl. rewrite mat_col_col_matrix. unfold entry.
      done.
    + by rewrite length_tabulate.
    + exists M'. split; [exact HM'|]. split; [done|]. split; [lia|]. split; [lia|].
      intros r c Hr0 Hc0. rewrite Hlook. case_decide as Hci.
      * destruct Hci as [-> _]. by rewrite lookup_tabulate, decide_True.
      * apply Hcells; [done|]. destruct (decide (c = i)) as [->|]; [|lia].
        destruct Hci. split; [done|lia].
  - f_equal. apply mat_ext; [done|apply mat_tabulate_wf|done..|].
    intros r c Hr0 Hc0. unfold DerivativeMatrix. fold R.
    rewrite coeff_mat_tabulate by lia. apply Hcells; lia.
Qed.
End WellFormedMatrices.

(** X10. On an engine that satisfies the invariants of the data model and
    has a sample, for an input [x] of size [D_in], [PredictDerivative(x, D)]
    returns the point prediction that [Predict(x)] returns and ends in the
    same state; it leaves in [D], whatever [D] held, the matrix of [D_in]
    rows and [D_out] columns with
    [D[r][j] = Σ_i −(x[r] − sample_i[r]) · (Kx[i] · R[i][j])], where [Kx] is
    the kernel vector of [x] and [R] the matrix of regression coefficients
    of the trained engine. *)
Theorem PredictDerivative_Jacobian
    `{Scalar T} `{Eigen T} `{KernelLib T} `{MatrixIO T}
    {ED : EigenDimensions} {EW : EigenWellFormed}
    (e : GaussianProcess T) (k : Kernel T) (x : Vector T) (D : Matrix T) :
  engine_wf e → m_Kernel e = Some k → m_SampleVectors e ≠ [] →
  length x = m_InputDimension e → mat_wf D →
  ∃ e1 p,
    Initialize e = Return tt e1 ∧ Predict x e = Return p e1 ∧
    let Kx := KernelVector k (m_SampleVectors e) x in
    let X := DifferenceMatrix x (m_SampleVectors e) in
    let D' := DerivativeMatrix X Kx (m_RegressionVectors e1) in
    PredictDerivative x D e = Return (p, D') e1 ∧
    mrows D' = m_InputDimension e ∧ mcols D' = m_OutputDimension e ∧
    ∀ r j, r < m_InputDimension e → j < m_OutputDimension e →
      coeff D' r j =
        Some (dot (s_opp <$> mat_col r X)
                  (zip_with s_mul Kx (mat_col j (m_RegressionVectors e1)))).
Proof.
  intros Hwf Hk Hs Hx HD.
  destruct (Initialize_ready e Hwf Hs)
    as (e1 & HI & Hrel & Hi1 & Hwf1 & Hk1 & Hs1 & Hdi & Hdo).
  assert (m_SampleVectors e1 ≠ []) as Hs1' by (by rewrite Hs1).
  destruct (consistent_dims e1 Hwf1 Hs1' Hi1) as (_ & _ & HRr & HRc).
  destruct (trained_matrices_wf e1 Hwf1 Hi1) as [_ HRwf].
  exists e1, (vec_mat (KernelVector k (m_SampleVectors e) x) (m_RegressionVectors e1)).
  split; [done|].
  assert (CheckInputDimension e1 x "GaussianProcess::Predict: " = Ok tt) as Hc1.
  { unfold CheckInputDimension. rewrite Hdi.
    by rewrite decide_False by (intros Hne; by apply Hne). }
  assert (CheckInputDimension e1 x "GaussianProcess::PredictDerivative: " = Ok tt) as Hc2.
  { unfold CheckInputDimension. rewrite Hdi.
    by rewrite decide_False by (intros Hne; by apply Hne). }
  assert (ComputeKernelVector e1 x [] = Ok (KernelVector k (m_SampleVectors e) x)) as HKx.
  { rewrite (ComputeKernelVector_spec e1 k x []) by (done || congruence).
    by rewrite Hs1. }
  assert (point_prediction e1 (KernelVector k (m_SampleVectors e) x)
          = Ok (vec_mat (KernelVector k (m_SampleVectors e) x) (m_RegressionVectors e1)))
    as Hp.
  { apply point_prediction_spec. by rewrite length_KernelVector, HRr, Hs1. }
  split.
  { unfold Predict, mbind', call. rewrite HI. cbv beta iota. rewrite Hc1.
    cbv beta iota. rewrite HKx. cbv beta iota. by rewrite Hp. }
  cbv zeta.
  assert (Forall (λ s, length s = length x) (m_SampleVectors e)) as Hsizes.
  { destruct Hwf as (_ & _ & Hall & _). rewrite Hx. exact Hall. }
  assert (ComputeDifferenceMatrix e1 x mat_empty
          = Ok (DifferenceMatrix x (m_SampleVectors e))) as HX.
  { unfold ComputeDifferenceMatrix. rewrite Hs1.
    change (ComputeDifferenceMatrix e x mat_empty
            = Ok (DifferenceMatrix x (m_SampleVectors e))).
    by apply difference_rows_ok. }
  split.
  { unfold PredictDerivative, mbind', call, mret. rewrite HI. cbv beta iota.
    rewrite Hc2. cbv beta iota. rewrite HKx. cbv beta iota. rewrite HX.
    cbv beta iota. rewrite Hdi, <- Hx, <- HRc.
    change (length x) with (mcols (DifferenceMatrix x (m_SampleVectors e))).
    rewrite derivative_columns; [by rewrite Hp|done| |done| |].
    - split; simpl; [by rewrite length_fmap|].
      apply Forall_fmap, Forall_forall. intros s Hin. simpl.
      rewrite length_zip_with. eapply Forall_forall in Hsizes; [|done]. lia.
    - simpl. by rewrite HRr, Hs1.
    - by rewrite length_KernelVector, HRr, Hs1. }
  unfold DerivativeMatrix. simpl. rewrite HRc, Hdo, Hx.
  split; [done|]. split; [done|]. intros r j Hr Hj.
  by rewrite coeff_mat_tabulate.
Qed.

Lemma Example_eigen_well_formed : @EigenWellFormed spec_float Example.eigen.
Proof.
  split.
  - intros [r c rows] [Hl Hr]. unfold mat_wf.
    cbn [inverse Example.eigen Example.inverse_small mrows mcols mdata] in *.
    destruct rows as [|[|a [|b [|? ?]]] [|[|c' [|e' [|? ?]]] [|? ?]]];
      (split; [exact Hl|]); try exact Hr.
    + apply Forall_cons in Hr as [Hc _]. cbn [length] in Hc. subst c.
      by repeat constructor.
    + apply Forall_cons in Hr as [Hc _]. cbn [length] in Hc. subst c.
      by repeat constructor.
  - intros M _. split; apply mat_tabulate_wf.
  - intros M _. split; apply mat_tabulate_wf.
  - intros M _. apply mat_tabulate_wf.
Qed.

Section DerivativeWitnesses.
#[local] Existing Instance IEEE.binary64.
#[local] Existing Instance Example.eigen.
#[local] Existing Instance Example.kernels.
#[local] Existing Instance Example.matrix_io.
#[local] Existing Instance Example_eigen_dimensions.
#[local] Existing Instance Example_eigen_well_formed.

Lemma ComputeDifferenceMatrix_rows_witness :
  ComputeDifferenceMatrix Example.two_samples [Example.d "0.5"] mat_empty
    = Ok (DifferenceMatrix [Example.d "0.5"] (m_SampleVectors Example.two_samples)).
Proof.
  destruct (ComputeDifferenceMatrix_rows Example.two_samples [Example.d "0.5"] mat_empty)
    as [Hok _]; [by split|].
  apply Hok. vm_compute. repeat constructor.
Defined.

Lemma PredictDerivative_Jacobian_witness :
  ∃ e1 p D',
    PredictDerivative [Example.d "0.5"] mat_empty Example.two_samples
      = Return (p, D') e1 ∧
    Predict [Example.d "0.5"] Example.two_samples = Return p e1 ∧
    mrows D' = 1 ∧ mcols D' = 1.
Proof.
  destruct (PredictDerivative_Jacobian Example.two_samples Example.gaussian
              [Example.d "0.5"] mat_empty)
    as (e1 & p & _ & Hp & HD & Hr & Hc & _).
  - exact Example_two_samples_wf.
  - reflexivity.
  - vm_compute. discriminate.
  - reflexivity.
  - by split.
  - eexists e1, p, _. split; [exact HD|]. split; [exact Hp|]. split; [exact Hr|exact Hc].
Defined.
End DerivativeWitnesses.

(** ** Failures of [Load] *)

Section LoadFailures.
Context `{Scalar T} `{Eigen T} `{KernelLib T} `{MatrixIO T}.
Implicit Type e : GaussianProcess T.

(** [Load] by the files it finds. *)
Lemma Load_by_files m_Map prefix e fs :
  GaussianProcess_Load m_Map prefix (e, fs) =
    match is_regular_file fs (prefix +:+ "-RegressionVectors.txt") with
    | None => Raise (FileMissing (prefix +:+ "-RegressionVectors.txt")) (e, fs)
    | Some cR =>
    let e1 := set_RegressionVectors (ReadMatrix_text cR) e in
    match is_regular_file fs (prefix +:+ "-CoreMatrix.txt") with
    | None => Raise (FileMissing (prefix +:+ "-CoreMatrix.txt")) (e1, fs)
    | Some cC =>
    let e2 := set_CoreMatrix (ReadMatrix_text cC) e1 in
    match is_regular_file fs (prefix +:+ "-SampleVectors.txt") with
    | None => Raise (FileMissing (prefix +:+ "-SampleVectors.txt")) (e2, fs)
    | Some cX =>
    let e3 := set_SampleVectors (columns (ReadMatrix_text cX)) e2 in
    match is_regular_file fs (prefix +:+ "-LabelVectors.txt") with
    | None => Raise (FileMissing (prefix +:+ "-LabelVectors.txt")) (e3, fs)
    | Some cY =>
    match is_regular_file fs (prefix +:+ "-ParameterFile.txt") with
    | None => Raise (FileMissing (prefix +:+ "-ParameterFile.txt"))
                (matrices_loaded cR cC cX cY e, fs)
    | Some cP =>
        (parameters <~ read_parameter_file cP;;
         load_kernel m_Map parameters.1 parameters.2;;;
         assign_engine (set_Initialized true)) (matrices_loaded cR cC cX cY e, fs)
    end end end end end.
Proof.
  unfold GaussianProcess_Load, mbind', read_matrix_file, assign_engine, assign.
  cbn [fst snd].
  destruct (is_regular_file fs (prefix +:+ "-RegressionVectors.txt")) as [cR|]; [|done].
  cbn [fst snd].
  destruct (is_regular_file fs (prefix +:+ "-CoreMatrix.txt")) as [cC|]; [|done].
  cbn [fst snd].
  destruct (is_regular_file fs (prefix +:+ "-SampleVectors.txt")) as [cX|]; [|done].
  cbn [fst snd].
  destruct (is_regular_file fs (prefix +:+ "-LabelVectors.txt")) as [cY|]; [|done].
  cbn [fst snd].
  destruct (is_regular_file fs (prefix +:+ "-ParameterFile.txt")) as [cP|]; done.
Qed.

Lemma load_kernel_outcome m_Map kernel_type kernel_parameters (w : world (T:=T)) :
  match load_kernel m_Map kernel_type kernel_parameters w with
  | Return _ w' => w'.2 = w.2 ∧ ∃ k, w'.1 = set_Kernel k w.1
  | Raise ex w' =>
      w' = w ∧
      (ex = TokenizeFailed ∨ ex = KernelNotRecognized ∨
       ∃ name create,
         factory_name kernel_type name ∧
         m_Map !! name = Some create ∧ create kernel_parameters = Throw ex)
  | Stuck =>
      ∃ name, factory_name kernel_type name ∧
              KernelFactory_Load m_Map name kernel_parameters = Undefined
  end.
Proof.
  assert (∀ name C, factory_name kernel_type name →
    match (k <~ call (λ _ : world (T:=T), KernelFactory_Load m_Map name kernel_parameters);;
           assign_engine (set_Kernel (dynamic_pointer_cast C k))) w with
    | Return _ w' => w'.2 = w.2 ∧ ∃ k, w'.1 = set_Kernel k w.1
    | Raise ex w' =>
        w' = w ∧
        (ex = TokenizeFailed ∨ ex = KernelNotRecognized ∨
         ∃ name create,
           factory_name kernel_type name ∧
           m_Map !! name = Some create ∧ create kernel_parameters = Throw ex)
    | Stuck =>
        ∃ name, factory_name kernel_type name ∧
                KernelFactory_Load m_Map name kernel_parameters = Undefined
    end) as Hfactory.
  { intros name C Hname. unfold mbind', call, assign_engine, assign.
    destruct (KernelFactory_Load m_Map name kernel_parameters) as [k|ex|] eqn:Hload.
    - split; [done|]. by eexists.
    - split; [done|]. right. right. unfold KernelFactory_Load in Hload.
      destruct (m_Map !! name) as [create|] eqn:Hmap; [|done]. by exists name, create.
    - by exists name. }
  unfold load_kernel.
  case_decide as Hg; [apply Hfactory; left; by auto|].
  case_decide as Hp; [apply Hfactory; left; by auto|].
  destruct (String.index 0 "SumKernel" kernel_type) as [found|] eqn:Hfound; [|by auto].
  unfold mbind' at 1, call at 1.
  destruct (tokenize_summands kernel_type) as [[[t0 t1] t2]|ex|] eqn:Htok.
  - apply Hfactory. right. repeat apply conj; try done. by exists t1, t2.
  - split; [done|]. left. unfold tokenize_summands in Htok.
    repeat (case_match; try done); by injection Htok as <-.
  - unfold tokenize_summands in Htok. repeat (case_match; try done).
Qed.

Lemma Load_outcome m_Map prefix (w : world (T:=T)) :
  match GaussianProcess_Load m_Map prefix w with
  | Return _ w' =>
      w'.2 = w.2 ∧ m_Initialized w'.1 = true ∧ m_InvMethod w'.1 = m_InvMethod w.1
  | Raise ex w' =>
      w'.2 = w.2 ∧ m_Initialized w'.1 = m_Initialized w.1 ∧
      m_Kernel w'.1 = m_Kernel w.1 ∧ m_InvMethod w'.1 = m_InvMethod w.1 ∧
      ((∃ name, name ∈ companion_names ∧ ex = FileMissing (prefix +:+ name) ∧
                is_regular_file w.2 (prefix +:+ name) = None) ∨
       ex = ParameterFileCorrupt ∨ ex = TokenizeFailed ∨ ex = KernelNotRecognized ∨
       ∃ name create parameters,
         reaches_factory prefix w name parameters w' ∧
         m_Map !! name = Some create ∧ create parameters = Throw ex)
  | Stuck =>
      ∃ name parameters w1,
        reaches_factory prefix w name parameters w1 ∧
        KernelFactory_Load m_Map name parameters = Undefined
  end.
Proof.
  destruct w as [e fs]. rewrite Load_by_files. cbn [fst snd].
  assert (∀ name, name ∈ companion_names →
            is_regular_file fs (prefix +:+ name) = None →
            ∃ name', name' ∈ companion_names ∧
                     FileMissing (prefix +:+ name) = FileMissing (prefix +:+ name') ∧
                     is_regular_file fs (prefix +:+ name') = None) as Hmissing.
  { intros name Hin Hnone. by exists name. }
  destruct (is_regular_file fs (prefix +:+ "-RegressionVectors.txt")) as [cR|] eqn:HR;
    [|repeat apply conj; try done; left; apply Hmissing; [|done];
      unfold companion_names;
      repeat first [apply list_elem_of_here | apply list_elem_of_further]].
  destruct (is_regular_file fs (prefix +:+ "-CoreMatrix.txt")) as [cC|] eqn:HC;
    [|repeat apply conj; try done; left; apply Hmissing; [|done];
      unfold companion_names;
      repeat first [apply list_elem_of_here | apply list_elem_of_further]].
  destruct (is_regular_file fs (prefix +:+ "-SampleVectors.txt")) as [cX|] eqn:HX;
    [|repeat apply conj; try done; left; apply Hmissing; [|done];
      unfold companion_names;
      repeat first [apply list_elem_of_here | apply list_elem_of_further]].
  destruct (is_regular_file fs (prefix +:+ "-LabelVectors.txt")) as [cY|] eqn:HY;
    [|repeat apply conj; try done; left; apply Hmissing; [|done];
      unfold companion_names;
      repeat first [apply list_elem_of_here | apply list_elem_of_further]].
  destruct (is_regular_file fs (prefix +:+ "-ParameterFile.txt")) as [cP|] eqn:HP;
    [|repeat apply conj; try done; left; apply Hmissing; [|done];
      unfold companion_names;
      repeat first [apply list_elem_of_here | apply list_elem_of_further]].
  assert (files_present fs prefix cR cC cX cY cP) as Hfiles by done.
  cbv zeta. unfold mbind' at 1.
  pose proof (read_parameter_file_frame cP (matrices_loaded cR cC cX cY e, fs)) as Hframe.
  destruct (read_parameter_file cP (matrices_loaded cR cC cX cY e, fs))
    as [[kt params] w1|ex w1|] eqn:Hparse; [| |done].
  - destruct Hframe as (Hfs & Hk & Hi & Hm & _). cbn [fst snd] in *.
    unfold mbind', assign_engine, assign.
    pose proof (load_kernel_outcome m_Map kt params w1) as Hload.
    destruct (load_kernel m_Map kt params w1) as [[] w2|ex w2|].
    + destruct Hload as (Hfs2 & k & Hw2). cbn [fst snd].
      split; [congruence|]. split; [done|]. by rewrite Hw2.
    + destruct Hload as (-> & Hex). repeat apply conj; try done.
      destruct Hex as [->|[->|(name & create & Hname & ? & ?)]]; [by auto..|].
      do 4 right. exists name, create, params. repeat apply conj; try done.
      by exists cR, cC, cX, cY, cP, kt.
    + destruct Hload as (name & Hname & Hundef). exists name, params, w1.
      split; [|done]. by exists cR, cC, cX, cY, cP, kt.
  - destruct Hframe as (Hfs & Hk & Hi & Hm & _). cbn [fst snd] in *.
    repeat apply conj; try done. right. left.
    unfold read_parameter_file in Hparse.
    repeat (case_match; try done); by injection Hparse as <- _.
Qed.
End LoadFailures.

(** X11. [Load] reads the five files in a fixed order and assigns each
    matrix as soon as it is read: when a file is missing or is a directory
    it throws the file exception for that file (kind [FileNotFound]), the
    members read from the files before it hold the contents of these files,
    and nothing else has changed. A path counts as missing when nothing is
    there, be it that a file could be created or not, and when a directory
    is there. *)
Theorem Load_missing_file `{Scalar T} `{Eigen T} `{KernelLib T} `{MatrixIO T}
    (m_Map : gmap string (ComponentFactoryFuncPtr T)) (prefix : string)
    (e : GaussianProcess T) (fs : gmap string fs_node) :
  let missing (name : string) := is_regular_file fs (prefix +:+ name) = None in
  let present (name content : string) :=
    is_regular_file fs (prefix +:+ name) = Some content in
  let fails (name : string) (e' : GaussianProcess T) :=
    GaussianProcess_Load m_Map prefix (e, fs)
      = Raise (FileMissing (prefix +:+ name)) (e', fs) ∧
    kind_of (FileMissing (prefix +:+ name)) = FileNotFound in
  (missing "-RegressionVectors.txt" → fails "-RegressionVectors.txt" e) ∧
  (∀ cR, present "-RegressionVectors.txt" cR → missing "-CoreMatrix.txt" →
     fails "-CoreMatrix.txt" (set_RegressionVectors (ReadMatrix_text cR) e)) ∧
  (∀ cR cC, present "-RegressionVectors.txt" cR → present "-CoreMatrix.txt" cC →
     missing "-SampleVectors.txt" →
     fails "-SampleVectors.txt"
       (set_CoreMatrix (ReadMatrix_text cC)
          (set_RegressionVectors (ReadMatrix_text cR) e))) ∧
  (∀ cR cC cX, present "-RegressionVectors.txt" cR → present "-CoreMatrix.txt" cC →
     present "-SampleVectors.txt" cX → missing "-LabelVectors.txt" →
     fails "-LabelVectors.txt"
       (set_SampleVectors (columns (ReadMatrix_text cX))
          (set_CoreMatrix (ReadMatrix_text cC)
             (set_RegressionVectors (ReadMatrix_text cR) e)))) ∧
  (∀ cR cC cX cY, present "-RegressionVectors.txt" cR → present "-CoreMatrix.txt" cC →
     present "-SampleVectors.txt" cX → present "-LabelVectors.txt" cY →
     missing "-ParameterFile.txt" →
     fails "-ParameterFile.txt" (matrices_loaded cR cC cX cY e)) ∧
  (∀ name, missing name ↔
     fs !! (prefix +:+ name) = None ∨ fs !! (prefix +:+ name) = Some Unreachable ∨
     fs !! (prefix +:+ name) = Some Directory).
Proof.
  cbv zeta. rewrite Load_by_files.
  split; [by intros ->|].
  split; [by intros cR -> ->|].
  split; [by intros cR cC -> -> ->|].
  split; [by intros cR cC cX -> -> -> ->|].
  split; [by intros cR cC cX cY -> -> -> -> ->|].
  intros name. unfold is_regular_file.
  destruct (fs !! (prefix +:+ name)) as [[|c|c|]|].
  - split; [by auto|done].
  - split; [done|]. by intros [?|[?|?]].
  - split; [done|]. by intros [?|[?|?]].
  - split; [by auto|done].
  - split; [by auto|done].
Qed.

(** X12. What [Load] never does. It never writes a file and never changes
    the inversion strategy. When it throws, the trained flag and the kernel
    are those before the call, and the exception is the file exception of
    one of the five paths, which is no regular file, the
    corrupt-parameter-file exception, one of the two kernel-name
    exceptions, or the exception thrown by the function registered in the
    kernel factory under the name with which [Load] calls the factory.
    When it returns, the flag is set. Its behaviour is undefined in one
    case only: the five files are there, the parameter file has been read,
    the kernel type is one of the two atomic names or contains [SumKernel]
    and splits into three tokens, and [KernelFactory::Load], called with
    that name or with the first token, is undefined (the name is not
    registered, or the registered function is undefined on the
    parameters). *)
Theorem Load_frame_and_exceptions `{Scalar T} `{Eigen T} `{KernelLib T} `{MatrixIO T}
    (m_Map : gmap string (ComponentFactoryFuncPtr T)) (prefix : string)
    (w : world (T:=T)) :
  match GaussianProcess_Load m_Map prefix w with
  | Return _ w' =>
      w'.2 = w.2 ∧ m_Initialized w'.1 = true ∧ m_InvMethod w'.1 = m_InvMethod w.1
  | Raise ex w' =>
      w'.2 = w.2 ∧ m_Initialized w'.1 = m_Initialized w.1 ∧
      m_Kernel w'.1 = m_Kernel w.1 ∧ m_InvMethod w'.1 = m_InvMethod w.1 ∧
      ((∃ name, name ∈ companion_names ∧ ex = FileMissing (prefix +:+ name) ∧
                is_regular_file w.2 (prefix +:+ name) = None ∧
                kind_of ex = FileNotFound) ∨
       (ex = ParameterFileCorrupt ∧ kind_of ex = CorruptParameterFile) ∨
       ((ex = TokenizeFailed ∨ ex = KernelNotRecognized) ∧
        kind_of ex = UnknownKernelType) ∨
       ∃ name create parameters,
         reaches_factory prefix w name parameters w' ∧
         m_Map !! name = Some create ∧ create parameters = Throw ex)
  | Stuck =>
      ∃ name parameters w1,
        reaches_factory prefix w name parameters w1 ∧
        KernelFactory_Load m_Map name parameters = Undefined
  end.
Proof.
  pose proof (Load_outcome m_Map prefix w) as Ho.
  destruct (GaussianProcess_Load m_Map prefix w) as [r w'|ex w'|]; [done| |done].
  destruct Ho as (Hfs & Hi & Hk & Hm & Hex). repeat apply conj; try done.
  destruct Hex as [(f & Hin & -> & Hf)|[->|[->|[->|Hex]]]].
  - left. by exists f.
  - right. by left.
  - right. right. left. by split; [left|].
  - right. right. left. by split; [right|].
  - by do 3 right.
Qed.

(** X13. An empty parameter file is not reported as corrupt: the exception
    for a corrupt file is thrown only inside the branch taken when a line
    can be read, so that with the four matrix files in place and an empty
    parameter file [Load] assigns the four matrices, keeps the noise, the
    dimensions and the debug flag, and throws the not-recognized exception
    (kind [UnknownKernelType]) for the empty kernel type. *)
Theorem Load_empty_parameter_file `{Scalar T} `{Eigen T} `{KernelLib T} `{MatrixIO T}
    (m_Map : gmap string (ComponentFactoryFuncPtr T)) (prefix : string)
    (e : GaussianProcess T) (fs : gmap string fs_node) (cR cC cX cY : string) :
  files_present fs prefix cR cC cX cY EmptyString →
  GaussianProcess_Load m_Map prefix (e, fs)
    = Raise KernelNotRecognized (matrices_loaded cR cC cX cY e, fs) ∧
  kind_of KernelNotRecognized = UnknownKernelType ∧
  m_Sigma (matrices_loaded cR cC cX cY e) = m_Sigma e ∧
  m_InputDimension (matrices_loaded cR cC cX cY e) = m_InputDimension e ∧
  m_OutputDimension (matrices_loaded cR cC cX cY e) = m_OutputDimension e ∧
  debug (matrices_loaded cR cC cX cY e) = debug e.
Proof.
  intros Hfiles. split; [|done].
  by apply (Load_not_recognized m_Map prefix e fs cR cC cX cY EmptyString EmptyString []).
Qed.

(** ** The names of composite kernels *)

Lemma split_delim_append c t rest :
  contains c t = false → split_delim c (t +:+ String c rest) = (t, rest).
Proof.
  induction t as [|a t IH]; simpl.
  - intros _. by rewrite decide_True.
  - case_decide; [done|]. intros Ht. by rewrite IH.
Qed.

Lemma split_delim_whole c t : contains c t = false → split_delim c t = (t, EmptyString).
Proof.
  induction t as [|a t IH]; simpl; [done|].
  case_decide; [done|]. intros Ht. by rewrite IH.
Qed.

Lemma getline_append c t rest :
  contains c t = false → getline c (t +:+ String c rest) = Some (t, rest).
Proof.
  intros Ht. unfold getline. rewrite split_delim_append by done. by destruct t.
Qed.

Lemma getline_whole c t :
  contains c t = false → t ≠ EmptyString → getline c t = Some (t, EmptyString).
Proof.
  intros Ht Hne. unfold getline. rewrite split_delim_whole by done. by destruct t.
Qed.

(** X14. The tokens of a composite kernel name. For texts [t0], [t1] and
    [t2] without the separator [#]: a name [t0#t1#t2] with a non-empty [t2],
    and a name [t0#t1#t2#...] with any [t2], yield the three tokens, and
    [t0] is not compared with [SumKernel]; a name without separator, a name
    [t0#t1] with one separator and a name [t0#t1#] that ends with the second
    separator throw the tokenize exception. *)
Theorem tokenize_summands_tokens (t0 t1 t2 : string) :
  contains "#" t0 = false → contains "#" t1 = false → contains "#" t2 = false →
  (t2 ≠ EmptyString →
   tokenize_summands (t0 +:+ "#" +:+ t1 +:+ "#" +:+ t2) = Ok (t0, t1, t2)) ∧
  (∀ more, tokenize_summands (t0 +:+ "#" +:+ t1 +:+ "#" +:+ t2 +:+ "#" +:+ more)
           = Ok (t0, t1, t2)) ∧
  tokenize_summands t0 = Throw TokenizeFailed ∧
  tokenize_summands (t0 +:+ "#" +:+ t1) = Throw TokenizeFailed ∧
  tokenize_summands (t0 +:+ "#" +:+ t1 +:+ "#") = Throw TokenizeFailed ∧
  kind_of TokenizeFailed = UnknownKernelType.
Proof.
  intros H0' H1' H2'.
  change "#" with (String "#"%char EmptyString).
  assert (∀ s, String "#" EmptyString +:+ s = String "#" s) as Hcons by done.
  rewrite !Hcons.
  split.
  { intros Hne. unfold tokenize_summands. rewrite getline_append by done. simpl.
    rewrite getline_append by done. by rewrite getline_whole. }
  split.
  { intros more. rewrite !Hcons.
    unfold tokenize_summands. rewrite getline_append by done. simpl.
    rewrite getline_append by done. by rewrite getline_append. }
  split.
  { unfold tokenize_summands. destruct (decide (t0 = EmptyString)) as [->|Hne]; [done|].
    rewrite getline_whole by done. done. }
  split.
  { unfold tokenize_summands. rewrite getline_append by done. simpl.
    destruct (decide (t1 = EmptyString)) as [->|Hne]; [done|].
    rewrite getline_whole by done. done. }
  split; [|done].
  unfold tokenize_summands. rewrite getline_append by done. simpl.
  by rewrite getline_append.
Qed.

Section LoadWitnesses.
#[local] Existing Instance IEEE.binary64.
#[local] Existing Instance Example.eigen.
#[local] Existing Instance Example.kernels.
#[local] Existing Instance Example.matrix_io.

(** [Load] on the trained engine of two samples. With a directory at the
    path of the sample file it stops at the third file: the regression
    coefficients and the core matrix are those of the first two files, no
    longer the two rows trained, and the samples and the flag are as
    before. Without a parameter file it stops at the fifth file, after the
    sample of the file has replaced the two samples. *)
Lemma Load_missing_file_witness :
  let e := Example.two_samples_trained in
  let e2 := set_CoreMatrix (ReadMatrix_text "1 1 3")
              (set_RegressionVectors (ReadMatrix_text "1 1 2") e) in
  let e4 := matrices_loaded "1 1 2" "1 1 3" "1 1 5" "1 1 7" e in
  (GaussianProcess_Load Example.registry "m" (e, MoreExamples.sample_directory)
     = Raise (FileMissing "m-SampleVectors.txt") (e2, MoreExamples.sample_directory) ∧
   mrows (m_RegressionVectors e) = 2 ∧
   m_RegressionVectors e2 = mkMatrix 1 1 [[Example.d "2"]] ∧
   m_CoreMatrix e2 = mkMatrix 1 1 [[Example.d "3"]] ∧
   m_SampleVectors e2 = [[Example.d "0"]; [Example.d "1"]] ∧
   m_Initialized e2 = true) ∧
  (GaussianProcess_Load Example.registry "m" (e, MoreExamples.no_parameter_file)
     = Raise (FileMissing "m-ParameterFile.txt") (e4, MoreExamples.no_parameter_file) ∧
   m_SampleVectors e4 = [[Example.d "5"]] ∧
   m_LabelVectors e4 = [[Example.d "7"]] ∧
   m_Sigma e4 = Example.d "0.01" ∧
   m_Initialized e4 = true).
Proof.
  cbv zeta. split.
  - destruct (Load_missing_file Example.registry "m" Example.two_samples_trained
                MoreExamples.sample_directory) as (_ & _ & Hthird & _).
    destruct (Hthird "1 1 2" "1 1 3") as [Hload _]; [vm_compute; reflexivity..|].
    split; [exact Hload|]. repeat apply conj; vm_compute; reflexivity.
  - destruct (Load_missing_file Example.registry "m" Example.two_samples_trained
                MoreExamples.no_parameter_file) as (_ & _ & _ & _ & Hfifth & _).
    destruct (Hfifth "1 1 2" "1 1 3" "1 1 5" "1 1 7") as [Hload _];
      [vm_compute; reflexivity..|].
    split; [exact Hload|]. repeat apply conj; vm_compute; reflexivity.
Defined.

(** With an empty kernel factory, [Load] of files that declare
    [GaussianKernel] reaches the call of the factory, which dereferences
    the end of the map. *)
Lemma Load_frame_and_exceptions_witness :
  GaussianProcess_Load ∅ "m" (Example.fresh, Example.companion_files "GaussianKernel")
    = Stuck ∧
  ∃ name parameters w1,
    reaches_factory "m" (Example.fresh, Example.companion_files "GaussianKernel")
      name parameters w1 ∧
    KernelFactory_Load (∅ : gmap string (ComponentFactoryFuncPtr spec_float))
      name parameters = Undefined.
Proof.
  pose proof (Load_frame_and_exceptions ∅ "m"
                (Example.fresh, Example.companion_files "GaussianKernel")) as Hload.
  assert (GaussianProcess_Load ∅ "m"
            (Example.fresh, Example.companion_files "GaussianKernel") = Stuck) as Hstuck
    by (vm_compute; reflexivity).
  rewrite Hstuck in Hload. split; [exact Hstuck|exact Hload].
Defined.

Lemma Load_empty_parameter_file_witness :
  GaussianProcess_Load Example.registry "m"
    (Example.fresh, MoreExamples.empty_parameter_file)
  = Raise KernelNotRecognized
      (matrices_loaded "1 1 2" "1 1 3" "1 1 5" "1 1 7" Example.fresh,
       MoreExamples.empty_parameter_file).
Proof.
  destruct (Load_empty_parameter_file Example.registry "m" Example.fresh
              MoreExamples.empty_parameter_file "1 1 2" "1 1 3" "1 1 5" "1 1 7")
    as [Hload _].
  - repeat apply conj; vm_compute; reflexivity.
  - exact Hload.
Defined.

Lemma tokenize_summands_tokens_witness :
  tokenize_summands "SumKernel#GaussianKernel#PeriodicKernel"
    = Ok ("SumKernel", "GaussianKernel", "PeriodicKernel").
Proof.
  destruct (tokenize_summands_tokens "SumKernel" "GaussianKernel" "PeriodicKernel")
    as [Hok _]; [reflexivity..|].
  apply Hok. discriminate.
Defined.
End LoadWitnesses.

(** ** The files that [Save] writes *)

Section StackColumns.
Context `{Scalar T} `{Eigen T} `{KernelLib T} `{MatrixIO T}.

(** The matrix that [Save] builds from a list of vectors of one size has
    these vectors as its columns. *)
Lemma stack_columns_columns (vectors : list (Vector T)) d :
  vectors ≠ [] → Forall (λ v, length v = d) vectors →
  ∃ X, stack_columns vectors = Ok X ∧ mat_wf X ∧
       mrows X = d ∧ mcols X = length vectors ∧ columns X = vectors.
Proof.
  intros Hne Hall. unfold stack_columns.
  destruct vectors as [|v0 vs] eqn:Ev; [done|]. rewrite <- Ev in *.
  assert (at_index vectors 0 = Ok v0) as -> by (by rewrite Ev).
  assert (length v0 = d) as Hd.
  { rewrite Ev in Hall. by apply Forall_cons in Hall as [? _]. }
  simpl. rewrite Hd.
  set (n := length vectors).
  set (Q := λ i (M : Matrix T),
         mat_wf M ∧ mrows M = d ∧ mcols M = n ∧
         ∀ r c, c < i → r < d → coeff M r c = vectors !! c ≫= λ v, v !! r).
  destruct (rfold_seq_inv Q
    (λ X i, vi <- at_index vectors i;; mat_block_assign 0 i d 1 (col_matrix vi) X)
    0 n (mat_zero d n)) as (X & HX & HXwf & Hr & Hc & Hcells).
  - split; [apply mat_fill_wf|]. do 2 (split; [done|]). intros r c Hc. lia.
  - intros M i [_ Hi] (HMwf & Hr & Hc & Hcells). simpl in Hi.
    destruct (lookup_lt_is_Some_2 vectors i Hi) as [vi Hvi].
    unfold at_index. rewrite Hvi. simpl.
    assert (length vi = d) as Hvd by (eapply Forall_lookup_1 in Hall; done).
    destruct (assign_column M i (col_matrix vi) vi HMwf)
      as (M' & HM' & Hwf' & Hr' & Hc' & Hlook); [lia|simpl; lia|done|done|lia|].
    rewrite Hr in HM'. exists M'. split; [exact HM'|].
    split; [done|]. split; [lia|]. split; [lia|].
    intros r c Hci Hrd. rewrite Hlook. case_decide as Hcase.
    + destruct Hcase as [-> _]. by rewrite Hvi.
    + apply Hcells; [|done]. destruct (decide (c = i)) as [->|]; [|lia].
      destruct Hcase. split; [done|lia].
  - exists X. split; [exact HX|]. split; [done|]. split; [done|]. split; [done|].
    unfold columns. rewrite Hc. apply list_eq. intros i.
    rewrite lookup_tabulate. case_decide as Hi.
    + destruct (lookup_lt_is_Some_2 vectors i Hi) as [vi Hvi]. rewrite Hvi. f_equal.
      assert (length vi = d) as Hvd by (eapply Forall_lookup_1 in Hall; done).
      apply list_eq. intros r. rewrite lookup_mat_col by (done || lia).
      destruct (decide (r < d)) as [Hrd|Hrd].
      * rewrite Hcells by (done || lia). by rewrite Hvi.
      * rewrite (lookup_ge_None_2 vi) by lia.
        unfold coeff. destruct HXwf as [HXl _].
        rewrite (lookup_ge_None_2 (mdata X)) by lia. done.
    + symmetry. apply lookup_ge_None_2. fold n. lia.
Qed.
End StackColumns.

Section WrittenFiles.

Lemma lookup_write_file p content (fs : gmap string fs_node) q :
  write_file p content fs !! q =
    if decide (q = p)
    then (if opens_for_writing fs p then Some (RegularFile content) else fs !! p)
    else fs !! q.
Proof.
  unfold write_file. case_decide as Hq.
  - subst q. destruct (opens_for_writing fs p); by rewrite ?lookup_insert_eq.
  - destruct (opens_for_writing fs p); by rewrite ?lookup_insert_ne.
Qed.

(** A write to one path leaves another path as easy to open as it was. *)
Lemma opens_after_write p content (fs : gmap string fs_node) q :
  q ≠ p → opens_for_writing (write_file p content fs) q = opens_for_writing fs q.
Proof.
  intros Hq. unfold opens_for_writing. by rewrite lookup_write_file, decide_False.
Qed.

Lemma prefix_inj (prefix a b : string) : prefix +:+ a = prefix +:+ b → a = b.
Proof. apply String.app_inj. Qed.
End WrittenFiles.

Section SaveFiles.
Context `{Scalar T} `{Eigen T} `{KernelLib T} `{MatrixIO T}.
Implicit Type e : GaussianProcess T.

(** [Save] as the five writes. *)
Lemma Save_writes prefix e fs r (w' : world (T:=T)) :
  Save prefix (e, fs) = Return r w' →
  ∃ X Y k,
    stack_columns (m_SampleVectors e) = Ok X ∧
    stack_columns (m_LabelVectors e) = Ok Y ∧ m_Kernel e = Some k ∧
    w' = (e,
          write_file (prefix +:+ "-ParameterFile.txt") (parameter_line e k)
            (write_file (prefix +:+ "-LabelVectors.txt") (WriteMatrix_text Y)
               (write_file (prefix +:+ "-SampleVectors.txt") (WriteMatrix_text X)
                  (write_file (prefix +:+ "-CoreMatrix.txt")
                     (WriteMatrix_text (m_CoreMatrix e))
                     (write_file (prefix +:+ "-RegressionVectors.txt")
                        (WriteMatrix_text (m_RegressionVectors e)) fs))))).
Proof.
  unfold Save, mbind', WriteMatrix, assign, call. cbn [fst snd].
  destruct (m_Initialized e); [|done]. cbn [negb].
  destruct (stack_columns (m_SampleVectors e)) as [X| |]; [|done..]. cbn [fst snd].
  destruct (stack_columns (m_LabelVectors e)) as [Y| |]; [|done..]. cbn [fst snd].
  unfold deref. destruct (m_Kernel e) as [k|]; [|done]. cbn [fst snd].
  intros [= _ <-]. by exists X, Y, k.
Qed.

(** What the five writes leave at one of the five paths. *)
Lemma saved_file_lookup prefix e k (X Y : Matrix T) fs name content :
  (name, content) ∈ saved_files e k X Y →
  write_file (prefix +:+ "-ParameterFile.txt") (parameter_line e k)
    (write_file (prefix +:+ "-LabelVectors.txt") (WriteMatrix_text Y)
       (write_file (prefix +:+ "-SampleVectors.txt") (WriteMatrix_text X)
          (write_file (prefix +:+ "-CoreMatrix.txt")
             (WriteMatrix_text (m_CoreMatrix e))
             (write_file (prefix +:+ "-RegressionVectors.txt")
                (WriteMatrix_text (m_RegressionVectors e)) fs))))
    !! (prefix +:+ name)
  = if opens_for_writing fs (prefix +:+ name) then Some (RegularFile content)
    else fs !! (prefix +:+ name).
Proof.
  intros Hin. unfold saved_files in Hin.
  assert (∀ a b, a ≠ b → prefix +:+ a ≠ prefix +:+ b) as Hne.
  { intros a b Hab Heq. by apply Hab, (prefix_inj prefix). }
  assert (∀ p c (g : gmap string fs_node),
            write_file p c g !! p
            = if opens_for_writing g p then Some (RegularFile c) else g !! p) as Hhit.
  { intros p c g. by rewrite lookup_write_file, decide_True. }
  assert (∀ p q c (g : gmap string fs_node),
            q ≠ p → write_file p c g !! q = g !! q) as Hmiss.
  { intros p q c g Hqp. by rewrite lookup_write_file, decide_False. }
  repeat (apply elem_of_cons in Hin as [[= -> ->]|Hin]);
    [..|by apply elem_of_nil in Hin].
  - rewrite !Hmiss by (by apply Hne). by rewrite Hhit.
  - rewrite !Hmiss by (by apply Hne). rewrite Hhit.
    rewrite !opens_after_write by (by apply Hne).
    rewrite !Hmiss by (by apply Hne). done.
  - rewrite !Hmiss by (by apply Hne). rewrite Hhit.
    rewrite !opens_after_write by (by apply Hne).
    rewrite !Hmiss by (by apply Hne). done.
  - rewrite !Hmiss by (by apply Hne). rewrite Hhit.
    rewrite !opens_after_write by (by apply Hne).
    rewrite !Hmiss by (by apply Hne). done.
  - rewrite Hhit. rewrite !opens_after_write by (by apply Hne).
    rewrite !Hmiss by (by apply Hne). done.
Qed.
End SaveFiles.

(** X15. The files of [Save]. A call that returns has built the matrices
    [X] and [Y] whose columns are the samples and the labels and has found
    a kernel; each of the five companion paths that can be opened for
    writing then holds the text of its matrix, respectively the parameter
    line. The stream of the parameter file is never tested: when its path
    cannot be opened (a directory, a file that cannot be written, a missing
    or closed directory on the way), [Save] returns all the same and the
    path holds what it held before, not the parameter line. Every path
    other than the five is as it was. When all samples have one size, and
    all labels, the columns of [X] and [Y] are the samples and the labels
    in their order. *)
Theorem Save_writes_five_files `{Scalar T} `{Eigen T} `{KernelLib T} `{MatrixIO T}
    (prefix : string) (e : GaussianProcess T) (fs : gmap string fs_node)
    (r : unit) (w' : world (T:=T)) :
  Save prefix (e, fs) = Return r w' →
  ∃ X Y k,
    stack_columns (m_SampleVectors e) = Ok X ∧
    stack_columns (m_LabelVectors e) = Ok Y ∧ m_Kernel e = Some k ∧
    w'.1 = e ∧
    (∀ name content, (name, content) ∈ saved_files e k X Y →
       opens_for_writing fs (prefix +:+ name) = true →
       w'.2 !! (prefix +:+ name) = Some (RegularFile content)) ∧
    (opens_for_writing fs (prefix +:+ "-ParameterFile.txt") = false →
     w'.2 !! (prefix +:+ "-ParameterFile.txt") = fs !! (prefix +:+ "-ParameterFile.txt")) ∧
    (∀ path, (∀ name, name ∈ companion_names → path ≠ prefix +:+ name) →
       w'.2 !! path = fs !! path) ∧
    (∀ d, Forall (λ v, length v = d) (m_SampleVectors e) →
       mrows X = d ∧ mcols X = GetNumberOfSamples e ∧ columns X = m_SampleVectors e) ∧
    (∀ d, Forall (λ v, length v = d) (m_LabelVectors e) →
       mrows Y = d ∧ mcols Y = length (m_LabelVectors e) ∧
       columns Y = m_LabelVectors e).
Proof.
  intros Hsave. destruct (Save_writes prefix e fs r w' Hsave) as (X & Y & k & HX & HY & Hk & ->).
  exists X, Y, k. cbn [fst snd]. repeat apply conj; try done.
  - intros name content Hin Hopen.
    by rewrite (saved_file_lookup prefix e k X Y fs name content Hin), Hopen.
  - intros Hclosed.
    rewrite (saved_file_lookup prefix e k X Y fs "-ParameterFile.txt" (parameter_line e k)).
    + by rewrite Hclosed.
    + unfold saved_files.
      repeat first [apply list_elem_of_here | apply list_elem_of_further].
  - intros path Hpath. rewrite !lookup_write_file.
    rewrite !decide_False; [done|..].
    all: apply Hpath; unfold companion_names;
      repeat first [apply list_elem_of_here | apply list_elem_of_further].
  - intros d Hall.
    assert (m_SampleVectors e ≠ []) as Hne.
    { intros Hnil. rewrite Hnil in HX. done. }
    destruct (stack_columns_columns _ d Hne Hall) as (X' & HX' & _ & ? & ? & ?).
    rewrite HX in HX'. by injection HX' as <-.
  - intros d Hall.
    assert (m_LabelVectors e ≠ []) as Hne.
    { intros Hnil. rewrite Hnil in HY. done. }
    destruct (stack_columns_columns _ d Hne Hall) as (Y' & HY' & _ & ? & ? & ?).
    rewrite HY in HY'. by injection HY' as <-.
Qed.

Section SaveWitness.
#[local] Existing Instance IEEE.binary64.
#[local] Existing Instance Example.eigen.
#[local] Existing Instance Example.kernels.
#[local] Existing Instance Example.matrix_io.

(** [Save] of the trained engine of two samples where a parameter file is
    there that cannot be written: the call returns, the sample file holds
    the two samples as columns, and the parameter file is the old one. *)
Lemma Save_writes_five_files_witness :
  let w' := after (Save "m" (Example.two_samples_trained,
                             MoreExamples.read_only_parameter_file))
              (Example.two_samples_trained, MoreExamples.read_only_parameter_file) in
  Save "m" (Example.two_samples_trained, MoreExamples.read_only_parameter_file)
    = Return tt w' ∧
  (∃ X, stack_columns (m_SampleVectors Example.two_samples_trained) = Ok X ∧
        columns X = m_SampleVectors Example.two_samples_trained ∧
        w'.2 !! "m-SampleVectors.txt" = Some (RegularFile (WriteMatrix_text X))) ∧
  w'.2 !! "m-ParameterFile.txt" = Some (ReadOnlyFile "PeriodicKernel 0 0.5 1 1 1").
Proof.
  cbv zeta.
  assert (Save "m" (Example.two_samples_trained, MoreExamples.read_only_parameter_file)
          = Return tt (after (Save "m" (Example.two_samples_trained,
                                        MoreExamples.read_only_parameter_file))
                         (Example.two_samples_trained,
                          MoreExamples.read_only_parameter_file))) as Hsave.
  { apply returns_after. vm_compute. reflexivity. }
  split; [exact Hsave|].
  destruct (Save_writes_five_files "m" Example.two_samples_trained
              MoreExamples.read_only_parameter_file tt _ Hsave)
    as (X & Y & k & HX & _ & _ & _ & Hfiles & Hclosed & _ & Hcols & _).
  split.
  - exists X. split; [exact HX|]. split.
    + apply (Hcols 1). vm_compute. repeat constructor.
    + apply (Hfiles "-SampleVectors.txt").
      * unfold saved_files.
        repeat first [apply list_elem_of_here | apply list_elem_of_further].
      * vm_compute. reflexivity.
  - etransitivity; [apply Hclosed|]; vm_compute; reflexivity.
Defined.
End SaveWitness.

(** ** The text of the parameter file *)

Section Text.

Lemma append_cons x (a b : string) : String x a +:+ b = String x (a +:+ b).
Proof. done. Qed.

Lemma append_assoc (a b c : string) : (a +:+ b) +:+ c = a +:+ (b +:+ c).
Proof. induction a as [|x a IH]; [done|]. rewrite !append_cons. f_equal. exact IH. Qed.

Lemma append_nil_r (a : string) : a +:+ EmptyString = a.
Proof. induction a as [|x a IH]; [done|]. rewrite append_cons. f_equal. exact IH. Qed.

Lemma contains_append c (a b : string) :
  contains c (a +:+ b) = contains c a || contains c b.
Proof.
  induction a as [|x a IH]; [done|]. rewrite append_cons. simpl.
  case_decide; [done|exact IH].
Qed.

(** The ten digit characters. *)
Lemma digit_character (d : N) :
  (d < 10)%N →
  digit_of (ascii_of_N (48 + d)) = Some d ∧
  isspace (ascii_of_N (48 + d)) = false ∧
  ascii_of_N (48 + d) ≠ "-"%char ∧ ascii_of_N (48 + d) ≠ "+"%char ∧
  ascii_of_N (48 + d) ≠ newline.
Proof.
  intros Hd.
  assert (d = 0 ∨ d = 1 ∨ d = 2 ∨ d = 3 ∨ d = 4 ∨ d = 5 ∨ d = 6 ∨ d = 7 ∨ d = 8 ∨ d = 9)%N
    as Hcases by lia.
  repeat (destruct Hcases as [->|Hcases]); try subst d; by vm_compute.
Qed.

(** The digits that [print_digits] puts in front of [acc] are read as the
    number printed. *)
Lemma read_print_digits fuel (n : N) acc (a : N) (c : nat) :
  (n < 10 ^ N.of_nat fuel)%N →
  ∃ k, (0 < fuel → 0 < k) ∧
       read_digits (print_digits fuel n acc) a c
         = read_digits acc (a * 10 ^ N.of_nat k + n)%N (c + k).
Proof.
  revert n acc a c. induction fuel as [|fuel IH]; intros n acc a c Hn.
  { exists 0. split; [lia|]. simpl in *.
    replace n with 0%N by lia. f_equal; [lia|lia]. }
  cbn [print_digits].
  assert (n mod 10 < 10)%N as Hmod by (apply N.mod_lt; lia).
  destruct (digit_character (n mod 10) Hmod) as (Hdigit & _).
  destruct (n <? 10)%N eqn:Hlt.
  - apply N.ltb_lt in Hlt. exists 1. split; [lia|].
    cbn [read_digits]. rewrite Hdigit. rewrite N.mod_small by done.
    f_equal; [|lia]. change (10 ^ N.of_nat 1)%N with 10%N. lia.
  - apply N.ltb_ge in Hlt.
    destruct (IH (n / 10)%N (String (ascii_of_N (48 + n mod 10)) acc) a c)
      as (k & _ & Hread).
    { apply N.Div0.div_lt_upper_bound.
      rewrite Nat2N.inj_succ, N.pow_succ_r' in Hn. exact Hn. }
    exists (S k). split; [lia|]. rewrite Hread. cbn [read_digits]. rewrite Hdigit.
    f_equal; [|lia]. rewrite Nat2N.inj_succ, N.pow_succ_r'.
    pose proof (N.div_mod n 10). lia.
Qed.

Lemma print_digits_head fuel (n : N) acc :
  ∃ d s, (d < 10)%N ∧ print_digits (S fuel) n acc = String (ascii_of_N (48 + d)) s.
Proof.
  revert n acc. induction fuel as [|fuel IH]; intros n acc.
  - exists (n mod 10)%N, acc. split; [apply N.mod_lt; lia|].
    simpl. by destruct (n <? 10)%N.
  - change (print_digits (S (S fuel)) n acc)
      with (let acc' := String (ascii_of_N (48 + n mod 10)) acc in
            if (n <? 10)%N then acc' else print_digits (S fuel) (n / 10)%N acc').
    cbv zeta. destruct (n <? 10)%N.
    + exists (n mod 10)%N, acc. split; [apply N.mod_lt; lia|done].
    + apply IH.
Qed.

Lemma contains_print_digits c fuel (n : N) acc :
  (∀ d, (d < 10)%N → ascii_of_N (48 + d) ≠ c) →
  contains c (print_digits fuel n acc) = contains c acc.
Proof.
  intros Hc. revert n acc. induction fuel as [|fuel IH]; intros n acc; [done|].
  cbn [print_digits].
  assert (contains c (String (ascii_of_N (48 + n mod 10)) acc) = contains c acc) as Hhead.
  { simpl. rewrite decide_False; [done|]. apply Hc, N.mod_lt. lia. }
  destruct (n <? 10)%N; [done|]. by rewrite IH.
Qed.

Lemma print_N_fuel (v : N) : (v < 10 ^ N.of_nat (S (N.to_nat (N.log2 v))))%N.
Proof.
  rewrite Nat2N.inj_succ, N2Nat.id.
  destruct (decide (v = 0%N)) as [->|Hv]; [done|].
  destruct (N.log2_spec v) as [_ Hlt]; [lia|].
  eapply N.lt_le_trans; [exact Hlt|].
  apply N.pow_le_mono_l. lia.
Qed.

Lemma contains_newline_print_unsigned n : contains newline (print_unsigned n) = false.
Proof.
  unfold print_unsigned, print_N. rewrite contains_print_digits; [done|].
  intros d Hd. by destruct (digit_character d Hd) as (_ & _ & _ & _ & ?).
Qed.

(** [stream >> unsigned] on the text that [stream << n] has written after a
    blank. *)
Lemma extract_unsigned_print (n : nat) rest :
  (N.of_nat n ≤ UINT_MAX)%N →
  extract_unsigned (String " " (print_unsigned n +:+ String " " rest))
    = Extracted n (String " " rest).
Proof.
  intros Hmax. unfold extract_unsigned, print_unsigned, print_N.
  change (skip_ws (String " " ?s)) with (skip_ws s).
  set (fuel := N.to_nat (N.log2 (N.of_nat n))).
  destruct (print_digits_head fuel (N.of_nat n) EmptyString) as (d & s & Hd & Hhead).
  destruct (digit_character d Hd) as (_ & Hsp & Hminus & Hplus & _).
  assert (skip_ws (print_digits (S fuel) (N.of_nat n) EmptyString +:+ String " " rest)
          = print_digits (S fuel) (N.of_nat n) EmptyString +:+ String " " rest) as ->.
  { rewrite Hhead, append_cons. simpl. by rewrite Hsp. }
  assert (read_sign (print_digits (S fuel) (N.of_nat n) EmptyString +:+ String " " rest)
          = (false, print_digits (S fuel) (N.of_nat n) EmptyString +:+ String " " rest))
    as ->.
  { rewrite Hhead, append_cons. simpl. by rewrite !decide_False. }
  assert (∀ fuel' v acc tail,
            print_digits fuel' v acc +:+ tail = print_digits fuel' v (acc +:+ tail))
    as Happ.
  { induction fuel' as [|fuel' IH]; intros v acc tail; [done|].
    cbn [print_digits]. destruct (v <? 10)%N; [done|]. by rewrite IH. }
  rewrite Happ. change (EmptyString +:+ String " " rest) with (String " " rest).
  destruct (read_print_digits (S fuel) (N.of_nat n) (String " " rest) 0 0)
    as (k & Hk & ->); [apply print_N_fuel|].
  cbn [read_digits]. change (digit_of " ") with (@None N). cbv iota.
  destruct (0 + k) as [|k'] eqn:Hk'; [lia|].
  rewrite N.mul_0_l, N.add_0_l.
  destruct (UINT_MAX <? N.of_nat n)%N eqn:Hcmp; [apply N.ltb_lt in Hcmp; lia|].
  by rewrite Nat2N.id.
Qed.

Lemma extract_bool_print (b : bool) :
  extract_bool (String " " (print_bool b)) = Extracted b EmptyString.
Proof. by destruct b. Qed.

(** [stream >> std::string] on a word followed by a blank. *)
Lemma extract_string_word (w : string) rest :
  w ≠ EmptyString → (∀ c, contains c w = true → isspace c = false) →
  extract_string (w +:+ String " " rest) = Extracted w (String " " rest).
Proof.
  intros Hne Hw. unfold extract_string.
  assert (skip_ws (w +:+ String " " rest) = w +:+ String " " rest) as ->.
  { destruct w as [|a w]; [done|]. rewrite append_cons. simpl.
    rewrite (Hw a); [done|]. simpl. by rewrite decide_True. }
  assert (take_word (w +:+ String " " rest) = (w, String " " rest)) as ->.
  { clear Hne. induction w as [|a w IH]; [done|]. rewrite append_cons. simpl.
    rewrite (Hw a) by (simpl; by rewrite decide_True).
    rewrite IH; [done|]. intros c Hc. apply Hw. simpl. rewrite Hc. by case_decide. }
  by destruct w.
Qed.
End Text.

(** ** The round trip through [Save] and [Load] *)

Section ParameterLine.
Context `{Scalar T} `{Eigen T} `{KernelLib T} `{MatrixIO T}.
Implicit Type e : GaussianProcess T.

Lemma append_blank (s : string) : " " +:+ s = String " " s.
Proof. done. Qed.

Lemma concat_cons (x : string) (xs : list string) :
  String.concat EmptyString (x :: xs) = x +:+ String.concat EmptyString xs.
Proof. destruct xs as [|y xs]; [by rewrite append_nil_r|done]. Qed.

Lemma contains_newline_parameters (ps : list T) :
  Forall reads_back ps →
  contains newline
    (String.concat EmptyString ((λ p, s_print (digits10 + 1) p +:+ " ") <$> ps)) = false.
Proof.
  induction 1 as [|p ps [Hp _] _ IH]; [done|].
  rewrite fmap_cons, concat_cons, !contains_append, Hp, IH. done.
Qed.

(** The loop of [Load] over the kernel parameters reads what the loop of
    [Save] has printed. *)
Lemma read_kernel_parameters_printed (ps : list T) tail acc load :
  Forall reads_back ps →
  read_kernel_parameters (length ps)
    (Some (String " "
             (String.concat EmptyString ((λ p, s_print (digits10 + 1) p +:+ " ") <$> ps)
              +:+ tail))) acc load
  = (acc ++ ps, Some (String " " tail), load).
Proof.
  intros Hps. revert acc. induction Hps as [|p ps [_ Hp] _ IH]; intros acc.
  { simpl. by rewrite app_nil_r. }
  rewrite fmap_cons, concat_cons, !append_assoc, append_blank.
  cbn [length read_kernel_parameters]. rewrite Hp, IH. by rewrite <- app_assoc.
Qed.

(** An extraction that succeeds on a text has passed the sentry: the text
    is not blank. *)
Lemma stream_get_string s a rest (target : string) :
  extract_string s = Extracted a rest →
  stream_get extract_string (Some s) target = (a, Some rest).
Proof.
  intros Hext. unfold stream_get. rewrite Hext.
  unfold extract_string in Hext. by destruct (skip_ws s).
Qed.

Lemma stream_get_unsigned s a rest (target : nat) :
  extract_unsigned s = Extracted a rest →
  stream_get extract_unsigned (Some s) target = (a, Some rest).
Proof.
  intros Hext. unfold stream_get. rewrite Hext.
  unfold extract_unsigned in Hext. by destruct (skip_ws s).
Qed.

Lemma stream_get_bool s a rest (target : bool) :
  extract_bool s = Extracted a rest →
  stream_get extract_bool (Some s) target = (a, Some rest).
Proof.
  intros Hext. unfold stream_get. rewrite Hext.
  unfold extract_bool in Hext. by destruct (skip_ws s).
Qed.

Lemma stream_get_scalar s a rest (target : T) :
  extract_scalar s = Extracted a rest →
  stream_get extract_scalar (Some s) target = (a, Some rest).
Proof.
  intros Hext. unfold stream_get. rewrite Hext.
  unfold extract_scalar in Hext. by destruct (skip_ws s).
Qed.

(** [Load] reads the line that [Save] has written. *)
Lemma parameter_line_parse e (k : Kernel T) (w : world (T:=T)) :
  k_tag k ≠ EmptyString → (∀ c, contains c (k_tag k) = true → isspace c = false) →
  Forall reads_back (k_params k) → reads_back (m_Sigma e) →
  (N.of_nat (length (k_params k)) ≤ UINT_MAX)%N →
  (N.of_nat (m_InputDimension e) ≤ UINT_MAX)%N →
  (N.of_nat (m_OutputDimension e) ≤ UINT_MAX)%N →
  read_parameter_file (parameter_line e k) w =
    Return (k_tag k, k_params k)
      (set_debug (debug e)
         (set_OutputDimension (m_OutputDimension e)
            (set_InputDimension (m_InputDimension e) (set_Sigma (m_Sigma e) w.1))),
       w.2).
Proof.
  intros Hne Hword Hps [Hsn Hs] Hn Hdi Hdo.
  assert (contains newline (k_tag k) = false) as Htn.
  { destruct (contains newline (k_tag k)) eqn:Hc; [|done].
    by apply Hword in Hc. }
  unfold read_parameter_file.
  assert (getline newline (parameter_line e k)
          = Some (parameter_line e k, EmptyString)) as ->.
  { apply getline_whole.
    - unfold parameter_line. rewrite !contains_append.
      rewrite Htn, Hsn, !contains_newline_print_unsigned.
      rewrite contains_newline_parameters by done. by destruct (debug e).
    - unfold parameter_line. destruct (k_tag k); done. }
  unfold parameter_line. rewrite !append_blank.
  rewrite (stream_get_string _ _ _ _ (extract_string_word _ _ Hne Hword)).
  rewrite (stream_get_unsigned _ _ _ _ (extract_unsigned_print _ _ Hn)).
  cbn [bool_decide decide_rel is_Some_dec andb].
  rewrite read_kernel_parameters_printed by done. cbn [app].
  rewrite (stream_get_scalar _ _ _ _ (Hs _)).
  rewrite (stream_get_unsigned _ _ _ _ (extract_unsigned_print _ _ Hdi)).
  rewrite (stream_get_unsigned _ _ _ _ (extract_unsigned_print _ _ Hdo)).
  rewrite (stream_get_bool _ _ _ _ (extract_bool_print _)).
  done.
Qed.
End ParameterLine.

Section RoundTripHolds.
Context `{Scalar T} `{Eigen T} `{KernelLib T} `{MatrixIO T}.
Implicit Type e : GaussianProcess T.

(** The kernel stage of [Load] for the two atomic kernel names. *)
Lemma load_kernel_atomic m_Map (k k' : Kernel T) create (w : world (T:=T)) :
  k_tag k = "GaussianKernel" ∨ k_tag k = "PeriodicKernel" →
  m_Map !! k_tag k = Some create → create (k_params k) = Ok (Some k') →
  k_class k' = k_tag k →
  load_kernel m_Map (k_tag k) (k_params k) w = Return tt (set_Kernel (Some k') w.1, w.2).
Proof.
  intros Htag Hmap Hcreate Hclass. unfold load_kernel.
  assert (KernelFactory_Load m_Map (k_tag k) (k_params k) = Ok (Some k')) as Hload.
  { unfold KernelFactory_Load. by rewrite Hmap. }
  destruct Htag as [Htag|Htag]; rewrite Htag in *.
  - rewrite decide_True by done. unfold mbind', call, assign_engine, assign.
    rewrite Hload. unfold dynamic_pointer_cast. by rewrite decide_True.
  - rewrite decide_False by done. rewrite decide_True by done.
    unfold mbind', call, assign_engine, assign.
    rewrite Hload. unfold dynamic_pointer_cast. by rewrite decide_True.
Qed.

Lemma atomic_tag_word (tag : string) :
  tag = "GaussianKernel" ∨ tag = "PeriodicKernel" →
  tag ≠ EmptyString ∧ ∀ c, contains c tag = true → isspace c = false.
Proof.
  intros [->| ->]; (split; [done|]); intros c; simpl;
    repeat (case_decide; [subst; by intros _|]); done.
Qed.
End RoundTripHolds.

(** X16. When the round trip through [Save] and [Load] is exact. Let [e]
    be a trained engine whose samples have one size and whose labels have
    one size, with a kernel [k] of the tag [GaussianKernel] or
    [PeriodicKernel] for which the factory holds a [Load] function that
    returns a kernel [k'] of that class on the parameters of [k]. Suppose
    the text printed for the noise and for every kernel parameter is read
    back as the same scalar, the three numbers of the parameter line fit
    an [unsigned], the four matrices written are read back as they are,
    and each of the five paths can be opened for writing (it holds no
    directory and no file that cannot be written, and no directory on the
    way to it is missing or closed). Then [Save] returns, and
    [Load] from the files it wrote, into any engine [e0], returns and
    leaves the regression coefficients, the core matrix, the samples, the
    labels, the noise, the two dimensions and the debug flag of [e], the
    kernel [k'] and the flag set. The inversion strategy is not part of
    the files: it stays that of [e0]. *)
Theorem Save_Load_round_trip_exact `{Scalar T} `{Eigen T} `{KernelLib T} `{MatrixIO T}
    (m_Map : gmap string (ComponentFactoryFuncPtr T)) (prefix : string)
    (e e0 : GaussianProcess T) (k k' : Kernel T) (create : ComponentFactoryFuncPtr T)
    (fs : gmap string fs_node) (dS dL : nat) :
  m_Initialized e = true → m_Kernel e = Some k →
  m_SampleVectors e ≠ [] → Forall (λ v, length v = dS) (m_SampleVectors e) →
  m_LabelVectors e ≠ [] → Forall (λ v, length v = dL) (m_LabelVectors e) →
  k_tag k = "GaussianKernel" ∨ k_tag k = "PeriodicKernel" →
  m_Map !! k_tag k = Some create → create (k_params k) = Ok (Some k') →
  k_class k' = k_tag k →
  Forall reads_back (k_params k) → reads_back (m_Sigma e) →
  (N.of_nat (length (k_params k)) ≤ UINT_MAX)%N →
  (N.of_nat (m_InputDimension e) ≤ UINT_MAX)%N →
  (N.of_nat (m_OutputDimension e) ≤ UINT_MAX)%N →
  ReadMatrix_text (WriteMatrix_text (m_RegressionVectors e)) = m_RegressionVectors e →
  ReadMatrix_text (WriteMatrix_text (m_CoreMatrix e)) = m_CoreMatrix e →
  (∀ X, stack_columns (m_SampleVectors e) = Ok X →
        ReadMatrix_text (WriteMatrix_text X) = X) →
  (∀ Y, stack_columns (m_LabelVectors e) = Ok Y →
        ReadMatrix_text (WriteMatrix_text Y) = Y) →
  (∀ name, name ∈ companion_names → opens_for_writing fs (prefix +:+ name) = true) →
  ∃ fs1,
    Save prefix (e, fs) = Return tt (e, fs1) ∧
    GaussianProcess_Load m_Map prefix (e0, fs1) =
      Return tt
        (mkGaussianProcess (Some k') (m_Sigma e) (m_SampleVectors e) (m_LabelVectors e)
           (m_RegressionVectors e) (m_CoreMatrix e) true
           (m_InputDimension e) (m_OutputDimension e) (debug e) (m_InvMethod e0),
         fs1).
Proof.
  intros Hi Hk Hs HsF Hl HlF Htag Hmap Hcreate Hclass Hps Hsig Hn Hdi Hdo
    HR HC HXrt HYrt Hdirs.
  destruct (Save_returns prefix e fs dS dL k Hi Hs HsF Hl HlF Hk) as [fs1 Hsave].
  exists fs1. split; [exact Hsave|].
  destruct (Save_writes prefix e fs tt (e, fs1) Hsave)
    as (X & Y & k0 & HX & HY & Hk0 & Hw).
  rewrite Hk in Hk0. injection Hk0 as <-.
  apply (f_equal snd) in Hw. cbn [snd] in Hw.
  destruct (stack_columns_columns _ dS Hs HsF) as (X' & HX' & _ & _ & _ & HXc).
  rewrite HX in HX'. injection HX' as <-.
  destruct (stack_columns_columns _ dL Hl HlF) as (Y' & HY' & _ & _ & _ & HYc).
  rewrite HY in HY'. injection HY' as <-.
  assert (files_present fs1 prefix
            (WriteMatrix_text (m_RegressionVectors e)) (WriteMatrix_text (m_CoreMatrix e))
            (WriteMatrix_text X) (WriteMatrix_text Y) (parameter_line e k)) as Hfiles.
  { assert (∀ name content, (name, content) ∈ saved_files e k X Y →
              is_regular_file fs1 (prefix +:+ name) = Some content) as Hfile.
    { intros name content Hin. unfold is_regular_file. rewrite Hw.
      rewrite (saved_file_lookup prefix e k X Y fs name content Hin).
      rewrite Hdirs; [done|]. unfold saved_files in Hin. unfold companion_names.
      repeat (apply elem_of_cons in Hin as [[= -> _]|Hin];
              [repeat first [apply list_elem_of_here | apply list_elem_of_further]|]).
      by apply elem_of_nil in Hin. }
    unfold files_present. repeat apply conj; apply Hfile; unfold saved_files;
      repeat first [apply list_elem_of_here | apply list_elem_of_further]. }
  rewrite (Load_stages m_Map prefix e0 fs1 _ _ _ _ _ Hfiles).
  unfold matrices_loaded. rewrite HR, HC, (HXrt X HX), (HYrt Y HY), HXc, HYc.
  destruct (atomic_tag_word (k_tag k) Htag) as [Hne Hword].
  unfold mbind' at 1.
  rewrite (parameter_line_parse e k _ Hne Hword Hps Hsig Hn Hdi Hdo).
  cbn [fst snd]. unfold mbind' at 1.
  rewrite (load_kernel_atomic m_Map k k' create _ Htag Hmap Hcreate Hclass).
  done.
Qed.

Section RoundTripHoldsWitness.
#[local] Existing Instance IEEE.binary64.
#[local] Existing Instance Example.eigen.
#[local] Existing Instance Example.kernels.
#[local] Existing Instance Example.matrix_io.

(** The round trip of the trained engine of two samples, where [Save]
    replaces a parameter file that is already there. *)
Lemma Save_Load_round_trip_exact_witness :
  ∃ fs1,
    Save "m" (Example.two_samples_trained, MoreExamples.stale_parameter_file)
      = Return tt (Example.two_samples_trained, fs1) ∧
    GaussianProcess_Load Example.registry "m" (Example.fresh, fs1) =
      Return tt
        (mkGaussianProcess (Some Example.gaussian)
           (m_Sigma Example.two_samples_trained)
           (m_SampleVectors Example.two_samples_trained)
           (m_LabelVectors Example.two_samples_trained)
           (m_RegressionVectors Example.two_samples_trained)
           (m_CoreMatrix Example.two_samples_trained) true
           (m_InputDimension Example.two_samples_trained)
           (m_OutputDimension Example.two_samples_trained)
           (debug Example.two_samples_trained) (m_InvMethod Example.fresh),
         fs1).
Proof.
  apply (Save_Load_round_trip_exact Example.registry "m" Example.two_samples_trained
           Example.fresh Example.gaussian Example.gaussian GaussianKernel_Load
           MoreExamples.stale_parameter_file 1 1).
  - vm_compute. reflexivity.
  - reflexivity.
  - vm_compute. discriminate.
  - vm_compute. repeat constructor.
  - vm_compute. discriminate.
  - vm_compute. repeat constructor.
  - left. reflexivity.
  - exact (proj1 RegisterKernels_lookup).
  - reflexivity.
  - reflexivity.
  - constructor; [split|constructor].
    + vm_compute. reflexivity.
    + intros rest. vm_compute. reflexivity.
  - split.
    + vm_compute. reflexivity.
    + intros rest. vm_compute. reflexivity.
  - vm_compute. discriminate.
  - vm_compute. discriminate.
  - vm_compute. discriminate.
  - vm_compute. reflexivity.
  - vm_compute. reflexivity.
  - intros X HX. vm_compute in HX. injection HX as <-. vm_compute. reflexivity.
  - intros Y HY. vm_compute in HY. injection HY as <-. vm_compute. reflexivity.
  - intros name Hin. unfold companion_names in Hin.
    repeat (apply elem_of_cons in Hin as [->|Hin]; [vm_compute; reflexivity|]).
    by apply elem_of_nil in Hin.
Defined.
End RoundTripHoldsWitness.

(** ** The cache after a change of the data *)

(** X17. A change of the data is never ignored by the next query. On an
    engine that satisfies the invariants of the data model and has a
    sample, trained or not: after [SetSigma(sigma)], [GetSigma] returns
    [sigma] and the next [Initialize] sets the core matrix to the inverse
    of the Gram matrix with [sigma] on its diagonal; after an accepted
    [AddSample(x, y)], the next [Initialize] computes the matrices for the
    [n+1] samples and labels: the core matrix has [n+1] rows and columns. *)
Theorem mutators_invalidate_cache `{Scalar T} `{Eigen T} `{KernelLib T} `{MatrixIO T}
    {ED : EigenDimensions} (e : GaussianProcess T) (k : Kernel T) :
  engine_wf e → m_Kernel e = Some k → m_SampleVectors e ≠ [] →
  (∀ sigma, ∃ e1 C R,
     (SetSigma sigma;;; Initialize) e = Return tt e1 ∧
     GetSigma e1 = sigma ∧ m_Initialized e1 = true ∧
     m_CoreMatrix e1 = C ∧ m_RegressionVectors e1 = R ∧
     invert (m_InvMethod e) (RegularizedGramMatrix k (m_SampleVectors e) sigma) = Ok C ∧
     mat_mul C (mkMatrix (length (m_LabelVectors e)) (m_OutputDimension e)
                  (m_LabelVectors e)) = Ok R) ∧
  (∀ x y, length x = m_InputDimension e → length y = m_OutputDimension e →
     ∃ e1 C R,
       (AddSample x y;;; Initialize) e = Return tt e1 ∧
       GetNumberOfSamples e1 = S (GetNumberOfSamples e) ∧ m_Initialized e1 = true ∧
       m_CoreMatrix e1 = C ∧ m_RegressionVectors e1 = R ∧
       invert (m_InvMethod e)
         (RegularizedGramMatrix k (m_SampleVectors e ++ [x]) (m_Sigma e)) = Ok C ∧
       mat_mul C (mkMatrix (S (length (m_LabelVectors e))) (m_OutputDimension e)
                    (m_LabelVectors e ++ [y])) = Ok R ∧
       mrows C = S (GetNumberOfSamples e) ∧ mcols C = S (GetNumberOfSamples e)).
Proof.
  intros (_ & Hlen & HsF & HlF & _) Hk Hs.
  assert (m_LabelVectors e ≠ []) as Hl.
  { intros Hnil. rewrite Hnil in Hlen. by destruct (m_SampleVectors e). }
  split.
  - intros sigma.
    set (e' := set_Initialized false (set_Sigma sigma e)).
    destruct (Initialize_retrains e' k) as (C & R & HI & HC & HR & _); try done.
    exists (trained_state e' C R), C, R.
    split; [|by repeat apply conj].
    unfold mbind', SetSigma, assign. exact HI.
  - intros x y Hx Hy.
    set (e' := set_Initialized false
                 (set_LabelVectors (m_LabelVectors e ++ [y])
                    (set_SampleVectors (m_SampleVectors e ++ [x]) e))).
    assert (AddSample x y e = Return tt e') as Hadd.
    { rewrite (AddSample_later e x y Hs Hl).
      by rewrite !decide_False by (intros Hne; by apply Hne). }
    assert (m_SampleVectors e' ≠ []) as Hs'.
    { simpl. by destruct (m_SampleVectors e). }
    assert (length (m_SampleVectors e') = length (m_LabelVectors e')) as Hlen'.
    { simpl. by rewrite !length_app, Hlen. }
    assert (Forall (λ v, length v = m_OutputDimension e') (m_LabelVectors e')) as HlF'.
    { simpl. apply Forall_app. split; [done|]. by repeat constructor. }
    destruct (Initialize_retrains e' k) as (C & R & HI & HC & HR & Hret); try done.
    destruct (retrained_exists e' k) as (C' & R' & HC' & _ & _ & HCr & HCc & _); try done.
    rewrite HC in HC'. injection HC' as <-.
    exists (trained_state e' C R), C, R.
    split; [unfold mbind'; by rewrite Hadd|].
    unfold GetNumberOfSamples. simpl in *.
    rewrite length_app in HCr, HCc, HR. simpl in *.
    rewrite Nat.add_1_r in HCr, HCc, HR.
    rewrite length_app, Nat.add_1_r. by repeat apply conj.
Qed.

(** ** The size of the kernel vector *)

Lemma rfold_undefined {A I} (body : A → I → result A) (idx : list I) (i : I) (a : A) :
  (∀ a' j ex, body a' j ≠ Throw ex) → i ∈ idx → (∀ a', body a' i = Undefined) →
  rfold body idx a = Undefined.
Proof.
  intros Hthrow Hin Hi. revert a. induction idx as [|j idx IH]; intros a.
  { by apply elem_of_nil in Hin. }
  simpl. apply elem_of_cons in Hin as [->|Hin].
  - by rewrite Hi.
  - destruct (body a j) as [a'|ex|] eqn:Hb; simpl; [by apply IH| |done].
    by apply Hthrow in Hb.
Qed.

(** X18. [ComputeKernelVector] takes the size of the kernel vector from the
    number of rows of the matrix of regression coefficients and not from
    the number of samples. On a trained engine, with [m] rows: entry [i] is
    [kernel(x, sample_i)] for the first [m] samples when there are at least
    [m]; when there are fewer, as [Load] can leave it, the loop reads
    behind the last sample and the behaviour is undefined. *)
Theorem ComputeKernelVector_rows `{Scalar T} `{Eigen T}
    (e : GaussianProcess T) (x Kx0 : Vector T) :
  m_Initialized e = true →
  (∀ k, m_Kernel e = Some k →
        mrows (m_RegressionVectors e) ≤ length (m_SampleVectors e) →
        ComputeKernelVector e x Kx0
          = Ok (k_eval k x <$> take (mrows (m_RegressionVectors e)) (m_SampleVectors e))) ∧
  (length (m_SampleVectors e) < mrows (m_RegressionVectors e) →
   ComputeKernelVector e x Kx0 = Undefined).
Proof.
  intros Hi. unfold ComputeKernelVector. rewrite Hi. cbn [negb].
  set (n := mrows (m_RegressionVectors e)).
  split.
  - intros k Hk Hn. rewrite Hk.
    destruct (rfold_seq_inv
                (λ i (Kx : Vector T),
                   length Kx = n ∧
                   ∀ p, p < i → Kx !! p = Some (k_eval k x (sample_at (m_SampleVectors e) p)))
                (λ Kx i, k <- deref (Some k);;
                         xi <- at_index (m_SampleVectors e) i;;
                         vec_write i (k_eval k x xi) Kx)
                0 n (vec_resize n Kx0))
      as (Kx & -> & Hlen & Hent).
    + split; [|intros p Hp; lia]. unfold vec_resize.
      case_decide; [done|apply length_replicate].
    + intros Kx i [_ Hi'] [Hlen Hent]. simpl in Hi'. simpl.
      rewrite at_index_sample_at by lia. simpl.
      unfold vec_write. rewrite decide_True by lia.
      eexists. split; [done|]. split; [by rewrite length_insert|].
      intros p Hp. destruct (decide (p = i)) as [->|Hne].
      * apply list_lookup_insert_eq. lia.
      * rewrite list_lookup_insert_ne by done. apply Hent. lia.
    + f_equal. apply list_eq. intros p. rewrite list_lookup_fmap.
      destruct (decide (p < n)) as [Hp|Hp].
      * rewrite Hent by lia. rewrite lookup_take_lt by done. unfold sample_at.
        destruct (lookup_lt_is_Some_2 (m_SampleVectors e) p) as [s ->]; [lia|done].
      * rewrite lookup_ge_None_2 by lia.
        rewrite lookup_take_ge by lia. done.
  - intros Hn. apply (rfold_undefined _ _ (length (m_SampleVectors e))).
    + intros Kx j ex. unfold deref, at_index, vec_write.
      repeat (first [case_decide | case_match]; simpl; try done).
    + apply elem_of_seq. fold n. lia.
    + intros Kx. unfold deref, at_index.
      destruct (m_Kernel e); simpl; [|done].
      by rewrite lookup_ge_None_2.
Qed.

Section CacheWitnesses.
#[local] Existing Instance IEEE.binary64.
#[local] Existing Instance Example.eigen.
#[local] Existing Instance Example.kernels.
#[local] Existing Instance Example.matrix_io.
#[local] Existing Instance Example_eigen_dimensions.

Lemma mutators_invalidate_cache_witness :
  ∃ e1, (AddSample [Example.d "2"] [Example.d "4"];;; Initialize)
          Example.two_samples_trained = Return tt e1 ∧
        mrows (m_CoreMatrix e1) = 3.
Proof.
  destruct (mutators_invalidate_cache Example.two_samples_trained Example.gaussian)
    as [_ Hadd].
  - apply reachable_engine_wf, Example_two_samples_trained_reachable.
  - reflexivity.
  - vm_compute. discriminate.
  - destruct (Hadd [Example.d "2"] [Example.d "4"])
      as (e1 & C & R & Hrun & _ & _ & HC & _ & _ & _ & Hr & _);
      [reflexivity|reflexivity|].
    exists e1. split; [exact Hrun|]. rewrite HC. exact Hr.
Defined.

Lemma ComputeKernelVector_rows_witness :
  returns (GaussianProcess_Load Example.registry "m"
             (Example.fresh, MoreExamples.mismatched_files)) = true ∧
  ComputeKernelVector MoreExamples.mismatched_loaded.1 [Example.d "0"] [] = Undefined.
Proof.
  split; [vm_compute; reflexivity|].
  destruct (ComputeKernelVector_rows MoreExamples.mismatched_loaded.1 [Example.d "0"] [])
    as [_ Hout].
  - vm_compute. reflexivity.
  - apply Hout. vm_compute. lia.
Defined.
End CacheWitnesses.

(** ** [Initialize] on the engines of the public interface *)

(** X19. [Initialize] on an engine in any state: with the trained flag set
    it returns at once; with the flag clear and no sample it throws the
    exception for missing input samples, and with samples and no label the
    exception for missing labels (both of kind [UntrainedState]); it throws
    nothing else, and an engine on which it throws is unchanged. On the
    engines that [AddSample], [SetSigma], [DebugOn], [Initialize] and the
    queries produce from a constructed engine of any strategy, it throws
    exactly when no sample has been added, returns when there is one, and
    never throws the exception for missing labels. [Load] is not among
    these operations: it takes the samples and the labels from two files,
    so that an engine with samples and no label can come out of it. *)
Theorem Initialize_on_reachable `{Scalar T} `{Eigen T} `{KernelLib T} `{MatrixIO T}
    {ED : EigenDimensions} (e : GaussianProcess T) :
  (m_Initialized e = true → Initialize e = Return tt e) ∧
  (m_Initialized e = false → m_SampleVectors e = [] →
   Initialize e = Raise NoInputSamples e ∧ kind_of NoInputSamples = UntrainedState) ∧
  (m_Initialized e = false → m_SampleVectors e ≠ [] → m_LabelVectors e = [] →
   Initialize e = Raise NoOutputLabels e ∧ kind_of NoOutputLabels = UntrainedState) ∧
  (∀ ex e', Initialize e = Raise ex e' →
     e' = e ∧ m_Initialized e = false ∧
     ((ex = NoInputSamples ∧ m_SampleVectors e = []) ∨
      (ex = NoOutputLabels ∧ m_SampleVectors e ≠ [] ∧ m_LabelVectors e = []))) ∧
  (∀ strategy k, produced (construct_with strategy (Some k)) e →
     (GetNumberOfSamples e = 0 →
      m_Initialized e = false ∧ Initialize e = Raise NoInputSamples e) ∧
     (0 < GetNumberOfSamples e →
      ∃ e1, Initialize e = Return tt e1 ∧ m_Initialized e1 = true ∧
            GetNumberOfSamples e1 = GetNumberOfSamples e) ∧
     (∀ e', Initialize e ≠ Raise NoOutputLabels e')).
Proof.
  assert (∀ ex e', Initialize e = Raise ex e' →
            e' = e ∧ m_Initialized e = false ∧
            ((ex = NoInputSamples ∧ m_SampleVectors e = []) ∨
             (ex = NoOutputLabels ∧ m_SampleVectors e ≠ [] ∧ m_LabelVectors e = [])))
    as Hthrows.
  { intros ex e' HI. pose proof (Initialize_outcome e) as Ho. by rewrite HI in Ho. }
  split; [|split; [|split; [|split; [exact Hthrows|]]]].
  - intros Hi. unfold Initialize. by rewrite Hi.
  - intros Hi Hs. split; [|done]. unfold Initialize. rewrite Hi, Hs.
    by rewrite decide_True by (simpl; lia).
  - intros Hi Hs Hl. split; [|done]. unfold Initialize. rewrite Hi, Hl.
    rewrite decide_False; [by rewrite decide_True by (simpl; lia)|].
    intros Hn. apply Hn. destruct (m_SampleVectors e); [done|simpl; lia].
  - intros strategy k Hr.
    pose proof (produced_engine_wf _ e (engine_wf_construct_with strategy k) Hr) as Hwf.
    unfold GetNumberOfSamples. split; [|split].
    + intros Hn. apply length_zero_iff_nil in Hn.
      assert (m_Initialized e = false) as Hi.
      { destruct (m_Initialized e) eqn:Hi; [|done].
        by destruct (trained_has_samples e Hwf Hi) as [Hs _]. }
      split; [done|]. unfold Initialize. rewrite Hi, Hn.
      by rewrite decide_True by (simpl; lia).
    + intros Hn.
      assert (m_SampleVectors e ≠ []) as Hs.
      { intros Hnil. rewrite Hnil in Hn. simpl in Hn. lia. }
      destruct (Initialize_ready e Hwf Hs) as (e1 & HI & _ & Hi1 & _ & _ & Hs1 & _).
      exists e1. by rewrite Hs1.
    + intros e' HI. destruct (Hthrows _ _ HI) as (_ & _ & [[? _]|(_ & Hs & Hl)]); [done|].
      destruct Hwf as (_ & Hlen & _). rewrite Hl in Hlen.
      destruct (m_SampleVectors e); done.
Qed.

Section ReachableWitness.
#[local] Existing Instance IEEE.binary64.
#[local] Existing Instance Example.eigen.
#[local] Existing Instance Example.kernels.
#[local] Existing Instance Example.matrix_io.
#[local] Existing Instance Example_eigen_dimensions.

Lemma Example_two_samples_produced :
  produced (construct_with FullPivotLU (Some Example.gaussian)) Example.two_samples.
Proof.
  unfold Example.two_samples. cbv zeta.
  apply (produced_after _ (OpSetSigma (Example.d "0.01"))); [|reflexivity].
  apply (produced_after _ (OpAddSample [Example.d "1"] [Example.d "1"])); [|reflexivity].
  apply (produced_after _ (OpAddSample [Example.d "0"] [Example.d "0"])); [|reflexivity].
  apply produced_start.
Qed.

(** On the engine with two samples [Initialize] returns. [Load] of files
    whose label matrix has no column returns; after [SetSigma] on the
    engine it leaves, [Initialize] throws the exception for missing
    labels. *)
Lemma Initialize_on_reachable_witness :
  (∃ e1, Initialize Example.two_samples = Return tt e1 ∧ m_Initialized e1 = true ∧
         GetNumberOfSamples e1 = 2) ∧
  returns (GaussianProcess_Load Example.registry "m"
             (Example.fresh, MoreExamples.no_label_files)) = true ∧
  GetNumberOfSamples MoreExamples.no_label_noise_set = 1 ∧
  Initialize MoreExamples.no_label_noise_set
    = Raise NoOutputLabels MoreExamples.no_label_noise_set.
Proof.
  split.
  - destruct (Initialize_on_reachable Example.two_samples) as (_ & _ & _ & _ & Hproduced).
    destruct (Hproduced FullPivotLU Example.gaussian Example_two_samples_produced)
      as (_ & Hsome & _).
    destruct Hsome as (e1 & HI & Hi & Hn); [vm_compute; lia|].
    exists e1. split; [exact HI|]. split; [exact Hi|]. rewrite Hn. vm_compute. reflexivity.
  - split; [vm_compute; reflexivity|]. split; [vm_compute; reflexivity|].
    destruct (Initialize_on_reachable MoreExamples.no_label_noise_set)
      as (_ & _ & Hlabels & _).
    destruct Hlabels as [HI _].
    + vm_compute. reflexivity.
    + vm_compute. discriminate.
    + vm_compute. reflexivity.
    + exact HI.
Defined.
End ReachableWitness.

(** ** What the queries read of a trained engine *)

Lemma rfold_ext {A I} (body body' : A → I → result A) (idx : list I) (a : A) :
  (∀ a' i, i ∈ idx → body a' i = body' a' i) → rfold body idx a = rfold body' idx a.
Proof.
  revert a. induction idx as [|i idx IH]; intros a Hext; [done|]. simpl.
  rewrite Hext by apply list_elem_of_here.
  destruct (body' a i); simpl; [|done..].
  apply IH. intros a' j Hj. apply Hext. by apply list_elem_of_further.
Qed.

Section QueryReads.
Context `{Scalar T} `{Eigen T} `{KernelLib T} `{MatrixIO T}.
Implicit Types e : GaussianProcess T.

(** The kernel vector depends on the kernel through its values on the
    pairs of the input and a sample only. *)
Lemma ComputeKernelVector_reads e e' (k k' : Kernel T) (x Kx : Vector T) :
  m_Initialized e' = m_Initialized e →
  m_Kernel e = Some k → m_Kernel e' = Some k' →
  m_SampleVectors e' = m_SampleVectors e →
  mrows (m_RegressionVectors e') = mrows (m_RegressionVectors e) →
  (∀ s, s ∈ m_SampleVectors e → k_eval k' x s = k_eval k x s) →
  ComputeKernelVector e' x Kx = ComputeKernelVector e x Kx.
Proof.
  intros Hi Hk Hk' Hs HR Heval. unfold ComputeKernelVector.
  rewrite Hi, Hk, Hk', Hs, HR. destruct (m_Initialized e); [|done]. cbn [negb].
  apply rfold_ext. intros v i _. simpl. unfold at_index.
  destruct (m_SampleVectors e !! i) as [s|] eqn:Hsi; [|done]. simpl.
  rewrite Heval; [done|]. by eapply list_elem_of_lookup_2.
Qed.
End QueryReads.

(** X20. What [Predict] and [operator()] read of a trained engine. The
    outcome of [Predict(x)] on a trained engine is determined by the input
    dimension, the samples, the matrix of regression coefficients and the
    values of the kernel on the pairs [(x, sample_i)]: a second trained
    engine that agrees on these returns the same prediction, throws the
    same exception or fails the same assertion, whatever its labels, noise,
    core matrix, output dimension, debug flag and inversion strategy. The
    outcome of [operator()(x, y)] is determined likewise by the input
    dimension, the samples, the number of rows of the regression
    coefficients, the core matrix and the values of the kernel on [(x, y)],
    [(x, sample_i)] and [(y, sample_i)]. Both leave a trained engine as it
    is. *)
Theorem trained_queries_read `{Scalar T} `{Eigen T} `{KernelLib T} `{MatrixIO T}
    (e e' : GaussianProcess T) (k k' : Kernel T) (x y : Vector T) :
  m_Initialized e = true → m_Initialized e' = true →
  m_Kernel e = Some k → m_Kernel e' = Some k' →
  m_InputDimension e' = m_InputDimension e →
  m_SampleVectors e' = m_SampleVectors e →
  (∀ s, s ∈ m_SampleVectors e → k_eval k' x s = k_eval k x s) →
  (m_RegressionVectors e' = m_RegressionVectors e →
   Predict x e' = map_state (λ _, e') (Predict x e)) ∧
  (mrows (m_RegressionVectors e') = mrows (m_RegressionVectors e) →
   m_CoreMatrix e' = m_CoreMatrix e →
   (∀ s, s ∈ m_SampleVectors e → k_eval k' y s = k_eval k y s) →
   k_eval k' x y = k_eval k x y →
   operator_call x y e' = map_state (λ _, e') (operator_call x y e)) ∧
  (∀ p e1, Predict x e = Return p e1 → e1 = e) ∧
  (∀ c e1, operator_call x y e = Return c e1 → e1 = e).
Proof.
  intros Hi Hi' Hk Hk' Hdi Hs Hx.
  assert (Initialize e = Return tt e) as HI by (unfold Initialize; by rewrite Hi).
  assert (Initialize e' = Return tt e') as HI' by (unfold Initialize; by rewrite Hi').
  assert (∀ u msg_prefix,
            CheckInputDimension e' u msg_prefix = CheckInputDimension e u msg_prefix)
    as Hcheck.
  { intros u msg_prefix. unfold CheckInputDimension. by rewrite Hdi. }
  split; [|split; [|split]].
  - intros HR.
    assert (ComputeKernelVector e' x [] = ComputeKernelVector e x []) as HKx.
    { apply (ComputeKernelVector_reads e e' k k'); try done; congruence. }
    unfold Predict, mbind', call. rewrite HI, HI'. cbv beta iota.
    rewrite Hcheck. destruct (CheckInputDimension e x _); [|done..].
    rewrite HKx. destruct (ComputeKernelVector e x []) as [Kx| |]; [|done..].
    unfold point_prediction. rewrite HR.
    by destruct (rbind (mat_mul (row_matrix Kx) (m_RegressionVectors e)) _).
  - intros HR HC Hy Hxy.
    assert (ComputeKernelVector e' x [] = ComputeKernelVector e x []) as HKx.
    { apply (ComputeKernelVector_reads e e' k k'); try done; congruence. }
    assert (ComputeKernelVector e' y [] = ComputeKernelVector e y []) as HKy.
    { apply (ComputeKernelVector_reads e e' k k'); try done; congruence. }
    unfold operator_call, mbind', call. rewrite HI, HI'. cbv beta iota.
    rewrite Hcheck. destruct (CheckInputDimension e x _); [|done..].
    rewrite Hcheck. destruct (CheckInputDimension e y _); [|done..].
    rewrite HKx. destruct (ComputeKernelVector e x []) as [Kx| |]; [|done..].
    rewrite HKy. destruct (ComputeKernelVector e y []) as [Ky| |]; [|done..].
    unfold posterior_covariance, deref. rewrite Hk, Hk', HC. cbn [rbind].
    rewrite Hxy.
    by destruct (rbind (mat_mul (row_matrix Kx) (m_CoreMatrix e)) _).
  - intros p e1 Hp. pose proof (Predict_unchanged_or_retrained x e) as Hrel.
    rewrite Hp in Hrel. destruct Hrel as [->|[Hf _]]; [done|congruence].
  - intros c e1 Hc. pose proof (operator_call_unchanged_or_retrained x y e) as Hrel.
    rewrite Hc in Hrel. destruct Hrel as [->|[Hf _]]; [done|congruence].
Qed.

Section ReadsWitness.
#[local] Existing Instance IEEE.binary64.
#[local] Existing Instance Example.eigen.
#[local] Existing Instance Example.kernels.
#[local] Existing Instance Example.matrix_io.

Lemma trained_queries_read_witness :
  Predict [Example.d "0.5"] (set_Sigma (Example.d "7") Example.two_samples_trained)
    = map_state (λ _, set_Sigma (Example.d "7") Example.two_samples_trained)
        (Predict [Example.d "0.5"] Example.two_samples_trained).
Proof.
  destruct (trained_queries_read Example.two_samples_trained
              (set_Sigma (Example.d "7") Example.two_samples_trained)
              Example.gaussian Example.gaussian [Example.d "0.5"] [])
    as [Hpredict _].
  - vm_compute. reflexivity.
  - vm_compute. reflexivity.
  - reflexivity.
  - reflexivity.
  - reflexivity.
  - reflexivity.
  - intros s _. reflexivity.
  - apply Hpredict. reflexivity.
Defined.
End ReadsWitness.
